(** * Env Manager: configuration store, resolution and projection

    A shallow embedding of [src/EnvManager.ts] (the class [EnvManager]) and of
    the data model of [src/types.ts].

    Modelling conventions.
    - JavaScript strings are modelled as [string] over 8-bit code units, so
      the Unicode white space and line terminators above code 255 are out of
      the model.  Inside that range [trim], [toLowerCase] and the regular
      expressions of the source are reproduced exactly.
    - A file holds its decoded text; the filesystem is a finite map from
      absolute paths to file contents, on which reading, probing or copying
      a missing file fails and every write succeeds.
    - The environment variable collection of the extension context is a
      finite map from variable names to values.
    - The asynchronous methods run to completion one after the other, so each
      one is a function from states to states. *)

From Stdlib Require Import Ascii String List Bool Arith Lia.
From stdpp Require Import base option list strings gmap pretty.

Local Open Scope string_scope.
Local Open Scope list_scope.

Set Default Proof Using "Type".

(** ** Strings as the source uses them *)

Module JsString.

Definition char_nl : ascii := "010"%char.
Definition char_cr : ascii := "013"%char.
Definition char_quote : ascii := "034"%char.
Definition char_hash : ascii := "#"%char.
Definition char_eq : ascii := "="%char.
Definition char_backslash : ascii := "\"%char.

Definition str1 (c : ascii) : string := String c EmptyString.

Definition is_empty (s : string) : bool :=
  match s with EmptyString => true | String _ _ => false end.

(** White space of [String.prototype.trim] below code 256: TAB, LF, VT,
    FF, CR, SPACE and NO-BREAK SPACE. *)
Definition is_white_space (c : ascii) : bool :=
  let n := nat_of_ascii c in
  (Nat.leb 9 n && Nat.leb n 13) || Nat.eqb n 32 || Nat.eqb n 160.

(** Line terminators, the characters the regular expression [.] refuses. *)
Definition is_line_terminator (c : ascii) : bool :=
  Ascii.eqb c char_nl || Ascii.eqb c char_cr.

Fixpoint trimStart (s : string) : string :=
  match s with
  | EmptyString => EmptyString
  | String c r => if is_white_space c then trimStart r else s
  end.

Fixpoint trimEnd (s : string) : string :=
  match s with
  | EmptyString => EmptyString
  | String c r =>
      let r' := trimEnd r in
      if is_white_space c && is_empty r' then EmptyString else String c r'
  end.

Definition trim (s : string) : string := trimEnd (trimStart s).

Definition startsWithChar (c : ascii) (s : string) : bool :=
  match s with
  | EmptyString => false
  | String d _ => Ascii.eqb d c
  end.

Fixpoint lastChar (s : string) : option ascii :=
  match s with
  | EmptyString => None
  | String c EmptyString => Some c
  | String _ r => lastChar r
  end.

Definition endsWithChar (c : ascii) (s : string) : bool :=
  match lastChar s with
  | Some d => Ascii.eqb d c
  | None => false
  end.

Fixpoint removeLast (s : string) : string :=
  match s with
  | EmptyString => EmptyString
  | String _ EmptyString => EmptyString
  | String c r => String c (removeLast r)
  end.

(** [toLowerCase] on code units below 256: the ASCII capitals and the
    Latin-1 capitals (192..222 but the multiplication sign 215). *)
Definition lower_char (c : ascii) : ascii :=
  let n := nat_of_ascii c in
  if (Nat.leb 65 n && Nat.leb n 90) ||
     (Nat.leb 192 n && Nat.leb n 222 && negb (Nat.eqb n 215))
  then ascii_of_nat (n + 32) else c.

Fixpoint toLowerCase (s : string) : string :=
  match s with
  | EmptyString => EmptyString
  | String c r => String (lower_char c) (toLowerCase r)
  end.

Fixpoint has_line_terminator (s : string) : bool :=
  match s with
  | EmptyString => false
  | String c r => is_line_terminator c || has_line_terminator r
  end.

(** The text before and after the first [=] of [s]. *)
Fixpoint cut_at_eq (s : string) : option (string * string) :=
  match s with
  | EmptyString => None
  | String c r =>
      if Ascii.eqb c char_eq then Some (EmptyString, r)
      else match cut_at_eq r with
           | Some (k, v) => Some (String c k, v)
           | None => None
           end
  end.

(** The regular expression of the source applied to [s]: one or more
    characters other than [=], then [=], then any characters but line
    terminators up to the end of [s].  The result holds the two groups
    when [s] matches.  The first group cannot hold [=], so it ends at the
    first [=] and has to be non-empty; the second group has to reach the
    end of [s], so the rest has to be free of line terminators. *)
Definition match_assignment (s : string) : option (string * string) :=
  match cut_at_eq s with
  | Some (k, v) =>
      if is_empty k || has_line_terminator v then None else Some (k, v)
  | None => None
  end.

(** Splitting at line feeds, each with the carriage return before it if
    there is one.  The result is never empty: the empty text gives one
    empty line. *)
Fixpoint split_lines (s : string) : list string :=
  match s with
  | EmptyString => [EmptyString]
  | String c r =>
      let rest := split_lines r in
      if Ascii.eqb c char_nl then EmptyString :: rest
      else if Ascii.eqb c char_cr && startsWithChar char_nl r then rest
      else match rest with
           | h :: t => String c h :: t
           | [] => [str1 c]
           end
  end.

(** [lines.join(sep)]. *)
Fixpoint join (sep : string) (l : list string) : string :=
  match l with
  | [] => EmptyString
  | [x] => x
  | x :: t => x +:+ sep +:+ join sep t
  end.

(** Every double quote of [s] gets a backslash before it. *)
Fixpoint escape_quotes (s : string) : string :=
  match s with
  | EmptyString => EmptyString
  | String c r =>
      if Ascii.eqb c char_quote
      then String char_backslash (String char_quote (escape_quotes r))
      else String c (escape_quotes r)
  end.

End JsString.

Import JsString.

(** ** Data model ([src/types.ts]) *)

Record EnvVariable := mkVar {
  key : string;
  value : string;
  enabled : bool }.

Record Environment := mkEnv {
  env_id : string;
  env_name : string;
  variables : list EnvVariable }.

Record Project := mkProject {
  id : string;
  name : string;
  path : string;
  environments : list Environment;
  activeEnvId : option string }.

Inductive SyncMode := terminal | file.

(** Truthiness of an optional string: [undefined] and the empty string are
    falsy. *)
Definition truthy (o : option string) : bool :=
  match o with
  | Some s => negb (is_empty s)
  | None => false
  end.

(** [project.environments.find(e => e.id === project.activeEnvId)], after
    the truthiness test on [activeEnvId] that guards it everywhere. *)
Definition activeEnvironment (p : Project) : option Environment :=
  match activeEnvId p with
  | Some a =>
      if is_empty a then None
      else find (fun e => String.eqb (env_id e) a) (environments p)
  | None => None
  end.

(** ** File projection: the merge of [writeEnvFile] *)

(** The line made of the key, [=] and the escaped value inside double
    quotes. *)
Definition assignment_line (k v : string) : string :=
  k +:+ "=" +:+ str1 char_quote +:+ escape_quotes v +:+ str1 char_quote.

Definition findVar (k : string) (vars : list EnvVariable) : option EnvVariable :=
  find (fun v => String.eqb (key v) k) vars.

(** One turn of the loop over the existing lines: the line pushed to
    [newLines] and the key added to [processedKeys], if any. *)
Definition mergeLine (envVars : list EnvVariable) (line : string)
  : string * option string :=
  let trimmed := trim line in
  match match_assignment trimmed with
  | Some (k0, _) =>
      if negb (startsWithChar char_hash trimmed) then
        let k := trim k0 in
        match findVar k envVars with
        | Some managedVar => (assignment_line k (value managedVar), Some k)
        | None => (line, None)
        end
      else (line, None)
  | None => (line, None)
  end.

Definition mergeStep (envVars : list EnvVariable)
    (acc : list string * gset string) (line : string)
  : list string * gset string :=
  let '(newLines, processedKeys) := acc in
  match mergeLine envVars line with
  | (out, Some k) => (newLines ++ [out], {[ k ]} ∪ processedKeys)
  | (out, None) => (newLines ++ [out], processedKeys)
  end.

Definition appendStep (processedKeys : gset string)
    (newLines : list string) (v : EnvVariable) : list string :=
  if bool_decide (key v ∈ processedKeys) then newLines
  else newLines ++ [assignment_line (key v) (value v)].

(** Steps 2 and 3 of [writeEnvFile]: the lines written back. *)
Definition mergeLines (variables : list EnvVariable) (existingContent : string)
  : list string :=
  let lines := split_lines existingContent in
  let envVars := filter (fun v => enabled v = true) variables in
  let '(newLines, processedKeys) :=
    fold_left (mergeStep envVars) lines ([], ∅) in
  fold_left (appendStep processedKeys) envVars newLines.

Definition mergeContent (variables : list EnvVariable) (existingContent : string)
  : string :=
  join (str1 char_nl) (mergeLines variables existingContent).

(** ** The state the class works on *)

Inductive Message :=
  | ErrorMessage (text : string)
  | WarningMessage (text : string)
  | InformationMessage (text : string).

(** The fields of the class and the collaborators it reaches through the
    extension context: [_syncMode], [projectsCache], the secret storage entry
    of the projects (the JSON text is kept as the value it encodes), the
    stored sync mode of the global state, the workspace variables of the
    workspace state, the open workspace folders ([None] for [undefined]),
    the environment variable collection, the filesystem, and the messages
    shown to the user, oldest first. *)
Record State := mkState {
  syncMode : SyncMode;
  projectsCache : option (list Project);
  secretProjects : option (list Project);
  storedSyncMode : option SyncMode;
  workspaceVars : list EnvVariable;
  workspaceFolders : option (list string);
  collection : gmap string string;
  files : gmap string string;
  messages : list Message }.

Definition set_syncMode (m : SyncMode) (st : State) : State :=
  mkState m (projectsCache st) (secretProjects st) (Some m)
          (workspaceVars st) (workspaceFolders st) (collection st) (files st)
          (messages st).

Definition set_projects (ps : list Project) (st : State) : State :=
  mkState (syncMode st) (Some ps) (Some ps) (storedSyncMode st)
          (workspaceVars st) (workspaceFolders st) (collection st) (files st)
          (messages st).

Definition set_workspaceVars (vs : list EnvVariable) (st : State) : State :=
  mkState (syncMode st) (projectsCache st) (secretProjects st)
          (storedSyncMode st) vs (workspaceFolders st) (collection st)
          (files st) (messages st).

Definition set_collection (c : gmap string string) (st : State) : State :=
  mkState (syncMode st) (projectsCache st) (secretProjects st)
          (storedSyncMode st) (workspaceVars st) (workspaceFolders st) c
          (files st) (messages st).

Definition set_files (fs : gmap string string) (st : State) : State :=
  mkState (syncMode st) (projectsCache st) (secretProjects st)
          (storedSyncMode st) (workspaceVars st) (workspaceFolders st)
          (collection st) fs (messages st).

Definition showMessage (m : Message) (st : State) : State :=
  mkState (syncMode st) (projectsCache st) (secretProjects st)
          (storedSyncMode st) (workspaceVars st) (workspaceFolders st)
          (collection st) (files st) (messages st ++ [m]).

(** ** Filesystem primitives *)

Module Fs.

Definition stat (p : string) (fs : gmap string string) : bool :=
  bool_decide (is_Some (fs !! p)).

Definition readFile (p : string) (fs : gmap string string) : option string :=
  fs !! p.

Definition writeFile (p content : string) (fs : gmap string string)
  : gmap string string := <[p := content]> fs.

(** Copying fails on a missing source, and on an existing target unless
    [overwrite] is set. *)
Definition copy (src dst : string) (overwrite : bool)
    (fs : gmap string string) : option (gmap string string) :=
  match fs !! src with
  | Some data =>
      if negb overwrite && stat dst fs then None
      else Some (<[dst := data]> fs)
  | None => None
  end.

Definition delete (p : string) (fs : gmap string string)
  : option (gmap string string) :=
  if stat p fs then Some (base.delete p fs) else None.

End Fs.

(** The first element that satisfies [f] is replaced by its image under
    [g]: an object found with [Array.prototype.find] and changed in place. *)
Fixpoint update_first {A : Type} (f : A -> bool) (g : A -> A) (l : list A)
  : list A :=
  match l with
  | [] => []
  | x :: t => if f x then g x :: t else x :: update_first f g t
  end.

(** ** Sample data

    A platform whose directories end with a slash, and a small store: one
    project with a development environment that is active, opened as a
    workspace folder under another capitalisation of its path. *)

Module Sample.

Definition dir_prefix (dir : string) : string := dir +:+ "/".

Definition error_text (p : string) : string :=
  "Error: ENOENT: no such file or directory, open " +:+ p.

Definition env : Environment :=
  mkEnv "e1" "dev" [mkVar "FOO" "baz" true; mkVar "OLD" "x" false].

Definition project : Project :=
  mkProject "p1" "app" "/Work/App" [env] (Some "e1").

Definition env_ab : Environment :=
  mkEnv "e2" "ab" [mkVar "A" "1" true; mkVar "B" "2" true].

Definition project_ab : Project :=
  mkProject "p2" "fresh" "/work/fresh" [env_ab] (Some "e2").

Definition overrides : list EnvVariable := [mkVar "FOO" "override" true].

Definition nl : string := str1 char_nl.

Definition quoted (s : string) : string :=
  str1 char_quote +:+ s +:+ str1 char_quote.

Definition target_text : string :=
  join nl ["# comment"; "FOO=bar"; "UNMANAGED=zzz"].

Definition state (ps : list Project) (fs : gmap string string) : State :=
  mkState terminal (Some ps) (Some ps) None overrides (Some ["/work/app"])
          ∅ fs [].

(** The target of [project] holds [target_text] and has no backup. *)
Definition state_with_target : State :=
  state [project] {[ "/Work/App/.env" := target_text ]}.

(** No file at all. *)
Definition state_without_target : State := state [project_ab] ∅.

(** A backup that was there before any managed write, next to the target
    of [project] and in the directory of [project_ab], which has no
    target. *)
Definition stale_text : string := "STALE=1".

Definition state_with_stale_backup : State :=
  state [project] {[ "/Work/App/.env" := target_text;
                     "/Work/App/.env.bak" := stale_text ]}.


End Sample.

Section EnvManager.

(** [path.join(dir, name)] for a plain file name is the normalised
    directory, with its separator, followed by the name; the normalisation
    of the platform is a parameter. *)
Variable dir_prefix : string -> string.

(** The text an error raised by the filesystem for a path is shown as. *)
Variable error_text : string -> string.

Definition path_join (dir name : string) : string := dir_prefix dir +:+ name.

Definition envPath (project : Project) : string :=
  path_join (path project) ".env".

Definition bakPath (project : Project) : string :=
  path_join (path project) ".env.bak".

Definition getProjects (st : State) : list Project :=
  match projectsCache st with
  | Some ps => ps
  | None => []
  end.

(** *** File projection *)

Definition restoreEnvFile (project : Project) (st : State) : State :=
  let fs := files st in
  if negb (Fs.stat (bakPath project) fs) then st
  else
    let failed :=
      ErrorMessage ("Failed to restore .env file for " +:+ name project
                    +:+ ": " +:+ error_text (bakPath project)) in
    match Fs.copy (bakPath project) (envPath project) true fs with
    | Some fs1 =>
        match Fs.delete (bakPath project) fs1 with
        | Some fs2 => set_files fs2 st
        | None => showMessage failed (set_files fs1 st)
        end
    | None => showMessage failed st
    end.

(** Step 1 of [writeEnvFile]: the content read and the filesystem after
    the backup.  An error while reading or copying falls into the handler
    that starts from the empty content. *)
Definition readAndBackup (project : Project) (fs : gmap string string)
  : string * gmap string string :=
  match Fs.readFile (envPath project) fs with
  | Some existingData =>
      if Fs.stat (bakPath project) fs then (existingData, fs)
      else match Fs.copy (envPath project) (bakPath project) false fs with
           | Some fs1 => (existingData, fs1)
           | None => (EmptyString, fs)
           end
  | None => (EmptyString, fs)
  end.

Definition writeEnvFile (project : Project) (st : State) : State :=
  match activeEnvironment project with
  | None => st
  | Some env =>
      let '(existingContent, fs1) := readAndBackup project (files st) in
      let newContent := mergeContent (variables env) existingContent in
      set_files (Fs.writeFile (envPath project) newContent fs1) st
  end.

Definition syncAllActiveProjectsToFile (st : State) : State :=
  let st1 :=
    fold_left (fun s project =>
                 if truthy (activeEnvId project) then writeEnvFile project s
                 else s)
              (getProjects st) st in
  set_collection ∅ st1.

Definition revertAllActiveProjectsFromFile (st : State) : State :=
  fold_left (fun s project => restoreEnvFile project s) (getProjects st) st.

(** *** Terminal projection *)

Definition replaceEnabled (c : gmap string string) (v : EnvVariable)
  : gmap string string :=
  if enabled v then <[key v := value v]> c else c.

Definition matchProject (projects : list Project) (workspacePath : string)
  : option Project :=
  find (fun p => String.eqb (toLowerCase (path p)) (toLowerCase workspacePath))
       projects.

Definition injectFolder (projects : list Project) (c : gmap string string)
    (workspacePath : string) : gmap string string :=
  match matchProject projects workspacePath with
  | Some matchedProject =>
      match activeEnvironment matchedProject with
      | Some activeEnv => fold_left replaceEnabled (variables activeEnv) c
      | None => c
      end
  | None => c
  end.

Definition updateEnvironmentVariables (st : State) : State :=
  match syncMode st with
  | file => set_collection ∅ st
  | terminal =>
      match workspaceFolders st with
      | None => set_collection ∅ st
      | Some folders =>
          let c1 := fold_left (injectFolder (getProjects st)) folders ∅ in
          set_collection (fold_left replaceEnabled (workspaceVars st) c1) st
      end
  end.

(** *** Mode coordinator *)

Definition toggleSyncMode (st : State) : State :=
  let mode := match syncMode st with terminal => file | file => terminal end in
  let st1 := set_syncMode mode st in
  match mode with
  | file =>
      showMessage
        (InformationMessage "Sync Mode: .env File Sync (Backups created)")
        (syncAllActiveProjectsToFile st1)
  | terminal =>
      showMessage
        (InformationMessage
           "Sync Mode: Terminal Injection (Original .env restored)")
        (updateEnvironmentVariables (revertAllActiveProjectsFromFile st1))
  end.

(** *** Workspace overrides *)

Definition addWorkspaceVariable (k v : string) (st : State) : State :=
  let vars := workspaceVars st in
  let vars' :=
    match findVar k vars with
    | Some _ =>
        update_first (fun x => String.eqb (key x) k)
                     (fun x => mkVar (key x) v true) vars
    | None => vars ++ [mkVar k v true]
    end in
  updateEnvironmentVariables (set_workspaceVars vars' st).

(** *** Projects *)

Definition saveProjects (projects : list Project) (st : State) : State :=
  let st1 := set_projects projects st in
  match syncMode st1 with
  | file => syncAllActiveProjectsToFile st1
  | terminal => updateEnvironmentVariables st1
  end.

Definition findProject (projectId : string) (projects : list Project)
  : option Project :=
  find (fun p => String.eqb (id p) projectId) projects.

Definition findEnvironment (envId : string) (project : Project)
  : option Environment :=
  find (fun e => String.eqb (env_id e) envId) (environments project).

Definition changeProject (projectId : string) (g : Project -> Project)
    (projects : list Project) : list Project :=
  update_first (fun p => String.eqb (id p) projectId) g projects.

Definition changeEnvironment (envId : string) (g : Environment -> Environment)
    (project : Project) : Project :=
  mkProject (id project) (name project) (path project)
            (update_first (fun e => String.eqb (env_id e) envId) g
                          (environments project))
            (activeEnvId project).

(** [value.substring(1, value.length - 1)]; on a single character the two
    bounds are swapped and the character is kept. *)
Definition stripEnds (s : string) : string :=
  match s with
  | EmptyString => EmptyString
  | String _ EmptyString => s
  | String _ r => removeLast r
  end.

Definition quotedWith (c : ascii) (s : string) : bool :=
  startsWithChar c s && endsWithChar c s.

(** The closure [parseLine] of [addProject], on the list it pushes to. *)
Definition parseLine (vars : list EnvVariable) (line : string)
  : list EnvVariable :=
  let trimmed := trim line in
  if is_empty trimmed || startsWithChar char_hash trimmed then vars
  else match match_assignment trimmed with
       | Some (k0, v0) =>
           let k := trim k0 in
           let v := trim v0 in
           let v' := if quotedWith char_quote v || quotedWith "'"%char v
                     then stripEnds v else v in
           vars ++ [mkVar k v' true]
       | None => vars
       end.

(** [now] and [now'] are the two readings of the clock that become the
    identifiers of the project and of its imported environment. *)
Definition addProject (now now' : string) (name projectPath : string)
    (envFilePath : option string) (st : State) : State :=
  let projects := getProjects st in
  match find (fun p => String.eqb (path p) projectPath) projects with
  | Some _ =>
      showMessage (ErrorMessage "Project already exists for this path.") st
  | None =>
      let bare := mkProject now name projectPath [] None in
      let '(newProject, st1) :=
        match envFilePath with
        | Some f =>
            if is_empty f then (bare, st)
            else match Fs.readFile f (files st) with
                 | Some text =>
                     let vars := fold_left parseLine (split_lines text) [] in
                     let newEnv := mkEnv now' "Check-in" vars in
                     let note :=
                       if Nat.eqb (length vars) 0 then
                         WarningMessage
                           ("Imported project from " +:+ f +:+
                            " but found no variables. Check file format.")
                       else
                         InformationMessage
                           ("Imported " +:+ pretty (length vars) +:+
                            " variables from " +:+ f) in
                     (mkProject now name projectPath [newEnv] (Some now'),
                      showMessage note st)
                 | None =>
                     (bare,
                      showMessage
                        (ErrorMessage ("Failed to read .env file: " +:+
                                       error_text f)) st)
                 end
        | None => (bare, st)
        end in
      saveProjects (projects ++ [newProject]) st1
  end.

Definition deleteProject (projectId : string) (st : State) : State :=
  saveProjects
    (filter (fun p => negb (String.eqb (id p) projectId)) (getProjects st))
    st.

Definition renameProject (projectId newName : string) (st : State) : State :=
  let projects := getProjects st in
  match findProject projectId projects with
  | Some _ =>
      saveProjects
        (changeProject projectId
           (fun p => mkProject (id p) newName (path p) (environments p)
                               (activeEnvId p))
           projects) st
  | None => st
  end.

Definition addEnvironment (now : string) (projectId envName : string)
    (st : State) : State :=
  let projects := getProjects st in
  match findProject projectId projects with
  | Some _ =>
      saveProjects
        (changeProject projectId
           (fun p => mkProject (id p) (name p) (path p)
                               (environments p ++ [mkEnv now envName []])
                               (activeEnvId p))
           projects) st
  | None => st
  end.

Definition deleteEnvironment (projectId envId : string) (st : State)
  : State :=
  let projects := getProjects st in
  match findProject projectId projects with
  | Some _ =>
      saveProjects
        (changeProject projectId
           (fun p =>
              mkProject (id p) (name p) (path p)
                (filter (fun e => negb (String.eqb (env_id e) envId))
                        (environments p))
                (match activeEnvId p with
                 | Some a => if String.eqb a envId then None else Some a
                 | None => None
                 end))
           projects) st
  | None => st
  end.

Definition renameEnvironment (projectId envId newName : string)
    (st : State) : State :=
  let projects := getProjects st in
  match findProject projectId projects with
  | Some project =>
      match findEnvironment envId project with
      | Some _ =>
          saveProjects
            (changeProject projectId
               (changeEnvironment envId
                  (fun e => mkEnv (env_id e) newName (variables e)))
               projects) st
      | None => st
      end
  | None => st
  end.

Definition setActiveEnvironment (projectId envId : string) (st : State)
  : State :=
  let projects := getProjects st in
  match findProject projectId projects with
  | Some _ =>
      let st1 :=
        saveProjects
          (changeProject projectId
             (fun p => mkProject (id p) (name p) (path p) (environments p)
                                 (Some envId))
             projects) st in
      let modeMsg :=
        match syncMode st1 with
        | file => "Updated .env file"
        | terminal => "Updated Terminal Environment"
        end in
      showMessage
        (InformationMessage
           ("Active environment set to " +:+ envId +:+ ". (" +:+ modeMsg
            +:+ ")")) st1
  | None => st
  end.

Definition addVariable (projectId envId k v : string) (st : State) : State :=
  let projects := getProjects st in
  match findProject projectId projects with
  | Some project =>
      match findEnvironment envId project with
      | Some _ =>
          saveProjects
            (changeProject projectId
               (changeEnvironment envId
                  (fun e => mkEnv (env_id e) (env_name e)
                                  (variables e ++ [mkVar k v true])))
               projects) st
      | None => st
      end
  | None => st
  end.

Definition deleteVariable (projectId envId k : string) (st : State)
  : State :=
  let projects := getProjects st in
  match findProject projectId projects with
  | Some project =>
      match findEnvironment envId project with
      | Some _ =>
          saveProjects
            (changeProject projectId
               (changeEnvironment envId
                  (fun e =>
                     mkEnv (env_id e) (env_name e)
                       (filter (fun x => negb (String.eqb (key x) k))
                               (variables e))))
               projects) st
      | None => st
      end
  | None => st
  end.

Definition editVariable (projectId envId originalKey newKey newValue : string)
    (st : State) : State :=
  let projects := getProjects st in
  match findProject projectId projects with
  | Some project =>
      match findEnvironment envId project with
      | Some env =>
          match findVar originalKey (variables env) with
          | Some _ =>
              saveProjects
                (changeProject projectId
                   (changeEnvironment envId
                      (fun e =>
                         mkEnv (env_id e) (env_name e)
                           (update_first
                              (fun x => String.eqb (key x) originalKey)
                              (fun x => mkVar newKey newValue (enabled x))
                              (variables e))))
                   projects) st
          | None => st
          end
      | None => st
      end
  | None => st
  end.


(** ** Vocabulary of the properties *)

Section Vocabulary.

Implicit Types (vars envVars : list EnvVariable) (line : string).

(** The keys recorded in [processedKeys] by the loop over the lines. *)
Definition processedOf envVars (lines : list string) (pk : gset string)
  : gset string :=
  fold_left (fun s line =>
               match snd (mergeLine envVars line) with
               | Some k => {[ k ]} ∪ s
               | None => s
               end) lines pk.


(** The value of the last enabled variable of key [k] in [vars]. *)
Fixpoint lastEnabled (k : string) vars : option string :=
  match vars with
  | [] => None
  | v :: t =>
      match lastEnabled k t with
      | Some x => Some x
      | None => if enabled v && String.eqb (key v) k then Some (value v) else None
      end
  end.

(** A variable list, an environment, a project and a state without their
    disabled variables. *)
Definition enabledOnly vars : list EnvVariable :=
  filter (fun v => enabled v = true) vars.

Definition enabledEnvironment (e : Environment) : Environment :=
  mkEnv (env_id e) (env_name e) (enabledOnly (variables e)).

Definition enabledProject (p : Project) : Project :=
  mkProject (id p) (name p) (path p) (map enabledEnvironment (environments p))
            (activeEnvId p).

Definition enabledState (st : State) : State :=
  mkState (syncMode st) (option_map (map enabledProject) (projectsCache st))
          (secretProjects st) (storedSyncMode st)
          (enabledOnly (workspaceVars st)) (workspaceFolders st)
          (collection st) (files st) (messages st).

(** The active pointer of a project is either unset or the identifier of
    one of its environments. *)
Definition activeEnvId_valid (p : Project) : Prop :=
  match activeEnvId p with
  | Some a => exists e, In e (environments p) /\ env_id e = a
  | None => True
  end.

(** The content [c] a target had before the first managed write is still
    there for a restore: either no backup was taken and the target holds
    [c], or the backup holds [c] and the target exists. *)
Definition original_kept (p : Project) (c : string) (fs : gmap string string)
  : Prop :=
  (fs !! bakPath p = None /\ fs !! envPath p = Some c) \/
  (fs !! bakPath p = Some c /\ is_Some (fs !! envPath p)).

(** The loop of [syncAllActiveProjectsToFile] and that of
    [revertAllActiveProjectsFromFile], on any list of projects. *)
Definition writeAll (ps : list Project) (st : State) : State :=
  fold_left (fun s project =>
               if truthy (activeEnvId project) then writeEnvFile project s
               else s) ps st.

Definition restoreAll (ps : list Project) (st : State) : State :=
  fold_left (fun s project => restoreEnvFile project s) ps st.

End Vocabulary.

(** ** The public operations as data *)

Section Operations.

(** One call of a public method of the class that changes state, with its
    arguments; the two clock readings of [addProject] and the one of
    [addEnvironment] come with the call. *)
Inductive Operation :=
  | AddProject (now now' projectName projectPath : string)
               (envFilePath : option string)
  | DeleteProject (projectId : string)
  | RenameProject (projectId newName : string)
  | AddEnvironment (now projectId envName : string)
  | DeleteEnvironment (projectId envId : string)
  | RenameEnvironment (projectId envId newName : string)
  | SetActiveEnvironment (projectId envId : string)
  | AddVariable (projectId envId k v : string)
  | DeleteVariable (projectId envId k : string)
  | EditVariable (projectId envId originalKey newKey newValue : string)
  | AddWorkspaceVariable (k v : string)
  | ToggleSyncMode
  | UpdateEnvironmentVariables.

Definition run (op : Operation) (st : State) : State :=
  match op with
  | AddProject now now' projectName projectPath envFilePath =>
      addProject now now' projectName projectPath envFilePath st
  | DeleteProject projectId => deleteProject projectId st
  | RenameProject projectId newName => renameProject projectId newName st
  | AddEnvironment now projectId envName =>
      addEnvironment now projectId envName st
  | DeleteEnvironment projectId envId => deleteEnvironment projectId envId st
  | RenameEnvironment projectId envId newName =>
      renameEnvironment projectId envId newName st
  | SetActiveEnvironment projectId envId =>
      setActiveEnvironment projectId envId st
  | AddVariable projectId envId k v => addVariable projectId envId k v st
  | DeleteVariable projectId envId k => deleteVariable projectId envId k st
  | EditVariable projectId envId originalKey newKey newValue =>
      editVariable projectId envId originalKey newKey newValue st
  | AddWorkspaceVariable k v => addWorkspaceVariable k v st
  | ToggleSyncMode => toggleSyncMode st
  | UpdateEnvironmentVariables => updateEnvironmentVariables st
  end.

(** A sequence of calls, first call first. *)
Definition runAll (ops : list Operation) (st : State) : State :=
  fold_left (fun s op => run op s) ops st.

Definition is_toggle (op : Operation) : bool :=
  match op with ToggleSyncMode => true | _ => false end.

(** What a call other than a toggle comes down to, apart from the messages
    it shows: nothing, a save of some projects, new workspace overrides
    followed by a fresh terminal projection, or that projection alone. *)
Inductive Effect :=
  | Nothing
  | Saves (projects : list Project)
  | Overrides (vars : list EnvVariable)
  | Projects.

Definition applyEffect (e : Effect) (st : State) : State :=
  match e with
  | Nothing => st
  | Saves projects => saveProjects projects st
  | Overrides vars => updateEnvironmentVariables (set_workspaceVars vars st)
  | Projects => updateEnvironmentVariables st
  end.

Definition showMessages (ms : list Message) (st : State) : State :=
  fold_left (fun s m => showMessage m s) ms st.

(** The cache and the secret storage hold the same projects. *)
Definition persisted (st : State) : Prop :=
  secretProjects st = projectsCache st.

(** Every active pointer of the store is unset or names an environment of
    its project. *)
Definition pointers_valid (st : State) : Prop :=
  forall p, In p (getProjects st) -> activeEnvId_valid p.

(** A call that does not hand [setActiveEnvironment] an environment its
    project lacks. *)
Definition activates_existing (op : Operation) (st : State) : Prop :=
  match op with
  | SetActiveEnvironment projectId envId =>
      forall p, findProject projectId (getProjects st) = Some p ->
                is_Some (findEnvironment envId p)
  | _ => True
  end.

End Operations.

(** ** Resolution, as a formula *)

Section Resolution.

(** The value a workspace folder gives a key: that of the last enabled
    variable of that key in the active environment of the first project
    whose path is the folder, letter case aside. *)
Definition folderValue (ps : list Project) (k workspacePath : string)
  : option string :=
  match matchProject ps workspacePath with
  | Some p =>
      match activeEnvironment p with
      | Some env => lastEnabled k (variables env)
      | None => None
      end
  | None => None
  end.

(** The value of a key: its last enabled workspace override or, failing
    that, the value of the last folder that gives it one. *)
Definition resolve (st : State) (folders : list string) (k : string)
  : option string :=
  match lastEnabled k (workspaceVars st) with
  | Some x => Some x
  | None =>
      fold_left (fun acc w =>
                   match folderValue (getProjects st) k w with
                   | Some x => Some x
                   | None => acc
                   end) folders None
  end.

End Resolution.

(** ** Import, as a function of the text *)

Section FileImport.

(** The variables [addProject] reads from the text of a file. *)
Definition importVariables (text : string) : list EnvVariable :=
  fold_left parseLine (split_lines text) [].

Fixpoint contains (c : ascii) (s : string) : bool :=
  match s with
  | EmptyString => false
  | String d r => Ascii.eqb d c || contains c r
  end.

(** A key that the file dialect can carry: not empty, no white space at
    either end, no [=], and no [#] in front. *)
Definition key_ok (k : string) : bool :=
  negb (is_empty k) && String.eqb (trim k) k && negb (contains char_eq k)
  && negb (startsWithChar char_hash k).

End FileImport.

(** Two projects that the projections cannot tell apart: the same path,
    the same test on the active pointer, and the same variables in the
    active environment. *)
Definition same_projection (a b : Project) : Prop :=
  path a = path b /\
  truthy (activeEnvId a) = truthy (activeEnvId b) /\
  option_map variables (activeEnvironment a) =
    option_map variables (activeEnvironment b).

(** ** The tree view ([src/EnvTreeDataProvider.ts]) and its commands *)

Section TreeView.

Inductive CollapsibleState := StateNone | StateCollapsed | StateExpanded.

Inductive NodeType := ProjectNode | EnvironmentNode | VariableNode.

(** The [data] of a node: a project, the marker of the workspace root, an
    environment with its [isActive] flag, or a variable with the [envId]
    it may carry. *)
Inductive NodeData :=
  | ProjectData (p : Project)
  | WorkspaceMarker
  | EnvironmentData (e : Environment) (isActive : bool)
  | VariableData (v : EnvVariable) (envId : option string).

Record EnvNode := mkNode {
  label : string;
  collapsibleState : CollapsibleState;
  nodeType : NodeType;
  parentId : option string;
  contextValue : string;
  data : option NodeData;
  description : option string;
  iconPath : string }.

Definition typeName (t : NodeType) : string :=
  match t with
  | ProjectNode => "project"
  | EnvironmentNode => "environment"
  | VariableNode => "variable"
  end.

(** [data?.isActive], as a truth value. *)
Definition dataIsActive (d : option NodeData) : bool :=
  match d with
  | Some (EnvironmentData _ isActive) => isActive
  | _ => false
  end.

(** The constructor of [EnvNode]; [contextValue] defaults to the type. *)
Definition newEnvNode (lbl : string) (cs : CollapsibleState) (t : NodeType)
    (parent : option string) (context : option string)
    (d : option NodeData) : EnvNode :=
  let ctx := match context with Some c => c | None => typeName t end in
  match t with
  | ProjectNode => mkNode lbl cs t parent ctx d None "project"
  | EnvironmentNode =>
      if dataIsActive d
      then mkNode lbl cs t parent ctx d (Some "(Active)") "check"
      else mkNode lbl cs t parent ctx d None "server-environment"
  | VariableNode => mkNode lbl cs t parent ctx d None "symbol-variable"
  end.

Definition projectNode (p : Project) : EnvNode :=
  newEnvNode (name p) StateCollapsed ProjectNode None (Some "project")
             (Some (ProjectData p)).

Definition workspaceNode (workspaceVars : list EnvVariable) : EnvNode :=
  let n := newEnvNode "Workspace Overrides" StateCollapsed ProjectNode None
                      (Some "workspace-root") (Some WorkspaceMarker) in
  mkNode (label n) (collapsibleState n) (nodeType n) (parentId n)
         (contextValue n) (data n)
         (Some (if Nat.ltb 0 (length workspaceVars)
                then "(" +:+ pretty (length workspaceVars) +:+ ")"
                else "(Empty)"))
         "wrench".

Definition environmentNode (p : Project) (e : Environment) : EnvNode :=
  newEnvNode (env_name e) StateCollapsed EnvironmentNode (Some (id p))
             (Some "environment")
             (Some (EnvironmentData e
                      (match activeEnvId p with
                       | Some a => String.eqb a (env_id e)
                       | None => false
                       end))).

Definition variableNode (parent : option string) (envId : option string)
    (v : EnvVariable) : EnvNode :=
  newEnvNode (key v +:+ "=" +:+ value v) StateNone VariableNode parent
             (Some "variable") (Some (VariableData v envId)).

(** [getChildren]; [None] is the call without element.  A node whose data
    does not fit its type, which the provider never makes, has no
    children here. *)
Definition getChildren (element : option EnvNode) (st : State)
  : list EnvNode :=
  match element with
  | None =>
      map projectNode (getProjects st) ++ [workspaceNode (workspaceVars st)]
  | Some el =>
      if String.eqb (contextValue el) "workspace-root" then
        map (variableNode (Some "workspace-root") None) (workspaceVars st)
      else
        match nodeType el, data el with
        | ProjectNode, Some (ProjectData p) =>
            map (environmentNode p) (environments p)
        | EnvironmentNode, Some (EnvironmentData e _) =>
            map (variableNode (parentId el) (Some (env_id e))) (variables e)
        | _, _ => []
        end
  end.

(** The guard of the commands on a node: a node of the type with a truthy
    [parentId]. *)
Definition commandTarget (t : NodeType) (node : option EnvNode)
  : option (EnvNode * string) :=
  match node with
  | Some n =>
      match nodeType n, t, parentId n with
      | EnvironmentNode, EnvironmentNode, Some parent
      | VariableNode, VariableNode, Some parent =>
          if is_empty parent then None else Some (n, parent)
      | _, _, _ => None
      end
  | None => None
  end.

(** The command [env-manager.setActive] of the extension. *)
Definition setActiveCommand (node : option EnvNode) (st : State) : State :=
  match commandTarget EnvironmentNode node with
  | Some (n, parent) =>
      match data n with
      | Some (EnvironmentData e _) =>
          updateEnvironmentVariables
            (setActiveEnvironment parent (env_id e) st)
      | _ => st
      end
  | None => st
  end.

(** The command [env-manager.editVar]; [newKey] and [newValue] are what the
    two input boxes return, [None] when dismissed.  A variable without
    [envId] makes [editVariable] look for an environment whose identifier
    is [undefined], which none is. *)
Definition editVarCommand (node : option EnvNode)
    (newKey newValue : option string) (st : State) : State :=
  match commandTarget VariableNode node with
  | Some (n, parent) =>
      match data n, newKey, newValue with
      | Some (VariableData v envId), Some k, Some val =>
          if is_empty k then st
          else
            updateEnvironmentVariables
              (match envId with
               | Some e => editVariable parent e (key v) k val st
               | None => st
               end)
      | _, _, _ => st
      end
  | None => st
  end.

(** The command [env-manager.deleteVar]; [answer] is the button of the
    confirmation. *)
Definition deleteVarCommand (node : option EnvNode) (answer : option string)
    (st : State) : State :=
  match commandTarget VariableNode node with
  | Some (n, parent) =>
      match data n, answer with
      | Some (VariableData v envId), Some button =>
          if String.eqb button "Delete" then
            updateEnvironmentVariables
              (match envId with
               | Some e => deleteVariable parent e (key v) st
               | None => st
               end)
          else st
      | _, _ => st
      end
  | None => st
  end.

End TreeView.

(** ** Vocabulary of the tree view *)

Section TreeVocabulary.

(** The node is shown as the active one. *)
Definition shownActive (n : EnvNode) : bool :=
  match description n with
  | Some d => String.eqb d "(Active)"
  | None => false
  end.

(** The data of a node fits its type, the way [getChildren] reads it. *)
Definition fits (n : EnvNode) : Prop :=
  match nodeType n, data n with
  | ProjectNode, Some (ProjectData _) => contextValue n = "project"
  | ProjectNode, Some WorkspaceMarker => contextValue n = "workspace-root"
  | EnvironmentNode, Some (EnvironmentData _ _) =>
      contextValue n = "environment"
  | VariableNode, Some (VariableData _ _) => contextValue n = "variable"
  | _, _ => False
  end.

End TreeVocabulary.

(** ** Properties of the merge *)

Section Merge.

Implicit Types (vars envVars : list EnvVariable) (line : string).

Lemma fold_mergeStep envVars lines acc pk :
  fold_left (mergeStep envVars) lines (acc, pk) =
  (acc ++ map (fun l => fst (mergeLine envVars l)) lines,
   processedOf envVars lines pk).
Proof.
  revert acc pk. induction lines as [|l lines IH]; intros acc pk.
  - simpl. by rewrite app_nil_r.
  - cbn [fold_left map processedOf].
    replace (mergeStep envVars (acc, pk) l) with
      (acc ++ [fst (mergeLine envVars l)],
       match snd (mergeLine envVars l) with
       | Some k => {[ k ]} ∪ pk
       | None => pk
       end)
      by (unfold mergeStep; destruct (mergeLine envVars l) as [out [k|]];
          reflexivity).
    rewrite IH, <- app_assoc. reflexivity.
Qed.





End Merge.

(** ** Paths of the target file and of its backup *)

Lemma list_ascii_of_string_append (a b : string) :
list_ascii_of_string (a +:+ b) =
list_ascii_of_string a ++ list_ascii_of_string b.
Proof. induction a as [|c a IH]; simpl; [reflexivity|]. by rewrite IH. Qed.

Lemma list_ascii_of_string_inj (a b : string) :
list_ascii_of_string a = list_ascii_of_string b -> a = b.
Proof.
intros H. rewrite <- (string_of_list_ascii_of_string a),
  <- (string_of_list_ascii_of_string b). by rewrite H.
Qed.

Lemma append_inv_tail (a b s : string) : a +:+ s = b +:+ s -> a = b.
Proof.
intros H. apply list_ascii_of_string_inj.
apply (f_equal list_ascii_of_string) in H.
rewrite !list_ascii_of_string_append in H.
by apply app_inv_tail in H.
Qed.

Lemma lastChar_append (a : string) (c : ascii) (b : string) :
lastChar (a +:+ String c b) = lastChar (String c b).
Proof.
induction a as [|d a IH]; [reflexivity|].
change (String d a +:+ String c b) with (String d (a +:+ String c b)).
cbn [lastChar]. destruct (a +:+ String c b) eqn:E.
- destruct a; discriminate E.
- exact IH.
Qed.

Section Paths.

Implicit Types p q : Project.

Lemma envPath_bakPath_ne p q : envPath p <> bakPath q.
Proof.
  unfold envPath, bakPath, path_join. intros H.
  apply (f_equal lastChar) in H. rewrite !lastChar_append in H.
  discriminate H.
Qed.

Lemma envPath_eq_bakPath_eq p q :
  envPath p = envPath q <-> bakPath p = bakPath q.
Proof.
  unfold envPath, bakPath, path_join. split; intros H;
    apply append_inv_tail in H; by rewrite H.
Qed.

End Paths.

(** ** File projection: what [writeEnvFile] writes *)

Section FileProjection.

Implicit Types (project : Project) (st : State) (fs : gmap string string).

Lemma readAndBackup_content project fs :
  fst (readAndBackup project fs) =
  match fs !! envPath project with
  | Some content => content
  | None => EmptyString
  end.
Proof.
  unfold readAndBackup, Fs.readFile, Fs.copy.
  destruct (fs !! envPath project) as [c|]; [|reflexivity].
  destruct (Fs.stat (bakPath project) fs); reflexivity.
Qed.

Lemma writeEnvFile_content project env st :
  activeEnvironment project = Some env ->
  files (writeEnvFile project st) !! envPath project =
  Some (mergeContent (variables env)
          (match files st !! envPath project with
           | Some content => content
           | None => EmptyString
           end)).
Proof.
  intros Hactive. unfold writeEnvFile. rewrite Hactive.
  rewrite <- readAndBackup_content.
  destruct (readAndBackup project (files st)) as [c fs1]. simpl.
  unfold Fs.writeFile. apply lookup_insert_eq.
Qed.

End FileProjection.

Section FileMerge.

Implicit Types (project : Project) (st : State).


(** C5.  On the empty content, which is also what an absent target is read
    as, two enabled variables [A] of value [1] and [B] of value [2] do not
    give the two assignment lines alone: the empty text splits into one
    empty line, which is kept, so the content written starts with a line
    feed. *)
Theorem writeEnvFile_empty_target_leading_blank_line :
  forall project env st,
    activeEnvironment project = Some env ->
    variables env = [mkVar "A" "1" true; mkVar "B" "2" true] ->
    (files st !! envPath project = None \/
     files st !! envPath project = Some EmptyString) ->
    let a := "A=" +:+ str1 char_quote +:+ "1" +:+ str1 char_quote in
    let b := "B=" +:+ str1 char_quote +:+ "2" +:+ str1 char_quote in
    files (writeEnvFile project st) !! envPath project =
      Some (join (str1 char_nl) [EmptyString; a; b]) /\
    files (writeEnvFile project st) !! envPath project <>
      Some (join (str1 char_nl) [a; b]).
Proof.
  intros project env st Hactive Hvars Hfile a b.
  assert (files (writeEnvFile project st) !! envPath project =
          Some (join (str1 char_nl) [EmptyString; a; b])) as ->.
  { rewrite (writeEnvFile_content _ _ _ Hactive), Hvars.
    destruct Hfile as [-> | ->]; f_equal. }
  split; [reflexivity | discriminate].
Qed.

End FileMerge.

(** ** Terminal projection *)

Section TerminalProjection.

Implicit Types (st : State) (c : gmap string string) (vars : list EnvVariable).

Lemma replaceEnabled_lookup c v k :
  replaceEnabled c v !! k =
  if enabled v && String.eqb (key v) k then Some (value v) else c !! k.
Proof.
  unfold replaceEnabled. destruct (enabled v); simpl; [|reflexivity].
  destruct (String.eqb_spec (key v) k) as [->|Hne].
  - apply lookup_insert_eq.
  - by apply lookup_insert_ne.
Qed.

Lemma fold_replaceEnabled_lookup vars c k :
  fold_left replaceEnabled vars c !! k =
  match lastEnabled k vars with
  | Some x => Some x
  | None => c !! k
  end.
Proof.
  revert c. induction vars as [|v t IH]; intros c; [reflexivity|].
  cbn [fold_left lastEnabled]. rewrite IH, replaceEnabled_lookup.
  destruct (lastEnabled k t); [reflexivity|].
  destruct (enabled v && String.eqb (key v) k); reflexivity.
Qed.

Lemma lastEnabled_Some_In k vars x :
  lastEnabled k vars = Some x ->
  exists v, In v vars /\ enabled v = true /\ key v = k /\ value v = x.
Proof.
  induction vars as [|v t IH]; [discriminate|]. cbn [lastEnabled].
  destruct (lastEnabled k t) as [y|].
  - intros [= <-]. destruct IH as (w & Hw & H); [reflexivity|].
    exists w. split; [by right|exact H].
  - destruct (enabled v) eqn:Hen; [|discriminate]. simpl.
    destruct (String.eqb_spec (key v) k) as [Hk|]; [|discriminate].
    intros [= <-]. exists v. split; [by left|]. by repeat split.
Qed.

Lemma lastEnabled_agreed k vars x :
  (exists v, In v vars /\ enabled v = true /\ key v = k) ->
  (forall v, In v vars -> enabled v = true -> key v = k -> value v = x) ->
  lastEnabled k vars = Some x.
Proof.
  intros (v & Hin & Hen & Hk) Hall.
  destruct (lastEnabled k vars) as [y|] eqn:E.
  - destruct (lastEnabled_Some_In _ _ _ E) as (w & Hw & Hwen & Hwk & <-).
    f_equal. by apply Hall.
  - exfalso. clear Hall. induction vars as [|w t IH]; [destruct Hin|].
    cbn [lastEnabled] in E. destruct (lastEnabled k t); [discriminate|].
    destruct Hin as [->|Hin]; [|by apply IH].
    rewrite Hen in E. simpl in E.
    destruct (String.eqb_spec (key v) k); [discriminate|contradiction].
Qed.

Lemma collection_updateEnvironmentVariables st folders :
  syncMode st = terminal ->
  workspaceFolders st = Some folders ->
  collection (updateEnvironmentVariables st) =
  fold_left replaceEnabled (workspaceVars st)
    (fold_left (injectFolder (getProjects st)) folders ∅).
Proof.
  intros Hm Hf. unfold updateEnvironmentVariables. by rewrite Hm, Hf.
Qed.

Lemma unique_keys_agree vars a b :
  NoDup (map key vars) -> In a vars -> In b vars -> key a = key b -> a = b.
Proof.
  induction vars as [|v t IH]; [intros _ []|].
  cbn [map]. rewrite NoDup_cons. intros [Hnot Hnd] [->|Ha] [->|Hb] Hk.
  - reflexivity.
  - exfalso. apply Hnot. rewrite Hk. apply list_elem_of_In. by apply in_map.
  - exfalso. apply Hnot. rewrite <- Hk. apply list_elem_of_In. by apply in_map.
  - by apply IH.
Qed.

Lemma map_key_update_first (f : EnvVariable -> bool) g vars :
  (forall x, key (g x) = key x) ->
  map key (update_first f g vars) = map key vars.
Proof.
  intros H. induction vars as [|v t IH]; [reflexivity|]. simpl.
  destruct (f v); simpl; [by rewrite H|by rewrite IH].
Qed.

(** The upsert of [addWorkspaceVariable] keeps the keys of the overrides
    distinct. *)
Lemma addWorkspaceVariable_keeps_keys_unique k v st :
  NoDup (map key (workspaceVars st)) ->
  NoDup (map key (workspaceVars (addWorkspaceVariable k v st))).
Proof.
  intros Hnd.
  assert (workspaceVars (addWorkspaceVariable k v st) =
          match findVar k (workspaceVars st) with
          | Some _ =>
              update_first (fun x => String.eqb (key x) k)
                           (fun x => mkVar (key x) v true) (workspaceVars st)
          | None => workspaceVars st ++ [mkVar k v true]
          end) as ->.
  { unfold addWorkspaceVariable, updateEnvironmentVariables. simpl.
    destruct (syncMode st); [|reflexivity].
    by destruct (workspaceFolders st). }
  destruct (findVar k (workspaceVars st)) as [x|] eqn:E.
  - by rewrite map_key_update_first.
  - rewrite map_app. simpl. apply NoDup_app. split; [exact Hnd|].
    split; [|apply NoDup_singleton].
    intros y Hy Hy'. apply list_elem_of_In in Hy.
    apply list_elem_of_In in Hy' as [<-|[]].
    apply in_map_iff in Hy as (w & Hw & Hin).
    pose proof (find_none _ _ E w Hin) as Hf. simpl in Hf.
    rewrite Hw, String.eqb_refl in Hf. discriminate Hf.
Qed.

(** C1.  In terminal mode, when a project that matches an open workspace
    folder has an enabled variable [K] of value [V1] in its active
    environment and the workspace overrides, which are keyed by their key,
    hold an enabled variable [K] of value [V2], the collection maps [K] to
    [V2]. *)
Theorem workspace_override_wins :
  forall st folders workspacePath project activeEnv K V1 V2,
    syncMode st = terminal ->
    workspaceFolders st = Some folders ->
    In workspacePath folders ->
    matchProject (getProjects st) workspacePath = Some project ->
    activeEnvironment project = Some activeEnv ->
    In (mkVar K V1 true) (variables activeEnv) ->
    NoDup (map key (workspaceVars st)) ->
    In (mkVar K V2 true) (workspaceVars st) ->
    collection (updateEnvironmentVariables st) !! K = Some V2.
Proof.
  intros st folders w project activeEnv K V1 V2 Hm Hf _ _ _ _ Hnd Hin.
  rewrite (collection_updateEnvironmentVariables _ _ Hm Hf).
  rewrite fold_replaceEnabled_lookup.
  rewrite (lastEnabled_agreed K (workspaceVars st) V2); [reflexivity| |].
  - exists (mkVar K V2 true). by repeat split.
  - intros v Hv _ Hk.
    by rewrite (unique_keys_agree _ v (mkVar K V2 true) Hnd Hv Hin Hk).
Qed.

End TerminalProjection.

(** ** Disabled variables take no part in a projection *)

Section DisabledVariables.

Implicit Types (st : State) (c : gmap string string) (vars : list EnvVariable)
  (p : Project).

Lemma In_enabledOnly vars v :
  In v (enabledOnly vars) <-> In v vars /\ enabled v = true.
Proof.
  unfold enabledOnly. rewrite <- !list_elem_of_In, list_elem_of_filter. tauto.
Qed.

Lemma enabledOnly_idemp vars : enabledOnly (enabledOnly vars) = enabledOnly vars.
Proof.
  unfold enabledOnly. induction vars as [|v t IH]; [reflexivity|].
  rewrite filter_cons. case_decide as Hen; [|exact IH].
  rewrite filter_cons_True by exact Hen. by rewrite IH.
Qed.

Lemma fold_replaceEnabled_enabledOnly vars c :
  fold_left replaceEnabled (enabledOnly vars) c = fold_left replaceEnabled vars c.
Proof.
  unfold enabledOnly. revert c. induction vars as [|v t IH]; intros c;
    [reflexivity|].
  rewrite filter_cons. cbn [fold_left]. unfold replaceEnabled at 3.
  case_decide as Hen.
  - cbn [fold_left]. unfold replaceEnabled at 2. rewrite Hen. apply IH.
  - destruct (enabled v); [congruence|]. apply IH.
Qed.

Lemma find_map_same {A : Type} (f : A -> bool) (g : A -> A) (l : list A) :
  (forall x, f (g x) = f x) ->
  find f (map g l) = option_map g (find f l).
Proof.
  intros H. induction l as [|x t IH]; [reflexivity|]. simpl.
  rewrite H. destruct (f x); [reflexivity|exact IH].
Qed.

Lemma activeEnvironment_enabledProject p :
  activeEnvironment (enabledProject p) =
  option_map enabledEnvironment (activeEnvironment p).
Proof.
  unfold activeEnvironment. simpl. destruct (activeEnvId p) as [a|];
    [|reflexivity].
  destruct (is_empty a); [reflexivity|]. by apply find_map_same.
Qed.

Lemma injectFolder_enabledProject (ps : list Project) c w :
  injectFolder (map enabledProject ps) c w = injectFolder ps c w.
Proof.
  unfold injectFolder, matchProject.
  rewrite find_map_same by reflexivity.
  destruct (find _ ps) as [q|]; [|reflexivity]. simpl.
  rewrite activeEnvironment_enabledProject.
  destruct (activeEnvironment q) as [e|]; [|reflexivity]. simpl.
  apply fold_replaceEnabled_enabledOnly.
Qed.

Lemma fold_injectFolder_enabledProject (ps : list Project) folders c :
  fold_left (injectFolder (map enabledProject ps)) folders c =
  fold_left (injectFolder ps) folders c.
Proof.
  revert c. induction folders as [|w t IH]; intros c; [reflexivity|].
  cbn [fold_left]. by rewrite injectFolder_enabledProject, IH.
Qed.

Lemma collection_enabledState st :
  collection (updateEnvironmentVariables (enabledState st)) =
  collection (updateEnvironmentVariables st).
Proof.
  unfold updateEnvironmentVariables, getProjects. simpl.
  destruct (syncMode st); [|reflexivity].
  destruct (workspaceFolders st) as [folders|]; [|reflexivity]. simpl.
  rewrite fold_replaceEnabled_enabledOnly.
  destruct (projectsCache st) as [ps|]; simpl; [|reflexivity].
  by rewrite fold_injectFolder_enabledProject.
Qed.

Lemma mergeContent_enabledOnly vars content :
  mergeContent (enabledOnly vars) content = mergeContent vars content.
Proof.
  unfold mergeContent, mergeLines.
  change (filter (fun v => enabled v = true) (enabledOnly vars))
    with (enabledOnly (enabledOnly vars)).
  by rewrite enabledOnly_idemp.
Qed.

Lemma writeEnvFile_enabledProject p st :
  writeEnvFile (enabledProject p) st = writeEnvFile p st.
Proof.
  unfold writeEnvFile. rewrite activeEnvironment_enabledProject.
  destruct (activeEnvironment p) as [e|]; [|reflexivity]. simpl.
  change (readAndBackup (enabledProject p) (files st))
    with (readAndBackup p (files st)).
  destruct (readAndBackup p (files st)) as [content fs1].
  by rewrite mergeContent_enabledOnly.
Qed.

(** Where an entry of the collection comes from. *)
Lemma fold_replaceEnabled_origin vars c k x :
  fold_left replaceEnabled vars c !! k = Some x ->
  c !! k = Some x \/
  exists v, In v vars /\ enabled v = true /\ key v = k /\ value v = x.
Proof.
  rewrite fold_replaceEnabled_lookup.
  destruct (lastEnabled k vars) as [y|] eqn:E; [|by left].
  intros [= <-]. right. by apply lastEnabled_Some_In.
Qed.

Lemma fold_injectFolder_origin (ps : list Project) folders c k x :
  fold_left (injectFolder ps) folders c !! k = Some x ->
  c !! k = Some x \/
  exists p env v, In p ps /\ activeEnvironment p = Some env /\
    In v (variables env) /\ enabled v = true /\ key v = k /\ value v = x.
Proof.
  revert c. induction folders as [|w t IH]; intros c; [by left|].
  cbn [fold_left]. intros H. destruct (IH _ H) as [Hc|Hex]; [|by right].
  unfold injectFolder in Hc.
  destruct (matchProject ps w) as [q|] eqn:Hq; [|by left].
  destruct (activeEnvironment q) as [e|] eqn:He; [|by left].
  destruct (fold_replaceEnabled_origin _ _ _ _ Hc) as [?|(v & Hv & Hyp)];
    [by left|].
  right. exists q, e, v. apply find_some in Hq as [Hq _].
  destruct Hyp as (? & ? & ?). by repeat split.
Qed.

(** How a line written by the merge came about. *)
Lemma mergeLine_origin envVars line :
  fst (mergeLine envVars line) = line \/
  exists v, In v envVars /\
    fst (mergeLine envVars line) = assignment_line (key v) (value v).
Proof.
  unfold mergeLine. destruct (match_assignment (trim line)) as [[k0 v0]|];
    [|by left].
  destruct (negb _); [|by left].
  destruct (findVar (trim k0) envVars) as [mv|] eqn:E; [|by left].
  right. exists mv. apply find_some in E as [Hin Hk].
  apply String.eqb_eq in Hk. simpl. by rewrite Hk.
Qed.

Lemma fold_appendStep_origin pk envVars acc line :
  In line (fold_left (appendStep pk) envVars acc) ->
  In line acc \/
  exists v, In v envVars /\ line = assignment_line (key v) (value v).
Proof.
  revert acc. induction envVars as [|v t IH]; intros acc; [by left|].
  cbn [fold_left]. intros H. destruct (IH _ H) as [Hacc|(w & Hw & Hl)].
  - unfold appendStep in Hacc. case_bool_decide; [by left|].
    apply in_app_or in Hacc as [?|[<-|[]]]; [by left|].
    right. exists v. split; [by left|reflexivity].
  - right. exists w. split; [by right|exact Hl].
Qed.

Lemma mergeLines_origin vars content line :
  In line (mergeLines vars content) ->
  In line (split_lines content) \/
  exists v, In v vars /\ enabled v = true /\
    line = assignment_line (key v) (value v).
Proof.
  unfold mergeLines. rewrite fold_mergeStep. simpl. intros H.
  apply fold_appendStep_origin in H as [H|(v & Hv & Hl)].
  - apply in_map_iff in H as (l & Hl & Hin).
    destruct (mergeLine_origin (enabledOnly vars) l) as [E|(v & Hv & E)].
    + left. unfold enabledOnly in E. by rewrite <- Hl, E.
    + right. exists v. apply In_enabledOnly in Hv as [? ?].
      unfold enabledOnly in E. by rewrite <- Hl, E.
  - right. exists v. apply In_enabledOnly in Hv as [? ?]. done.
Qed.

(** C8.  A disabled variable takes no part in either projection.  The
    collection computed by [updateEnvironmentVariables] and the state left by
    [writeEnvFile] are the same as on the data without its disabled
    variables.  Every entry of the collection is the key and value of an
    enabled variable, of the workspace overrides or of the active environment
    of a project; every line [writeEnvFile] writes is a line it read or the
    assignment line of an enabled variable of the active environment. *)
Theorem disabled_variables_not_projected :
  (forall st,
      collection (updateEnvironmentVariables (enabledState st)) =
      collection (updateEnvironmentVariables st)) /\
  (forall st k x,
      collection (updateEnvironmentVariables st) !! k = Some x ->
      exists v, enabled v = true /\ key v = k /\ value v = x /\
        (In v (workspaceVars st) \/
         exists p env, In p (getProjects st) /\
           activeEnvironment p = Some env /\ In v (variables env))) /\
  (forall p st, writeEnvFile (enabledProject p) st = writeEnvFile p st) /\
  (forall p env st,
      activeEnvironment p = Some env ->
      exists newLines,
        files (writeEnvFile p st) !! envPath p =
          Some (join (str1 char_nl) newLines) /\
        forall line, In line newLines ->
          In line (split_lines (match files st !! envPath p with
                                | Some content => content
                                | None => EmptyString
                                end)) \/
          exists v, In v (variables env) /\ enabled v = true /\
            line = assignment_line (key v) (value v)).
Proof.
  split; [exact collection_enabledState|].
  split; [|split; [exact writeEnvFile_enabledProject|]].
  - intros st k x. unfold updateEnvironmentVariables.
    destruct (syncMode st); [|simpl; by rewrite lookup_empty].
    destruct (workspaceFolders st) as [folders|];
      [|simpl; by rewrite lookup_empty].
    simpl. intros H.
    apply fold_replaceEnabled_origin in H as [H|(v & Hv & Hen & Hk & Hx)].
    + apply fold_injectFolder_origin in H as [H|H].
      * by rewrite lookup_empty in H.
      * destruct H as (p & env & v & Hp & He & Hv & Hen & Hk & Hx).
        exists v. repeat split; try done. right. by exists p, env.
    + exists v. repeat split; try done. by left.
  - intros p env st Hactive.
    exists (mergeLines (variables env)
              (match files st !! envPath p with
               | Some content => content
               | None => EmptyString
               end)).
    split; [by rewrite (writeEnvFile_content _ _ _ Hactive)|].
    intros line. apply mergeLines_origin.
Qed.

End DisabledVariables.

(** ** Backup and restore *)

Section BackupRestore.

Implicit Types (p q : Project) (st : State) (fs : gmap string string).

Lemma writeEnvFile_files p st :
  files (writeEnvFile p st) =
  match activeEnvironment p with
  | Some env =>
      <[envPath p :=
          mergeContent (variables env)
            (match files st !! envPath p with
             | Some content => content
             | None => EmptyString
             end)]>
        (match files st !! envPath p, files st !! bakPath p with
         | Some content, None => <[bakPath p := content]> (files st)
         | _, _ => files st
         end)
  | None => files st
  end.
Proof.
  unfold writeEnvFile. destruct (activeEnvironment p) as [env|]; [|reflexivity].
  unfold readAndBackup, Fs.readFile, Fs.copy, Fs.stat, Fs.writeFile.
  destruct (files st !! envPath p) as [content|] eqn:He; [|reflexivity].
  destruct (files st !! bakPath p) as [b|] eqn:Hb.
  - rewrite bool_decide_eq_true_2 by eauto. reflexivity.
  - rewrite bool_decide_eq_false_2 by (intros [? ?]; discriminate).
    reflexivity.
Qed.

Lemma writeEnvFile_other_fields p st :
  writeEnvFile p st = set_files (files (writeEnvFile p st)) st.
Proof.
  unfold writeEnvFile. destruct (activeEnvironment p); [|by destruct st].
  by destruct (readAndBackup p (files st)).
Qed.

Lemma restoreEnvFile_spec p st :
  restoreEnvFile p st =
  match files st !! bakPath p with
  | Some backup =>
      set_files (delete (bakPath p) (<[envPath p := backup]> (files st))) st
  | None => st
  end.
Proof.
  unfold restoreEnvFile, Fs.copy, Fs.delete, Fs.stat.
  destruct (files st !! bakPath p) as [b|] eqn:Hb.
  - rewrite bool_decide_eq_true_2 by eauto. simpl.
    rewrite bool_decide_eq_true_2; [reflexivity|].
    rewrite lookup_insert_ne by apply envPath_bakPath_ne. eauto.
  - rewrite bool_decide_eq_false_2 by (intros [? ?]; discriminate).
    reflexivity.
Qed.

Lemma restoreEnvFile_files p st :
  files (restoreEnvFile p st) =
  match files st !! bakPath p with
  | Some backup => delete (bakPath p) (<[envPath p := backup]> (files st))
  | None => files st
  end.
Proof.
  rewrite restoreEnvFile_spec. by destruct (files st !! bakPath p).
Qed.

(** What a write does at the backup path, at the target path and
    elsewhere. *)
Lemma writeEnvFile_lookup_bak p st :
  files (writeEnvFile p st) !! bakPath p =
  match activeEnvironment p, files st !! bakPath p with
  | Some _, None => files st !! envPath p
  | _, _ => files st !! bakPath p
  end.
Proof.
  rewrite writeEnvFile_files. destruct (activeEnvironment p) as [env|];
    [|reflexivity].
  rewrite lookup_insert_ne by apply envPath_bakPath_ne.
  destruct (files st !! envPath p) as [content|] eqn:He;
    destruct (files st !! bakPath p) as [b|] eqn:Hb; try done.
  apply lookup_insert_eq.
Qed.

Lemma writeEnvFile_lookup_other p st k :
  k <> envPath p -> k <> bakPath p ->
  files (writeEnvFile p st) !! k = files st !! k.
Proof.
  intros H1 H2. rewrite writeEnvFile_files.
  destruct (activeEnvironment p) as [env|]; [|reflexivity].
  rewrite lookup_insert_ne by done.
  destruct (files st !! envPath p); [|reflexivity].
  destruct (files st !! bakPath p); [reflexivity|].
  by rewrite lookup_insert_ne.
Qed.


Lemma restoreEnvFile_lookup_bak p st :
  files (restoreEnvFile p st) !! bakPath p = None.
Proof.
  rewrite restoreEnvFile_files.
  destruct (files st !! bakPath p) eqn:Hb; [apply lookup_delete_eq|exact Hb].
Qed.

Lemma restoreEnvFile_lookup_env p st :
  files (restoreEnvFile p st) !! envPath p =
  match files st !! bakPath p with
  | Some backup => Some backup
  | None => files st !! envPath p
  end.
Proof.
  rewrite restoreEnvFile_files.
  destruct (files st !! bakPath p) eqn:Hb; [|reflexivity].
  rewrite lookup_delete_ne by (apply not_eq_sym, envPath_bakPath_ne).
  apply lookup_insert_eq.
Qed.

Lemma restoreEnvFile_lookup_other p st k :
  k <> envPath p -> k <> bakPath p ->
  files (restoreEnvFile p st) !! k = files st !! k.
Proof.
  intros H1 H2. rewrite restoreEnvFile_files.
  destruct (files st !! bakPath p); [|reflexivity].
  rewrite lookup_delete_ne by done. by rewrite lookup_insert_ne.
Qed.

(** Two projects either share both paths or share none. *)
Lemma paths_same_or_apart p q :
  (envPath q = envPath p /\ bakPath q = bakPath p) \/
  (envPath q <> envPath p /\ bakPath q <> bakPath p).
Proof.
  destruct (decide (envPath q = envPath p)) as [E|N].
  - left. split; [exact E|]. by apply envPath_eq_bakPath_eq.
  - right. split; [exact N|]. intros E. apply N. by apply envPath_eq_bakPath_eq.
Qed.

End BackupRestore.

Section RoundTrip.

Implicit Types (p q : Project) (st : State) (ps : list Project).

Lemma writeEnvFile_lookup_env p st :
  files (writeEnvFile p st) !! envPath p =
  match activeEnvironment p with
  | Some env =>
      Some (mergeContent (variables env)
              (match files st !! envPath p with
               | Some content => content
               | None => EmptyString
               end))
  | None => files st !! envPath p
  end.
Proof.
  destruct (activeEnvironment p) as [env|] eqn:E.
  - by apply writeEnvFile_content.
  - by rewrite writeEnvFile_files, E.
Qed.

Lemma writeEnvFile_keeps_original p q c st :
  original_kept p c (files st) ->
  original_kept p c (files (writeEnvFile q st)).
Proof.
  unfold original_kept.
  destruct (paths_same_or_apart p q) as [[Ee Eb]|[Ne Nb]].
  - rewrite <- Ee, <- Eb, writeEnvFile_lookup_bak, writeEnvFile_lookup_env.
    destruct (activeEnvironment q) as [env|]; [|exact (fun H => H)].
    intros [[Hb He]|[Hb He]]; rewrite Hb; right; eauto.
  - assert (files (writeEnvFile q st) !! bakPath p = files st !! bakPath p) as ->
      by (apply writeEnvFile_lookup_other;
          [apply not_eq_sym, envPath_bakPath_ne | by apply not_eq_sym]).
    assert (files (writeEnvFile q st) !! envPath p = files st !! envPath p) as ->
      by (apply writeEnvFile_lookup_other;
          [by apply not_eq_sym | apply envPath_bakPath_ne]).
    exact (fun H => H).
Qed.

Lemma restoreEnvFile_keeps_original p q c st :
  original_kept p c (files st) ->
  original_kept p c (files (restoreEnvFile q st)).
Proof.
  unfold original_kept.
  destruct (paths_same_or_apart p q) as [[Ee Eb]|[Ne Nb]].
  - rewrite <- Ee, <- Eb, restoreEnvFile_lookup_bak, restoreEnvFile_lookup_env.
    intros [[Hb He]|[Hb He]]; rewrite Hb; left; eauto.
  - assert (files (restoreEnvFile q st) !! bakPath p = files st !! bakPath p) as ->
      by (apply restoreEnvFile_lookup_other;
          [apply not_eq_sym, envPath_bakPath_ne | by apply not_eq_sym]).
    assert (files (restoreEnvFile q st) !! envPath p = files st !! envPath p) as ->
      by (apply restoreEnvFile_lookup_other;
          [by apply not_eq_sym | apply envPath_bakPath_ne]).
    exact (fun H => H).
Qed.

Lemma restoreEnvFile_no_new_backup p q st :
  files st !! bakPath p = None ->
  files (restoreEnvFile q st) !! bakPath p = None.
Proof.
  intros H. destruct (paths_same_or_apart p q) as [[Ee Eb]|[Ne Nb]].
  - rewrite <- Eb. apply restoreEnvFile_lookup_bak.
  - rewrite restoreEnvFile_lookup_other; [exact H| |by apply not_eq_sym].
    apply not_eq_sym, envPath_bakPath_ne.
Qed.



(** The two loops. *)
Lemma writeAll_keeps_original p c ps st :
  original_kept p c (files st) -> original_kept p c (files (writeAll ps st)).
Proof.
  revert st. induction ps as [|q t IH]; intros st H; [exact H|].
  unfold writeAll. cbn [fold_left]. apply IH.
  destruct (truthy (activeEnvId q)); [|exact H].
  by apply writeEnvFile_keeps_original.
Qed.

Lemma restoreAll_keeps_original p c ps st :
  original_kept p c (files st) -> original_kept p c (files (restoreAll ps st)).
Proof.
  revert st. induction ps as [|q t IH]; intros st H; [exact H|].
  unfold restoreAll. cbn [fold_left]. apply IH.
  by apply restoreEnvFile_keeps_original.
Qed.

Lemma restoreAll_no_new_backup p ps st :
  files st !! bakPath p = None -> files (restoreAll ps st) !! bakPath p = None.
Proof.
  revert st. induction ps as [|q t IH]; intros st H; [exact H|].
  unfold restoreAll. cbn [fold_left]. apply IH.
  by apply restoreEnvFile_no_new_backup.
Qed.

Lemma restoreAll_removes_backup p ps st :
  In p ps -> files (restoreAll ps st) !! bakPath p = None.
Proof.
  revert st. induction ps as [|q t IH]; intros st Hin; [destruct Hin|].
  unfold restoreAll. cbn [fold_left]. fold (restoreAll t).
  destruct Hin as [->|Hin].
  - apply restoreAll_no_new_backup, restoreEnvFile_lookup_bak.
  - by apply IH.
Qed.



Lemma activeEnvironment_truthy p env :
  activeEnvironment p = Some env -> truthy (activeEnvId p) = true.
Proof.
  unfold activeEnvironment, truthy. destruct (activeEnvId p) as [a|];
    [|discriminate]. by destruct (is_empty a).
Qed.


Lemma writeEnvFile_keeps_backup p q c st :
  files st !! bakPath p = Some c ->
  files (writeEnvFile q st) !! bakPath p = Some c.
Proof.
  intros Hb. destruct (paths_same_or_apart p q) as [[Ee Eb]|[Ne Nb]].
  - rewrite <- Eb, writeEnvFile_lookup_bak, Eb, Hb.
    by destruct (activeEnvironment q).
  - rewrite writeEnvFile_lookup_other; [exact Hb| |by apply not_eq_sym].
    apply not_eq_sym, envPath_bakPath_ne.
Qed.

Lemma writeAll_keeps_backup p c ps st :
  files st !! bakPath p = Some c ->
  files (writeAll ps st) !! bakPath p = Some c.
Proof.
  revert st. induction ps as [|q t IH]; intros st H; [exact H|].
  unfold writeAll. cbn [fold_left]. fold (writeAll t). apply IH.
  destruct (truthy (activeEnvId q)); [|exact H].
  by apply writeEnvFile_keeps_backup.
Qed.

Lemma writeAll_takes_backup p c env ps st :
  In p ps -> activeEnvironment p = Some env ->
  original_kept p c (files st) ->
  files (writeAll ps st) !! bakPath p = Some c.
Proof.
  intros Hin Hactive. revert st.
  induction ps as [|q t IH]; intros st Hk; [destruct Hin|].
  unfold writeAll. cbn [fold_left]. fold (writeAll t).
  destruct Hin as [->|Hin].
  - rewrite (activeEnvironment_truthy _ _ Hactive).
    apply writeAll_keeps_backup.
    rewrite writeEnvFile_lookup_bak, Hactive.
    destruct Hk as [[-> ->]|[-> _]]; reflexivity.
  - apply IH; [exact Hin|].
    destruct (truthy (activeEnvId q)); [|exact Hk].
    by apply writeEnvFile_keeps_original.
Qed.

(** The fields the loops leave alone. *)
Lemma writeAll_other_fields ps st :
  writeAll ps st = set_files (files (writeAll ps st)) st.
Proof.
  revert st. induction ps as [|q t IH]; intros st; [by destruct st|].
  unfold writeAll. cbn [fold_left]. fold (writeAll t).
  destruct (truthy (activeEnvId q)); [|apply IH].
  rewrite IH. rewrite writeEnvFile_other_fields at 2. reflexivity.
Qed.

Lemma restoreEnvFile_other_fields p st :
  restoreEnvFile p st = set_files (files (restoreEnvFile p st)) st.
Proof.
  rewrite restoreEnvFile_spec.
  destruct (files st !! bakPath p); [reflexivity|by destruct st].
Qed.

Lemma restoreAll_other_fields ps st :
  restoreAll ps st = set_files (files (restoreAll ps st)) st.
Proof.
  revert st. induction ps as [|q t IH]; intros st; [by destruct st|].
  unfold restoreAll. cbn [fold_left]. fold (restoreAll t).
  rewrite IH. rewrite restoreEnvFile_other_fields at 2. reflexivity.
Qed.

(** The files a loop leaves depend on the files it finds only. *)
Lemma writeEnvFile_files_ext p st st' :
  files st = files st' ->
  files (writeEnvFile p st) = files (writeEnvFile p st').
Proof. intros H. by rewrite !writeEnvFile_files, H. Qed.

Lemma restoreEnvFile_files_ext p st st' :
  files st = files st' ->
  files (restoreEnvFile p st) = files (restoreEnvFile p st').
Proof. intros H. by rewrite !restoreEnvFile_files, H. Qed.

Lemma writeAll_files_ext ps st st' :
  files st = files st' -> files (writeAll ps st) = files (writeAll ps st').
Proof.
  revert st st'. induction ps as [|q t IH]; intros st st' H; [exact H|].
  unfold writeAll. cbn [fold_left]. fold (writeAll t).
  destruct (truthy (activeEnvId q)); apply IH;
    [by apply writeEnvFile_files_ext|exact H].
Qed.

Lemma restoreAll_files_ext ps st st' :
  files st = files st' -> files (restoreAll ps st) = files (restoreAll ps st').
Proof.
  revert st st'. induction ps as [|q t IH]; intros st st' H; [exact H|].
  unfold restoreAll. cbn [fold_left]. fold (restoreAll t).
  by apply IH, restoreEnvFile_files_ext.
Qed.

(** The state after a toggle, in either direction. *)
Lemma toggleSyncMode_to_file st :
  syncMode st = terminal ->
  syncMode (toggleSyncMode st) = file /\
  projectsCache (toggleSyncMode st) = projectsCache st /\
  files (toggleSyncMode st) = files (writeAll (getProjects st) st).
Proof.
  intros Hm. unfold toggleSyncMode, syncAllActiveProjectsToFile. rewrite Hm.
  change (getProjects (set_syncMode file st)) with (getProjects st).
  fold (writeAll (getProjects st) (set_syncMode file st)).
  rewrite writeAll_other_fields. simpl. repeat split.
  by apply writeAll_files_ext.
Qed.

Lemma toggleSyncMode_to_terminal st :
  syncMode st = file ->
  syncMode (toggleSyncMode st) = terminal /\
  projectsCache (toggleSyncMode st) = projectsCache st /\
  files (toggleSyncMode st) = files (restoreAll (getProjects st) st).
Proof.
  intros Hm. unfold toggleSyncMode, revertAllActiveProjectsFromFile.
  rewrite Hm.
  change (getProjects (set_syncMode terminal st)) with (getProjects st).
  fold (restoreAll (getProjects st) (set_syncMode terminal st)).
  rewrite restoreAll_other_fields. unfold updateEnvironmentVariables. simpl.
  assert (files (restoreAll (getProjects st) (set_syncMode terminal st)) =
          files (restoreAll (getProjects st) st)) as ->
    by by apply restoreAll_files_ext.
  by destruct (workspaceFolders st).
Qed.

Lemma toggleSyncMode_twice st :
  syncMode st = terminal ->
  syncMode (toggleSyncMode (toggleSyncMode st)) = terminal /\
  files (toggleSyncMode (toggleSyncMode st)) =
    files (restoreAll (getProjects st) (writeAll (getProjects st) st)).
Proof.
  intros Hm. destruct (toggleSyncMode_to_file st Hm) as (Hm1 & Hp1 & Hf1).
  destruct (toggleSyncMode_to_terminal _ Hm1) as (Hm2 & _ & Hf2).
  split; [exact Hm2|]. rewrite Hf2.
  assert (getProjects (toggleSyncMode st) = getProjects st) as ->
    by (unfold getProjects; by rewrite Hp1).
  by apply restoreAll_files_ext.
Qed.

End RoundTrip.

Section BackupClaims.

Implicit Types (p q : Project) (st : State).

(** C3, with the condition it needs.  A write never touches a backup that
    is already there.  So for a target that holds [c] and has no backup
    next to it, after a write and a second write for the same project
    path, whatever they merge, the backup is the copy of [c] taken by the
    first write that ran, and the restore that follows puts [c] back in
    the target, the content from before the first write and not the one
    the second write found, and removes the backup.  When a backup [b] is
    there at the start, it is the one kept, and the restore puts [b] in
    the target. *)
Theorem backup_first_write_wins :
  (forall p st,
      is_Some (files st !! bakPath p) ->
      files (writeEnvFile p st) !! bakPath p = files st !! bakPath p) /\
  (forall p p' st c,
      path p' = path p ->
      files st !! envPath p = Some c ->
      files st !! bakPath p = None ->
      let st1 := writeEnvFile p st in
      let st2 := writeEnvFile p' st1 in
      (is_Some (activeEnvironment p) ->
       files st1 !! bakPath p = Some c /\
       files st2 !! bakPath p = Some c) /\
      files (restoreEnvFile p st2) !! envPath p = Some c /\
      files (restoreEnvFile p st2) !! bakPath p = None) /\
  (forall p p' st b,
      path p' = path p ->
      files st !! bakPath p = Some b ->
      let st2 := writeEnvFile p' (writeEnvFile p st) in
      files st2 !! bakPath p = Some b /\
      files (restoreEnvFile p st2) !! envPath p = Some b /\
      files (restoreEnvFile p st2) !! bakPath p = None).
Proof.
  split; [|split].
  - intros p st [b Hb]. rewrite writeEnvFile_lookup_bak, Hb.
    by destruct (activeEnvironment p).
  - intros p p' st c Hpath He Hb st1 st2.
    assert (bakPath p' = bakPath p) as Ebak
      by (unfold bakPath; by rewrite Hpath).
    assert (original_kept p c (files st)) as H0 by (left; by split).
    assert (original_kept p c (files st2)) as Hkept
      by by apply writeEnvFile_keeps_original, writeEnvFile_keeps_original.
    split; [|split].
    + intros [env Hactive].
      assert (files st1 !! bakPath p = Some c) as H1.
      { unfold st1. by rewrite writeEnvFile_lookup_bak, Hactive, Hb. }
      split; [exact H1|]. unfold st2.
      rewrite <- Ebak, writeEnvFile_lookup_bak, Ebak, H1.
      by destruct (activeEnvironment p').
    + rewrite restoreEnvFile_lookup_env.
      destruct Hkept as [[-> ->]|[-> _]]; reflexivity.
    + apply restoreEnvFile_lookup_bak.
  - intros p p' st b Hpath Hb st2.
    assert (bakPath p' = bakPath p) as Ebak
      by (unfold bakPath; by rewrite Hpath).
    assert (files (writeEnvFile p st) !! bakPath p = Some b) as H1.
    { rewrite writeEnvFile_lookup_bak, Hb.
      by destruct (activeEnvironment p). }
    assert (files st2 !! bakPath p = Some b) as H2.
    { unfold st2. rewrite <- Ebak, writeEnvFile_lookup_bak, Ebak, H1.
      by destruct (activeEnvironment p'). }
    split; [exact H2|]. split.
    + by rewrite restoreEnvFile_lookup_env, H2.
    + apply restoreEnvFile_lookup_bak.
Qed.

(** C4, with the condition it needs.  From terminal mode, for a project of
    the store whose target exists with content [c] and whose backup path is
    free, toggling to file mode and back leaves the target with exactly [c]
    and no backup behind; in between, when the project has an active
    environment, the backup holds [c].  Other projects of the store, with
    the same directory or not, do not disturb this. *)
Theorem toggle_round_trip_restores_target :
  forall st p c,
    syncMode st = terminal ->
    In p (getProjects st) ->
    files st !! envPath p = Some c ->
    files st !! bakPath p = None ->
    (is_Some (activeEnvironment p) ->
     files (toggleSyncMode st) !! bakPath p = Some c) /\
    syncMode (toggleSyncMode (toggleSyncMode st)) = terminal /\
    files (toggleSyncMode (toggleSyncMode st)) !! envPath p = Some c /\
    files (toggleSyncMode (toggleSyncMode st)) !! bakPath p = None.
Proof.
  intros st p c Hm Hin He Hb.
  destruct (toggleSyncMode_twice st Hm) as [Hm2 Hf2].
  destruct (toggleSyncMode_to_file st Hm) as (_ & _ & Hf1).
  assert (original_kept p c (files st)) as H0 by by left.
  split; [|split; [exact Hm2|]].
  - intros [env Hactive]. rewrite Hf1.
    by apply (writeAll_takes_backup p c env).
  - rewrite Hf2.
    assert (original_kept p c
              (files (restoreAll (getProjects st) (writeAll (getProjects st) st))))
      as Hk by by apply restoreAll_keeps_original, writeAll_keeps_original.
    pose proof (restoreAll_removes_backup p (getProjects st)
                  (writeAll (getProjects st) st) Hin) as Hnb.
    split; [|exact Hnb].
    destruct Hk as [[_ Hk]|[Hk _]]; [exact Hk|congruence].
Qed.


End BackupClaims.

(** ** The configuration store *)

Section Store.

Implicit Types (p : Project) (st : State) (ps : list Project).

Lemma find_update_first {A : Type} (f : A -> bool) (g : A -> A) (l : list A) :
  (forall x, f (g x) = f x) ->
  find f (update_first f g l) = option_map g (find f l).
Proof.
  intros H. induction l as [|x t IH]; [reflexivity|]. simpl.
  destruct (f x) eqn:E; simpl.
  - by rewrite H, E.
  - by rewrite E.
Qed.

Lemma In_update_first {A : Type} (f : A -> bool) (g : A -> A) (l : list A) y :
  In y (update_first f g l) -> In y l \/ exists x, In x l /\ y = g x.
Proof.
  induction l as [|x t IH]; [intros []|]. simpl. destruct (f x).
  - intros [<-|H]; [right; exists x; by split; [left|]|left; by right].
  - intros [<-|H]; [left; by left|].
    destruct (IH H) as [?|(z & ? & ?)]; [left; by right|].
    right. exists z. split; [by right|done].
Qed.

Lemma update_first_same {A : Type} (f : A -> bool) (g : A -> A) (l : list A) x :
  find f l = Some x -> g x = x -> update_first f g l = l.
Proof.
  induction l as [|y t IH]; [discriminate|]. simpl. destruct (f y).
  - intros [= ->] ->. reflexivity.
  - intros H1 H2. by rewrite IH.
Qed.

Lemma filter_none_found {A : Type} (f : A -> bool) (l : list A) :
  find f l = None -> filter (fun x => negb (f x)) l = l.
Proof.
  induction l as [|y t IH]; [reflexivity|]. simpl.
  destruct (f y) eqn:E; [discriminate|]. intros H.
  rewrite filter_cons_True by (by rewrite E). by rewrite IH.
Qed.

Lemma getProjects_writeAll ps st :
  getProjects (writeAll ps st) = getProjects st.
Proof. by rewrite writeAll_other_fields. Qed.

Lemma getProjects_saveProjects ps st : getProjects (saveProjects ps st) = ps.
Proof.
  unfold saveProjects, syncAllActiveProjectsToFile, updateEnvironmentVariables.
  simpl. destruct (syncMode st).
  - by destruct (workspaceFolders st).
  - change (getProjects (set_projects ps st)) with ps.
    fold (writeAll ps (set_projects ps st)).
    by rewrite writeAll_other_fields.
Qed.

(** C7.  Deleting the environment a project points at removes it and clears
    the pointer.  In a store where every active pointer is unset or names an
    environment of its project, the same holds after [deleteEnvironment],
    whatever the two identifiers are. *)
Theorem deleteEnvironment_leaves_no_dangling_pointer :
  (forall st projectId envId p,
      findProject projectId (getProjects st) = Some p ->
      activeEnvId p = Some envId ->
      exists p',
        findProject projectId
          (getProjects (deleteEnvironment projectId envId st)) = Some p' /\
        activeEnvId p' = None /\
        (forall e, In e (environments p') -> env_id e <> envId) /\
        (forall e, In e (environments p) -> env_id e <> envId ->
                   In e (environments p'))) /\
  (forall st projectId envId,
      (forall p, In p (getProjects st) -> activeEnvId_valid p) ->
      forall p, In p (getProjects (deleteEnvironment projectId envId st)) ->
                activeEnvId_valid p).
Proof.
  split.
  - intros st projectId envId p Hfind Hactive. unfold deleteEnvironment.
    rewrite Hfind, getProjects_saveProjects.
    unfold findProject, changeProject in *.
    rewrite find_update_first by reflexivity. rewrite Hfind. simpl.
    eexists. split; [reflexivity|]. simpl. rewrite Hactive, String.eqb_refl.
    split; [reflexivity|]. split.
    + intros e He. apply list_elem_of_In, list_elem_of_filter in He as [Hne _].
      intros E. rewrite E, String.eqb_refl in Hne. exact Hne.
    + intros e He Hne. apply list_elem_of_In, list_elem_of_filter.
      split; [|by apply list_elem_of_In].
      apply String.eqb_neq in Hne. by rewrite Hne.
  - intros st projectId envId Hvalid p. unfold deleteEnvironment.
    destruct (findProject projectId (getProjects st)) as [found|];
      [|apply Hvalid].
    rewrite getProjects_saveProjects. unfold changeProject. intros Hin.
    apply In_update_first in Hin as [Hin|(x & Hx & ->)]; [by apply Hvalid|].
    specialize (Hvalid x Hx). unfold activeEnvId_valid in *. simpl.
    destruct (activeEnvId x) as [a|]; [|exact I].
    destruct (String.eqb_spec a envId) as [->|Hne]; [exact I|].
    destruct Hvalid as (e & He & Hid). exists e. split; [|exact Hid].
    apply list_elem_of_In, list_elem_of_filter.
    split; [|by apply list_elem_of_In].
    rewrite Hid. apply String.eqb_neq in Hne. by rewrite Hne.
Qed.

(** An operation addressed to an identifier that is not in the store
    returns the state it was given: nothing is saved and nothing is shown.
    For [setActiveEnvironment] this covers the project identifier only. *)
Lemma missing_id_is_noop st :
  (forall projectId newName,
      findProject projectId (getProjects st) = None ->
      renameProject projectId newName st = st) /\
  (forall projectId envId,
      findProject projectId (getProjects st) = None ->
      deleteEnvironment projectId envId st = st /\
      setActiveEnvironment projectId envId st = st) /\
  (forall projectId envId newName k v k' v',
      (findProject projectId (getProjects st) = None \/
       exists p, findProject projectId (getProjects st) = Some p /\
                 findEnvironment envId p = None) ->
      renameEnvironment projectId envId newName st = st /\
      addVariable projectId envId k v st = st /\
      deleteVariable projectId envId k st = st /\
      editVariable projectId envId k k' v' st = st) /\
  (forall projectId envId k k' v' p env,
      findProject projectId (getProjects st) = Some p ->
      findEnvironment envId p = Some env ->
      findVar k (variables env) = None ->
      editVariable projectId envId k k' v' st = st).
Proof.
  split; [|split; [|split]].
  - intros projectId newName H. unfold renameProject. by rewrite H.
  - intros projectId envId H.
    unfold deleteEnvironment, setActiveEnvironment. by rewrite H.
  - intros projectId envId newName k v k' v' H.
    unfold renameEnvironment, addVariable, deleteVariable, editVariable.
    destruct H as [->|(p & -> & ->)]; done.
  - intros projectId envId k k' v' p env Hp He Hv. unfold editVariable.
    by rewrite Hp, He, Hv.
Qed.

(** Deleting an environment that a project does not have, or a variable
    that an environment does not have, saves the projects as they were. *)
Lemma missing_child_keeps_projects st projectId envId p :
  findProject projectId (getProjects st) = Some p ->
  (findEnvironment envId p = None ->
   activeEnvId p <> Some envId ->
   getProjects (deleteEnvironment projectId envId st) = getProjects st) /\
  (forall env k,
      findEnvironment envId p = Some env ->
      findVar k (variables env) = None ->
      getProjects (deleteVariable projectId envId k st) = getProjects st).
Proof.
  intros Hp. split.
  - intros He Ha. unfold deleteEnvironment.
    rewrite Hp, getProjects_saveProjects.
    apply (update_first_same _ _ _ p Hp).
    unfold findEnvironment in He. rewrite (filter_none_found _ _ He).
    destruct p as [i n pa es a]. simpl in *. f_equal.
    destruct a as [a|]; [|reflexivity].
    destruct (String.eqb_spec a envId) as [->|]; [by destruct Ha|reflexivity].
  - intros env k He Hv. unfold deleteVariable.
    rewrite Hp, He, getProjects_saveProjects.
    apply (update_first_same _ _ _ p Hp).
    unfold changeEnvironment, findEnvironment in *.
    rewrite (update_first_same _ _ _ env He).
    + by destruct p.
    + unfold findVar in Hv. rewrite (filter_none_found _ _ Hv). by destruct env.
Qed.

(** The duplicate that [addProject] does refuse.  It compares paths
    exactly.  When a project of the store has the very path given, the call
    shows an error and changes nothing else: the cache, the secret storage,
    the files and the collection stay as they were. *)
Lemma addProject_rejects_same_path :
  forall now now' projectName projectPath envFilePath st p,
    In p (getProjects st) ->
    path p = projectPath ->
    addProject now now' projectName projectPath envFilePath st =
      showMessage (ErrorMessage "Project already exists for this path.") st /\
    getProjects (addProject now now' projectName projectPath envFilePath st)
      = getProjects st /\
    secretProjects (addProject now now' projectName projectPath envFilePath st)
      = secretProjects st /\
    files (addProject now now' projectName projectPath envFilePath st)
      = files st /\
    collection (addProject now now' projectName projectPath envFilePath st)
      = collection st.
Proof.
  intros now now' projectName projectPath envFilePath st p Hin Hpath.
  assert (addProject now now' projectName projectPath envFilePath st =
          showMessage (ErrorMessage "Project already exists for this path.") st)
    as ->.
  { unfold addProject.
    destruct (find (fun q => String.eqb (path q) projectPath) (getProjects st))
      as [q|] eqn:E; [reflexivity|].
    exfalso. pose proof (find_none _ _ E p Hin) as H. simpl in H.
    rewrite Hpath, String.eqb_refl in H. discriminate H. }
  repeat split.
Qed.

Lemma saveProjects_other_fields ps st :
  messages (saveProjects ps st) = messages st /\
  syncMode (saveProjects ps st) = syncMode st.
Proof.
  unfold saveProjects, syncAllActiveProjectsToFile, updateEnvironmentVariables.
  simpl. destruct (syncMode st) eqn:Hm.
  - by destruct (workspaceFolders st).
  - change (getProjects (set_projects ps st)) with ps.
    fold (writeAll ps (set_projects ps st)).
    rewrite writeAll_other_fields. simpl. by rewrite Hm.
Qed.

(** C9, where the code leaves it.  [setActiveEnvironment] looks the project
    up and nothing else: given the identifier of an environment the project
    does not have, it stores that identifier as the active pointer, saves
    and reports success.  The pointer then names no environment of the
    project. *)
Theorem setActiveEnvironment_takes_missing_environment :
  forall st projectId envId p,
    findProject projectId (getProjects st) = Some p ->
    findEnvironment envId p = None ->
    let st' := setActiveEnvironment projectId envId st in
    (exists p',
        findProject projectId (getProjects st') = Some p' /\
        activeEnvId p' = Some envId /\
        environments p' = environments p /\
        ~ activeEnvId_valid p') /\
    (exists text, messages st' = messages st ++ [InformationMessage text]).
Proof.
  intros st projectId envId p Hp He st'. unfold st', setActiveEnvironment.
  rewrite Hp. split.
  - change (getProjects (showMessage ?m ?s)) with (getProjects s).
    rewrite getProjects_saveProjects.
    unfold findProject, changeProject in *.
    rewrite find_update_first by reflexivity. rewrite Hp. simpl.
    eexists. split; [reflexivity|]. simpl. repeat split.
    unfold activeEnvId_valid. simpl. intros (e & Hin & Hid).
    pose proof (find_none _ _ He e Hin) as H. simpl in H.
    rewrite Hid, String.eqb_refl in H. discriminate H.
  - eexists. simpl.
    by rewrite (proj1 (saveProjects_other_fields _ _)).
Qed.

End Store.

(** ** What every operation keeps *)

Section EveryOperation.

Implicit Types (op : Operation) (st : State) (ps : list Project).

Lemma run_effect op st :
  is_toggle op = false ->
  exists pre post e,
    run op st = showMessages post (applyEffect e (showMessages pre st)).
Proof.
  intros Hop. destruct op; try discriminate Hop; cbn [run].
  - unfold addProject.
    destruct (find _ (getProjects st)).
    { by exists [], [ErrorMessage "Project already exists for this path."],
        Nothing. }
    destruct envFilePath as [f|].
    + destruct (is_empty f).
      { by exists [], [], (Saves (getProjects st ++
                           [mkProject now projectName projectPath [] None])). }
      change (Fs.readFile f (files st)) with (files st !! f).
      destruct (files st !! f) as [text|].
      * eexists [_], [], (Saves _). reflexivity.
      * eexists [_], [], (Saves _). reflexivity.
    + by eexists [], [], (Saves _).
  - by eexists [], [], (Saves _).
  - unfold renameProject. destruct (findProject _ _).
    + by eexists [], [], (Saves _).
    + by exists [], [], Nothing.
  - unfold addEnvironment. destruct (findProject _ _).
    + by eexists [], [], (Saves _).
    + by exists [], [], Nothing.
  - unfold deleteEnvironment. destruct (findProject _ _).
    + by eexists [], [], (Saves _).
    + by exists [], [], Nothing.
  - unfold renameEnvironment. destruct (findProject _ _) as [p|];
      [destruct (findEnvironment _ p)|].
    + by eexists [], [], (Saves _).
    + by exists [], [], Nothing.
    + by exists [], [], Nothing.
  - unfold setActiveEnvironment. destruct (findProject _ _).
    + eexists [], [_], (Saves _). reflexivity.
    + by exists [], [], Nothing.
  - unfold addVariable. destruct (findProject _ _) as [p|];
      [destruct (findEnvironment _ p)|].
    + by eexists [], [], (Saves _).
    + by exists [], [], Nothing.
    + by exists [], [], Nothing.
  - unfold deleteVariable. destruct (findProject _ _) as [p|];
      [destruct (findEnvironment _ p)|].
    + by eexists [], [], (Saves _).
    + by exists [], [], Nothing.
    + by exists [], [], Nothing.
  - unfold editVariable. destruct (findProject _ _) as [p|];
      [destruct (findEnvironment _ p) as [e|];
       [destruct (findVar _ (variables e))|]|].
    + by eexists [], [], (Saves _).
    + by exists [], [], Nothing.
    + by exists [], [], Nothing.
    + by exists [], [], Nothing.
  - by eexists [], [], (Overrides _).
  - by exists [], [], Projects.
Qed.

(** A property of states that messages and the four effects keep is kept by
    every call that is not a toggle. *)
Lemma run_keeps (P : State -> Prop) :
  (forall m st, P st -> P (showMessage m st)) ->
  (forall e st, P st -> P (applyEffect e st)) ->
  forall op st, is_toggle op = false -> P st -> P (run op st).
Proof.
  intros Hmsg Heff op st Hop HP.
  assert (forall ms s, P s -> P (showMessages ms s)) as Hmsgs.
  { induction ms as [|m t IH]; intros s Hs; [exact Hs|].
    unfold showMessages. cbn [fold_left]. apply IH. by apply Hmsg. }
  destruct (run_effect op st Hop) as (pre & post & e & ->).
  by apply Hmsgs, Heff, Hmsgs.
Qed.

Lemma runAll_keeps (P : State -> Prop) (allowed : Operation -> bool) :
  (forall op st, allowed op = true -> P st -> P (run op st)) ->
  forall ops st, forallb allowed ops = true -> P st -> P (runAll ops st).
Proof.
  intros Hstep. induction ops as [|op t IH]; intros st Hall HP; [exact HP|].
  cbn [forallb] in Hall. apply andb_prop in Hall as [Hop Ht].
  unfold runAll. cbn [fold_left]. apply IH; [exact Ht|]. by apply Hstep.
Qed.

Lemma saveProjects_fields ps st :
  projectsCache (saveProjects ps st) = Some ps /\
  secretProjects (saveProjects ps st) = Some ps /\
  syncMode (saveProjects ps st) = syncMode st /\
  storedSyncMode (saveProjects ps st) = storedSyncMode st /\
  workspaceVars (saveProjects ps st) = workspaceVars st /\
  workspaceFolders (saveProjects ps st) = workspaceFolders st /\
  messages (saveProjects ps st) = messages st.
Proof.
  unfold saveProjects, syncAllActiveProjectsToFile, updateEnvironmentVariables.
  simpl. destruct (syncMode st) eqn:Hm.
  - destruct (workspaceFolders st) eqn:Hf; simpl; by rewrite Hm, ?Hf.
  - change (getProjects (set_projects ps st)) with ps.
    fold (writeAll ps (set_projects ps st)).
    rewrite writeAll_other_fields. simpl. by rewrite Hm.
Qed.

Lemma saveProjects_files ps st :
  files (saveProjects ps st) =
  match syncMode st with
  | terminal => files st
  | file => files (writeAll ps st)
  end.
Proof.
  unfold saveProjects, syncAllActiveProjectsToFile, updateEnvironmentVariables.
  simpl. destruct (syncMode st) eqn:Hm.
  - by destruct (workspaceFolders st).
  - change (getProjects (set_projects ps st)) with ps.
    fold (writeAll ps (set_projects ps st)). simpl.
    by apply writeAll_files_ext.
Qed.

Lemma updateEnvironmentVariables_fields st :
  updateEnvironmentVariables st =
  set_collection (collection (updateEnvironmentVariables st)) st.
Proof.
  unfold updateEnvironmentVariables. destruct (syncMode st); [|reflexivity].
  by destruct (workspaceFolders st).
Qed.

Lemma toggleSyncMode_fields st :
  let mode := match syncMode st with terminal => file | file => terminal end in
  syncMode (toggleSyncMode st) = mode /\
  storedSyncMode (toggleSyncMode st) = Some mode /\
  projectsCache (toggleSyncMode st) = projectsCache st /\
  secretProjects (toggleSyncMode st) = secretProjects st /\
  workspaceVars (toggleSyncMode st) = workspaceVars st /\
  workspaceFolders (toggleSyncMode st) = workspaceFolders st.
Proof.
  unfold toggleSyncMode, syncAllActiveProjectsToFile,
    revertAllActiveProjectsFromFile.
  destruct (syncMode st).
  - change (getProjects (set_syncMode file st)) with (getProjects st).
    fold (writeAll (getProjects st) (set_syncMode file st)).
    by rewrite writeAll_other_fields.
  - change (getProjects (set_syncMode terminal st)) with (getProjects st).
    fold (restoreAll (getProjects st) (set_syncMode terminal st)).
    rewrite restoreAll_other_fields, updateEnvironmentVariables_fields.
    done.
Qed.

End EveryOperation.

Section Invariants.

Implicit Types (op : Operation) (ops : list Operation) (st : State)
  (ps : list Project) (p : Project).

Lemma writeEnvFile_keeps_file p st k :
  is_Some (files st !! k) -> is_Some (files (writeEnvFile p st) !! k).
Proof.
  intros H. rewrite writeEnvFile_files.
  destruct (activeEnvironment p) as [env|]; [|exact H].
  apply lookup_insert_is_Some'. right.
  destruct (files st !! envPath p); [|exact H].
  destruct (files st !! bakPath p); [exact H|].
  apply lookup_insert_is_Some'. by right.
Qed.

Lemma writeAll_keeps_file ps st k :
  is_Some (files st !! k) -> is_Some (files (writeAll ps st) !! k).
Proof.
  revert st. induction ps as [|q t IH]; intros st H; [exact H|].
  unfold writeAll. cbn [fold_left]. fold (writeAll t). apply IH.
  destruct (truthy (activeEnvId q)); [|exact H].
  by apply writeEnvFile_keeps_file.
Qed.

Lemma restoreEnvFile_keeps_file p st k :
  (forall q, k <> bakPath q) ->
  is_Some (files st !! k) -> is_Some (files (restoreEnvFile p st) !! k).
Proof.
  intros Hk H. rewrite restoreEnvFile_files.
  destruct (files st !! bakPath p); [|exact H].
  rewrite lookup_delete_ne by apply not_eq_sym, Hk.
  apply lookup_insert_is_Some'. by right.
Qed.

Lemma restoreAll_keeps_file ps st k :
  (forall q, k <> bakPath q) ->
  is_Some (files st !! k) -> is_Some (files (restoreAll ps st) !! k).
Proof.
  intros Hk. revert st. induction ps as [|q t IH]; intros st H; [exact H|].
  unfold restoreAll. cbn [fold_left]. fold (restoreAll t). apply IH.
  by apply restoreEnvFile_keeps_file.
Qed.

Lemma toggleSyncMode_files st :
  files (toggleSyncMode st) =
  match syncMode st with
  | terminal => files (writeAll (getProjects st) st)
  | file => files (restoreAll (getProjects st) st)
  end.
Proof.
  destruct (syncMode st) eqn:Hm.
  - by destruct (toggleSyncMode_to_file st Hm) as (_ & _ & ->).
  - by destruct (toggleSyncMode_to_terminal st Hm) as (_ & _ & ->).
Qed.

Lemma applyEffect_files e st :
  files (applyEffect e st) =
  match e, syncMode st with
  | Saves ps, file => files (writeAll ps st)
  | _, _ => files st
  end.
Proof.
  destruct e as [|ps|vars|]; cbn [applyEffect].
  - by destruct (syncMode st).
  - apply saveProjects_files.
  - rewrite updateEnvironmentVariables_fields. by destruct (syncMode st).
  - rewrite updateEnvironmentVariables_fields. by destruct (syncMode st).
Qed.

Lemma applyEffect_syncMode e st :
  syncMode (applyEffect e st) = syncMode st.
Proof.
  destruct e as [|ps|vars|]; cbn [applyEffect].
  - reflexivity.
  - apply saveProjects_fields.
  - by rewrite updateEnvironmentVariables_fields.
  - by rewrite updateEnvironmentVariables_fields.
Qed.

(** X1.  The cache and the secret storage never part: if they hold the same
    projects, they still do after any sequence of calls. *)
Theorem cache_and_storage_agree :
  forall ops st, persisted st -> persisted (runAll ops st).
Proof.
  intros ops st H0.
  refine (runAll_keeps persisted (fun _ => true) _ ops st _ H0);
    [|by apply forallb_forall].
  clear. intros op st _ H. destruct (is_toggle op) eqn:Hop.
  - destruct op; try discriminate Hop. cbn [run]. unfold persisted in *.
    destruct (toggleSyncMode_fields st) as (_ & _ & -> & -> & _). exact H.
  - revert H. apply run_keeps; [| |exact Hop].
    + intros m s Hs. exact Hs.
    + intros e s Hs. unfold persisted in *.
      destruct e as [|qs|vars|]; cbn [applyEffect].
      * exact Hs.
      * destruct (saveProjects_fields qs s) as (-> & -> & _). reflexivity.
      * rewrite updateEnvironmentVariables_fields. exact Hs.
      * rewrite updateEnvironmentVariables_fields. exact Hs.
Qed.

(** X2.  In terminal mode no call but a toggle touches the filesystem or
    leaves the mode: after any sequence of such calls the files are the
    ones found. *)
Theorem terminal_mode_leaves_files_alone :
  forall ops st,
    syncMode st = terminal ->
    forallb (fun op => negb (is_toggle op)) ops = true ->
    syncMode (runAll ops st) = terminal /\
    files (runAll ops st) = files st.
Proof.
  intros ops st Hm Hops.
  refine (runAll_keeps
            (fun s => syncMode s = terminal /\ files s = files st)
            (fun op => negb (is_toggle op)) _ ops st Hops _); [|by split].
  intros op s Hop Hs. apply negb_true_iff in Hop.
  refine (run_keeps (fun s => syncMode s = terminal /\ files s = files st)
            _ _ op s Hop Hs).
  - intros m s' Hs'. exact Hs'.
  - intros e s' [Hm' Hf'].
    by rewrite applyEffect_syncMode, applyEffect_files, Hm', Hf';
      destruct e.
Qed.

(** X3.  No call ever removes a file other than a backup: a file that is
    there and is no [.env.bak] of any directory is still there after any
    sequence of calls. *)
Theorem only_backups_are_deleted :
  forall ops st k,
    (forall q, k <> bakPath q) ->
    is_Some (files st !! k) ->
    is_Some (files (runAll ops st) !! k).
Proof.
  intros ops st k Hk H0.
  refine (runAll_keeps (fun s => is_Some (files s !! k)) (fun _ => true)
            _ ops st _ H0); [|by apply forallb_forall].
  intros op s _ H. destruct (is_toggle op) eqn:Hop.
  - destruct op; try discriminate Hop. cbn [run].
    rewrite toggleSyncMode_files. destruct (syncMode s).
    + by apply writeAll_keeps_file.
    + by apply restoreAll_keeps_file.
  - refine (run_keeps (fun s => is_Some (files s !! k)) _ _ op s Hop H).
    + intros m s' Hs'. exact Hs'.
    + intros e s' Hs'. rewrite applyEffect_files.
      destruct e as [|qs|vars|]; try (by destruct (syncMode s')).
      destruct (syncMode s'); [exact Hs'|]. by apply writeAll_keeps_file.
Qed.

(** X4.  A backup that exists is changed by nothing but a toggle: after any
    sequence of calls without a toggle it holds the same content, in
    either mode. *)
Theorem saves_never_touch_a_backup :
  forall ops st p c,
    forallb (fun op => negb (is_toggle op)) ops = true ->
    files st !! bakPath p = Some c ->
    files (runAll ops st) !! bakPath p = Some c.
Proof.
  intros ops st p c Hops H0.
  refine (runAll_keeps (fun s => files s !! bakPath p = Some c)
            (fun op => negb (is_toggle op)) _ ops st Hops H0).
  intros op s Hop H. apply negb_true_iff in Hop.
  refine (run_keeps (fun s => files s !! bakPath p = Some c) _ _ op s Hop H).
  - intros m s' Hs'. exact Hs'.
  - intros e s' Hs'. rewrite applyEffect_files.
    destruct e as [|qs|vars|]; try (by destruct (syncMode s')).
    destruct (syncMode s'); [exact Hs'|]. by apply writeAll_keeps_backup.
Qed.

(** X5.  File mode injects nothing: once the collection is empty whenever
    the mode is [file], it stays so after any sequence of calls, toggles
    included. *)
Theorem file_mode_injects_nothing :
  forall ops st,
    (syncMode st = file -> collection st = ∅) ->
    syncMode (runAll ops st) = file -> collection (runAll ops st) = ∅.
Proof.
  intros ops st H0.
  refine (runAll_keeps (fun s => syncMode s = file -> collection s = ∅)
            (fun _ => true) _ ops st _ H0); [|by apply forallb_forall].
  clear. intros op s _ H. destruct (is_toggle op) eqn:Hop.
  - destruct op; try discriminate Hop. cbn [run].
    unfold toggleSyncMode. destruct (syncMode s) eqn:Hm.
    + intros _. reflexivity.
    + rewrite updateEnvironmentVariables_fields. simpl.
      unfold revertAllActiveProjectsFromFile.
      change (getProjects (set_syncMode terminal s)) with (getProjects s).
      fold (restoreAll (getProjects s) (set_syncMode terminal s)).
      rewrite restoreAll_other_fields. discriminate.
  - refine (run_keeps (fun s => syncMode s = file -> collection s = ∅)
              _ _ op s Hop H).
    + intros m s' Hs'. exact Hs'.
    + intros e s' Hs'. rewrite applyEffect_syncMode. intros Hm.
      destruct e as [|qs|vars|]; cbn [applyEffect].
      * by apply Hs'.
      * unfold saveProjects. simpl. rewrite Hm. reflexivity.
      * unfold updateEnvironmentVariables. simpl. by rewrite Hm.
      * unfold updateEnvironmentVariables. by rewrite Hm.
Qed.

End Invariants.

Section ResolutionFormula.

Implicit Types (st : State) (ps : list Project) (c : gmap string string).

Lemma injectFolder_lookup ps c w k :
  injectFolder ps c w !! k =
  match folderValue ps k w with
  | Some x => Some x
  | None => c !! k
  end.
Proof.
  unfold injectFolder, folderValue.
  destruct (matchProject ps w) as [p|]; [|reflexivity].
  destruct (activeEnvironment p) as [env|]; [|reflexivity].
  apply fold_replaceEnabled_lookup.
Qed.

Lemma fold_injectFolder_lookup ps folders c k :
  fold_left (injectFolder ps) folders c !! k =
  fold_left (fun acc w =>
               match folderValue ps k w with
               | Some x => Some x
               | None => acc
               end) folders (c !! k).
Proof.
  revert c. induction folders as [|w t IH]; intros c; [reflexivity|].
  cbn [fold_left]. by rewrite IH, injectFolder_lookup.
Qed.

(** X6.  What the terminal projection injects for a key, in terminal mode
    with workspace folders: the value of its last enabled workspace
    override; failing that, the value the last folder in the list gives it
    through the active environment of the project matched to the folder;
    failing that, nothing. *)
Theorem terminal_projection_resolves :
  forall st folders k,
    syncMode st = terminal ->
    workspaceFolders st = Some folders ->
    collection (updateEnvironmentVariables st) !! k = resolve st folders k.
Proof.
  intros st folders k Hm Hf.
  rewrite (collection_updateEnvironmentVariables _ _ Hm Hf).
  rewrite fold_replaceEnabled_lookup, fold_injectFolder_lookup, lookup_empty.
  reflexivity.
Qed.

(** X7.  The workspace overrides need an open workspace: when no folder is
    open at all ([undefined]) the collection is left empty, overrides
    included, in either mode; with an empty list of folders the overrides,
    and only they, are injected. *)
Theorem overrides_need_a_workspace :
  forall st k,
    (workspaceFolders st = None ->
     collection (updateEnvironmentVariables st) !! k = None) /\
    (syncMode st = terminal ->
     workspaceFolders st = Some [] ->
     collection (updateEnvironmentVariables st) !! k =
       lastEnabled k (workspaceVars st)).
Proof.
  intros st k. split.
  - intros Hf. unfold updateEnvironmentVariables. rewrite Hf.
    destruct (syncMode st); apply lookup_empty.
  - intros Hm Hf. rewrite (collection_updateEnvironmentVariables _ _ Hm Hf).
    rewrite fold_replaceEnabled_lookup. cbn [fold_left].
    rewrite lookup_empty. by destruct (lastEnabled k (workspaceVars st)).
Qed.

End ResolutionFormula.

Section StoreInvariants.

Implicit Types (op : Operation) (ops : list Operation) (st : State)
  (ps : list Project) (p : Project).

Lemma In_update_first_found {A : Type} (f : A -> bool) (g : A -> A)
    (l : list A) y :
  In y (update_first f g l) ->
  In y l \/ exists x, find f l = Some x /\ y = g x.
Proof.
  induction l as [|x t IH]; [intros []|]. simpl. destruct (f x) eqn:E.
  - intros [<-|H]; [right; by exists x|left; by right].
  - intros [<-|H]; [left; by left|].
    destruct (IH H) as [?|?]; [left; by right|by right].
Qed.

Lemma find_update_first_other {A : Type} (f f' : A -> bool) (g : A -> A)
    (l : list A) :
  (forall x, f x = true -> f' x = false /\ f' (g x) = false) ->
  find f' (update_first f g l) = find f' l.
Proof.
  intros H. induction l as [|x t IH]; [reflexivity|]. simpl.
  destruct (f x) eqn:E; simpl.
  - destruct (H x E) as [-> ->]. reflexivity.
  - by rewrite IH.
Qed.

Lemma find_app_miss {A : Type} (f : A -> bool) (l : list A) x :
  f x = false -> find f (l ++ [x]) = find f l.
Proof.
  intros H. induction l as [|y t IH]; simpl; [by rewrite H|].
  destruct (f y); [reflexivity|exact IH].
Qed.

Lemma find_app_hit {A : Type} (f : A -> bool) (l : list A) x :
  find f l = None -> f x = true -> find f (l ++ [x]) = Some x.
Proof.
  intros Hl H. induction l as [|y t IH]; simpl; [by rewrite H|].
  simpl in Hl. destruct (f y); [discriminate|by apply IH].
Qed.

Lemma map_env_id_update_first (f : Environment -> bool) g es :
  (forall e, env_id (g e) = env_id e) ->
  map env_id (update_first f g es) = map env_id es.
Proof.
  intros H. induction es as [|e t IH]; [reflexivity|]. simpl.
  destruct (f e); simpl; [by rewrite H|by rewrite IH].
Qed.

Lemma activeEnvId_valid_iff p :
  activeEnvId_valid p <->
  match activeEnvId p with
  | Some a => In a (map env_id (environments p))
  | None => True
  end.
Proof.
  unfold activeEnvId_valid. destruct (activeEnvId p) as [a|]; [|done].
  rewrite in_map_iff. split; intros (e & H1 & H2); exists e; by split.
Qed.

Lemma workspaceVars_addWorkspaceVariable k v st :
  workspaceVars (addWorkspaceVariable k v st) =
  match findVar k (workspaceVars st) with
  | Some _ =>
      update_first (fun x => String.eqb (key x) k)
                   (fun x => mkVar (key x) v true) (workspaceVars st)
  | None => workspaceVars st ++ [mkVar k v true]
  end.
Proof.
  unfold addWorkspaceVariable. by rewrite updateEnvironmentVariables_fields.
Qed.

(** X8.  [addWorkspaceVariable] is an upsert by key.  Afterwards the first
    override of the key is the given value, enabled; the overrides of other
    keys are found as before; the key is appended only when it was new.
    When the keys of the overrides are distinct, terminal mode with a
    workspace open then injects the given value for the key. *)
Theorem addWorkspaceVariable_upserts :
  forall k v st,
    let st' := addWorkspaceVariable k v st in
    findVar k (workspaceVars st') = Some (mkVar k v true) /\
    (forall k', k' <> k ->
       findVar k' (workspaceVars st') = findVar k' (workspaceVars st)) /\
    map key (workspaceVars st') =
      match findVar k (workspaceVars st) with
      | Some _ => map key (workspaceVars st)
      | None => map key (workspaceVars st) ++ [k]
      end /\
    (NoDup (map key (workspaceVars st)) ->
     syncMode st = terminal ->
     is_Some (workspaceFolders st) ->
     collection st' !! k = Some v).
Proof.
  intros k v st st'.
  assert (findVar k (workspaceVars st') = Some (mkVar k v true)) as Hfound.
  { unfold st'. rewrite workspaceVars_addWorkspaceVariable. unfold findVar.
    destruct (find _ (workspaceVars st)) as [x|] eqn:E.
    - rewrite find_update_first by reflexivity. rewrite E. simpl.
      apply find_some in E as [_ E]. apply String.eqb_eq in E.
      by rewrite E.
    - apply find_app_hit; [exact E|apply String.eqb_refl]. }
  split; [exact Hfound|]. split; [|split].
  - intros k' Hne. unfold st'. rewrite workspaceVars_addWorkspaceVariable.
    unfold findVar. destruct (find _ (workspaceVars st)) as [x|].
    + apply find_update_first_other. intros y Hy. simpl.
      apply String.eqb_eq in Hy. rewrite Hy.
      split; apply String.eqb_neq; by apply not_eq_sym.
    + apply find_app_miss. simpl. apply String.eqb_neq. by apply not_eq_sym.
  - unfold st'. rewrite workspaceVars_addWorkspaceVariable.
    destruct (findVar k (workspaceVars st)).
    + by apply map_key_update_first.
    + by rewrite map_app.
  - intros Hnd Hm [folders Hf].
    pose proof (addWorkspaceVariable_keeps_keys_unique k v st Hnd) as Hnd'.
    fold st' in Hnd'.
    assert (collection st' =
            collection (updateEnvironmentVariables
                          (set_workspaceVars (workspaceVars st') st))) as ->.
    { unfold st' at 1. unfold addWorkspaceVariable.
      by rewrite <- workspaceVars_addWorkspaceVariable. }
    rewrite (collection_updateEnvironmentVariables _ folders) by done.
    rewrite fold_replaceEnabled_lookup. simpl.
    apply find_some in Hfound as [Hin _].
    rewrite (lastEnabled_agreed k (workspaceVars st') v); [reflexivity| |].
    + exists (mkVar k v true). by repeat split.
    + intros w Hw _ Hk.
      by rewrite (unique_keys_agree _ w (mkVar k v true) Hnd' Hw Hin Hk).
Qed.

(** The two ways [addProject] ends: refused, or a save of the projects with
    one more at the end, which is either bare or carries the imported
    environment, active. *)
Lemma addProject_cases now now' projectName projectPath envFilePath st :
  (is_Some (find (fun q => String.eqb (path q) projectPath) (getProjects st)) /\
   addProject now now' projectName projectPath envFilePath st =
     showMessage (ErrorMessage "Project already exists for this path.") st) \/
  (find (fun q => String.eqb (path q) projectPath) (getProjects st) = None /\
   exists newProject pre,
     addProject now now' projectName projectPath envFilePath st =
       saveProjects (getProjects st ++ [newProject]) (showMessages pre st) /\
     id newProject = now /\ name newProject = projectName /\
     path newProject = projectPath /\
     ((environments newProject = [] /\ activeEnvId newProject = None /\
       (truthy envFilePath = false \/
        exists f, envFilePath = Some f /\ files st !! f = None)) \/
      (exists f text,
         envFilePath = Some f /\ is_empty f = false /\
         files st !! f = Some text /\
         environments newProject =
           [mkEnv now' "Check-in" (fold_left parseLine (split_lines text) [])] /\
         activeEnvId newProject = Some now'))).
Proof.
  unfold addProject.
  destruct (find _ (getProjects st)) as [q|]; [left; split; [eauto|done]|].
  right. split; [reflexivity|].
  destruct envFilePath as [f|].
  - destruct (is_empty f) eqn:Hf.
    + eexists _, []. split; [reflexivity|]. repeat split. left.
      repeat split. left. simpl. by rewrite Hf.
    + change (Fs.readFile f (files st)) with (files st !! f).
      destruct (files st !! f) as [text|] eqn:Hr.
      * eexists _, [_]. split; [reflexivity|]. repeat split. right.
        by exists f, text.
      * eexists _, [_]. split; [reflexivity|]. repeat split. left.
        repeat split. right. by exists f.
  - eexists _, []. split; [reflexivity|]. repeat split. left.
    repeat split. by left.
Qed.

Lemma showMessages_fields ms st :
  showMessages ms st =
  mkState (syncMode st) (projectsCache st) (secretProjects st)
          (storedSyncMode st) (workspaceVars st) (workspaceFolders st)
          (collection st) (files st) (messages st ++ ms).
Proof.
  revert st. induction ms as [|m t IH]; intros st.
  - destruct st. simpl. by rewrite app_nil_r.
  - unfold showMessages. cbn [fold_left]. fold (showMessages t).
    rewrite IH. simpl. by rewrite <- app_assoc.
Qed.

Lemma run_workspaceVars op st :
  match op with
  | AddWorkspaceVariable _ _ => True
  | _ => workspaceVars (run op st) = workspaceVars st
  end.
Proof.
  destruct op; try exact I; cbn [run];
    try (by destruct (toggleSyncMode_fields st) as (_ & _ & _ & _ & -> & _));
    try (by rewrite updateEnvironmentVariables_fields).
  { destruct (addProject_cases now now' projectName projectPath envFilePath st)
      as [[_ ->]|(_ & q & pre & -> & _)]; [reflexivity|].
    rewrite (proj1 (proj2 (proj2 (proj2 (proj2 (saveProjects_fields _ _)))))).
    by rewrite showMessages_fields. }
  all: unfold deleteProject, renameProject, addEnvironment,
    deleteEnvironment, renameEnvironment, setActiveEnvironment, addVariable,
    deleteVariable, editVariable;
    repeat (match goal with
            | |- context [match ?x with _ => _ end] => destruct x
            end);
    cbn [workspaceVars showMessage];
    rewrite ?(proj1 (proj2 (proj2 (proj2 (proj2 (saveProjects_fields _ _))))));
    reflexivity.
Qed.

(** X9.  The keys of the workspace overrides stay distinct: if they are,
    they still are after any sequence of calls. *)
Theorem override_keys_stay_unique :
  forall ops st,
    NoDup (map key (workspaceVars st)) ->
    NoDup (map key (workspaceVars (runAll ops st))).
Proof.
  intros ops st H0.
  refine (runAll_keeps (fun s => NoDup (map key (workspaceVars s)))
            (fun _ => true) _ ops st _ H0); [|by apply forallb_forall].
  intros op s _ H. pose proof (run_workspaceVars op s) as Hrun.
  destruct op; try (by rewrite Hrun).
  cbn [run]. by apply addWorkspaceVariable_keeps_keys_unique.
Qed.

End StoreInvariants.

Section Pointers.

Implicit Types (op : Operation) (ops : list Operation) (st : State)
  (ps : list Project) (p : Project).

Lemma changeProject_valid projectId g ps :
  (forall p, In p ps -> activeEnvId_valid p) ->
  (forall p, findProject projectId ps = Some p ->
             activeEnvId_valid p -> activeEnvId_valid (g p)) ->
  forall q, In q (changeProject projectId g ps) -> activeEnvId_valid q.
Proof.
  intros Hall Hg q Hq. unfold changeProject in Hq.
  apply In_update_first_found in Hq as [Hq|(x & Hx & ->)]; [by apply Hall|].
  apply Hg; [exact Hx|]. apply Hall. by apply find_some in Hx as [Hx _].
Qed.

Lemma changeEnvironment_valid envId h p :
  (forall e, env_id (h e) = env_id e) ->
  activeEnvId_valid p -> activeEnvId_valid (changeEnvironment envId h p).
Proof.
  intros Hh. rewrite !activeEnvId_valid_iff. simpl.
  by rewrite map_env_id_update_first.
Qed.

Lemma getProjects_showMessages ms st :
  getProjects (showMessages ms st) = getProjects st.
Proof. by rewrite showMessages_fields. Qed.

(** X10.  The active pointers stay valid.  In a store where every pointer
    is unset or names an environment of its project, this still holds after
    any call, provided [setActiveEnvironment] is given an environment the
    project has; so it holds after any sequence of calls without
    [setActiveEnvironment]. *)
Theorem valid_pointers_are_kept :
  (forall op st,
      pointers_valid st -> activates_existing op st ->
      pointers_valid (run op st)) /\
  (forall ops st,
      forallb (fun op => match op with
                         | SetActiveEnvironment _ _ => false
                         | _ => true
                         end) ops = true ->
      pointers_valid st -> pointers_valid (runAll ops st)).
Proof.
  assert (forall op st,
             pointers_valid st -> activates_existing op st ->
             pointers_valid (run op st)) as Hstep.
  { intros op st Hvalid Hact. unfold pointers_valid in *.
    destruct op; cbn [run].
    - destruct (addProject_cases now now' projectName projectPath
                  envFilePath st)
        as [[_ ->]|(_ & new & pre & -> & _ & _ & _ & Hnew)];
        [exact Hvalid|].
      rewrite getProjects_saveProjects. intros q Hq.
      apply in_app_or in Hq as [Hq|[<-|[]]]; [by apply Hvalid|].
      apply activeEnvId_valid_iff.
      destruct Hnew as [(_ & -> & _)|(f & text & _ & _ & _ & -> & ->)];
        [exact I|by left].
    - unfold deleteProject. rewrite getProjects_saveProjects. intros q Hq.
      apply list_elem_of_In, list_elem_of_filter in Hq as [_ Hq].
      by apply Hvalid, list_elem_of_In.
    - unfold renameProject. destruct (findProject _ _); [|exact Hvalid].
      rewrite getProjects_saveProjects.
      apply changeProject_valid; [exact Hvalid|]. by intros q _ Hq.
    - unfold addEnvironment. destruct (findProject _ _); [|exact Hvalid].
      rewrite getProjects_saveProjects.
      apply changeProject_valid; [exact Hvalid|]. intros q _.
      rewrite !activeEnvId_valid_iff. simpl.
      destruct (activeEnvId q); [|done]. rewrite map_app. intros Hq.
      apply in_or_app. by left.
    - unfold deleteEnvironment. destruct (findProject _ _); [|exact Hvalid].
      rewrite getProjects_saveProjects.
      apply changeProject_valid; [exact Hvalid|]. intros q _.
      unfold activeEnvId_valid. simpl.
      destruct (activeEnvId q) as [a|]; [|done].
      destruct (String.eqb_spec a envId) as [->|Hne]; [done|].
      intros (e & He & Hid). exists e. split; [|exact Hid].
      apply list_elem_of_In, list_elem_of_filter.
      split; [|by apply list_elem_of_In].
      rewrite Hid. apply String.eqb_neq in Hne. by rewrite Hne.
    - unfold renameEnvironment. destruct (findProject _ _) as [q|];
        [|exact Hvalid].
      destruct (findEnvironment _ q); [|exact Hvalid].
      rewrite getProjects_saveProjects.
      apply changeProject_valid; [exact Hvalid|]. intros r _.
      by apply changeEnvironment_valid.
    - unfold setActiveEnvironment.
      destruct (findProject _ _) as [q|] eqn:Hq; [|exact Hvalid].
      change (getProjects (showMessage ?m ?s)) with (getProjects s).
      rewrite getProjects_saveProjects.
      apply changeProject_valid; [exact Hvalid|]. intros r Hr _.
      unfold activeEnvId_valid. simpl.
      rewrite Hq in Hr. injection Hr as <-.
      destruct (Hact q Hq) as [e He].
      apply find_some in He as [He Hid]. apply String.eqb_eq in Hid.
      by exists e.
    - unfold addVariable. destruct (findProject _ _) as [q|];
        [|exact Hvalid].
      destruct (findEnvironment _ q); [|exact Hvalid].
      rewrite getProjects_saveProjects.
      apply changeProject_valid; [exact Hvalid|]. intros r _.
      by apply changeEnvironment_valid.
    - unfold deleteVariable. destruct (findProject _ _) as [q|];
        [|exact Hvalid].
      destruct (findEnvironment _ q); [|exact Hvalid].
      rewrite getProjects_saveProjects.
      apply changeProject_valid; [exact Hvalid|]. intros r _.
      by apply changeEnvironment_valid.
    - unfold editVariable. destruct (findProject _ _) as [q|];
        [|exact Hvalid].
      destruct (findEnvironment _ q) as [e|]; [|exact Hvalid].
      destruct (findVar _ (variables e)); [|exact Hvalid].
      rewrite getProjects_saveProjects.
      apply changeProject_valid; [exact Hvalid|]. intros r _.
      by apply changeEnvironment_valid.
    - unfold addWorkspaceVariable.
      by rewrite updateEnvironmentVariables_fields.
    - unfold getProjects.
      by destruct (toggleSyncMode_fields st) as (_ & _ & -> & _).
    - by rewrite updateEnvironmentVariables_fields. }
  split; [exact Hstep|].
  intros ops st Hops H0.
  refine (runAll_keeps pointers_valid _ _ ops st Hops H0).
  intros op s Hop Hs. apply Hstep; [exact Hs|]. by destruct op.
Qed.

End Pointers.

Section SmallFacts.

Implicit Types (st : State) (p : Project).

(** X11.  The terminal projection starts afresh each time: what it leaves
    does not depend on the collection it finds, and running it again
    changes nothing. *)
Theorem terminal_projection_starts_afresh :
  forall st c,
    updateEnvironmentVariables (set_collection c st) =
      updateEnvironmentVariables st /\
    updateEnvironmentVariables (updateEnvironmentVariables st) =
      updateEnvironmentVariables st.
Proof.
  intros st c.
  assert (forall c', updateEnvironmentVariables (set_collection c' st) =
                     updateEnvironmentVariables st) as H.
  { intros c'. unfold updateEnvironmentVariables. simpl.
    destruct (syncMode st); [|reflexivity].
    by destruct (workspaceFolders st). }
  split; [apply H|].
  rewrite (updateEnvironmentVariables_fields st) at 1. apply H.
Qed.

(** X12.  A toggle flips the mode, stores the new mode as the preference
    and leaves the projects, their stored copy and the overrides as they
    are; two toggles give the mode back. *)
Theorem toggle_flips_and_stores_the_mode :
  forall st,
    syncMode (toggleSyncMode st) <> syncMode st /\
    storedSyncMode (toggleSyncMode st) = Some (syncMode (toggleSyncMode st)) /\
    syncMode (toggleSyncMode (toggleSyncMode st)) = syncMode st /\
    projectsCache (toggleSyncMode st) = projectsCache st /\
    secretProjects (toggleSyncMode st) = secretProjects st /\
    workspaceVars (toggleSyncMode st) = workspaceVars st.
Proof.
  intros st.
  destruct (toggleSyncMode_fields st) as (Hm & Hs & Hc & Hp & Hw & _).
  destruct (toggleSyncMode_fields (toggleSyncMode st)) as (Hm2 & _).
  cbv zeta in *. rewrite Hm2, Hm, Hs.
  repeat split; try done; by destruct (syncMode st).
Qed.

Lemma restoreAll_without_backups ps st :
  (forall p, In p ps -> files st !! bakPath p = None) ->
  restoreAll ps st = st.
Proof.
  revert st. induction ps as [|q t IH]; intros st H; [reflexivity|].
  unfold restoreAll. cbn [fold_left]. fold (restoreAll t).
  rewrite (restoreEnvFile_spec q st), (H q) by (by left).
  apply IH. intros p Hp. apply H. by right.
Qed.

(** X13.  A restore is done once: restoring a project again changes
    nothing, and after a toggle back to terminal mode no project of the
    store has a backup left, so that reverting all projects again changes
    nothing. *)
Theorem restore_is_idempotent :
  (forall p st,
      restoreEnvFile p (restoreEnvFile p st) = restoreEnvFile p st) /\
  (forall st,
      syncMode st = file ->
      (forall p, In p (getProjects st) ->
                 files (toggleSyncMode st) !! bakPath p = None) /\
      revertAllActiveProjectsFromFile (toggleSyncMode st) = toggleSyncMode st).
Proof.
  split.
  - intros p st. rewrite (restoreEnvFile_spec p (restoreEnvFile p st)).
    by rewrite restoreEnvFile_lookup_bak.
  - intros st Hm.
    destruct (toggleSyncMode_to_terminal st Hm) as (_ & Hc & Hf).
    assert (forall p, In p (getProjects st) ->
                      files (toggleSyncMode st) !! bakPath p = None) as Hno.
    { intros p Hp. rewrite Hf. by apply restoreAll_removes_backup. }
    split; [exact Hno|]. unfold revertAllActiveProjectsFromFile.
    assert (getProjects (toggleSyncMode st) = getProjects st) as ->
      by (unfold getProjects; by rewrite Hc).
    fold (restoreAll (getProjects st) (toggleSyncMode st)).
    by apply restoreAll_without_backups.
Qed.

End SmallFacts.

(** ** The file dialect: import and export of a line *)

Section Dialect.

Implicit Types (s k v : string) (c : ascii).

Lemma trimStart_head s c r :
  trimStart s = String c r -> is_white_space c = false.
Proof.
  induction s as [|d t IH]; [discriminate|]. cbn [trimStart].
  destruct (is_white_space d) eqn:E; [exact IH|]. by intros [= <- _].
Qed.

Lemma trimEnd_head c r :
  is_white_space c = false -> trimEnd (String c r) = String c (trimEnd r).
Proof. intros H. cbn [trimEnd]. by rewrite H. Qed.

Lemma trim_head s c r : trim s = String c r -> is_white_space c = false.
Proof.
  unfold trim. destruct (trimStart s) as [|d t] eqn:E; [discriminate|].
  pose proof (trimStart_head _ _ _ E) as Hd.
  rewrite (trimEnd_head _ _ Hd). by intros [= <- _].
Qed.

Lemma trimEnd_idemp s : trimEnd (trimEnd s) = trimEnd s.
Proof.
  induction s as [|c r IH]; [reflexivity|]. cbn [trimEnd].
  destruct (is_white_space c && is_empty (trimEnd r)) eqn:E; [reflexivity|].
  cbn [trimEnd]. by rewrite IH, E.
Qed.

Lemma trim_idemp s : trim (trim s) = trim s.
Proof.
  destruct (trim s) as [|c r] eqn:E; [reflexivity|].
  pose proof (trim_head _ _ _ E) as Hc.
  unfold trim at 1. cbn [trimStart]. rewrite Hc, <- E.
  unfold trim. apply trimEnd_idemp.
Qed.

Lemma trimEnd_last s c :
  lastChar s = Some c -> is_white_space c = false -> trimEnd s = s.
Proof.
  intros Hl Hc. induction s as [|d r IH]; [reflexivity|].
  cbn [trimEnd]. destruct r as [|e r'].
  - injection Hl as ->. by rewrite Hc.
  - rewrite IH by exact Hl. by rewrite andb_false_r.
Qed.

Lemma trim_fixed s c r d :
  s = String c r -> is_white_space c = false ->
  lastChar s = Some d -> is_white_space d = false -> trim s = s.
Proof.
  intros -> Hc Hl Hd. unfold trim. cbn [trimStart]. rewrite Hc.
  by apply (trimEnd_last _ d).
Qed.

Lemma contains_trimStart c s :
  contains c s = false -> contains c (trimStart s) = false.
Proof.
  induction s as [|d r IH]; [done|]. cbn [trimStart].
  destruct (is_white_space d); [|done].
  cbn [contains]. intros H. apply orb_false_elim in H as [_ H]. by apply IH.
Qed.

Lemma contains_trimEnd c s :
  contains c s = false -> contains c (trimEnd s) = false.
Proof.
  induction s as [|d r IH]; [done|]. cbn [trimEnd contains].
  intros H. apply orb_false_elim in H as [H1 H2].
  destruct (is_white_space d && is_empty (trimEnd r)); [done|].
  cbn [contains]. by rewrite H1, IH.
Qed.

Lemma cut_at_eq_Some s k v :
  cut_at_eq s = Some (k, v) ->
  s = k +:+ String char_eq v /\ contains char_eq k = false.
Proof.
  revert k. induction s as [|c r IH]; intros k; [discriminate|].
  cbn [cut_at_eq]. destruct (Ascii.eqb_spec c char_eq) as [->|Hne].
  - by intros [= <- <-].
  - destruct (cut_at_eq r) as [[k' v']|]; [|discriminate].
    intros [= <- <-]. destruct (IH k' eq_refl) as [-> Hk]. split; [done|].
    cbn [contains]. rewrite Hk. by apply Ascii.eqb_neq in Hne as ->.
Qed.

Lemma cut_at_eq_append k v :
  contains char_eq k = false ->
  cut_at_eq (k +:+ String char_eq v) = Some (k, v).
Proof.
  induction k as [|c r IH]; [reflexivity|]. cbn [contains].
  intros H. apply orb_false_elim in H as [H1 H2].
  change (String c r +:+ String char_eq v)
    with (String c (r +:+ String char_eq v)).
  cbn [cut_at_eq]. by rewrite H1, IH.
Qed.

Lemma has_line_terminator_append a b :
  has_line_terminator (a +:+ b) =
  has_line_terminator a || has_line_terminator b.
Proof.
  induction a as [|c r IH]; [reflexivity|].
  change (String c r +:+ b) with (String c (r +:+ b)).
  cbn [has_line_terminator]. by rewrite IH, orb_assoc.
Qed.

Lemma has_line_terminator_escape v :
  has_line_terminator (escape_quotes v) = has_line_terminator v.
Proof.
  induction v as [|c r IH]; [reflexivity|]. cbn [escape_quotes].
  destruct (Ascii.eqb_spec c char_quote) as [->|_];
    cbn [has_line_terminator]; by rewrite IH.
Qed.

Lemma removeLast_append a c : removeLast (a +:+ str1 c) = a.
Proof.
  induction a as [|d r IH]; [reflexivity|].
  change (String d r +:+ str1 c) with (String d (r +:+ str1 c)).
  cbn [removeLast]. rewrite IH. by destruct r.
Qed.

Lemma escape_quotes_plain v :
  contains char_quote v = false -> escape_quotes v = v.
Proof.
  induction v as [|c r IH]; [done|]. cbn [contains escape_quotes].
  intros H. apply orb_false_elim in H as [H1 H2]. by rewrite H1, IH.
Qed.

Lemma escape_quotes_length v :
  String.length v <= String.length (escape_quotes v) /\
  (contains char_quote v = true ->
   String.length v < String.length (escape_quotes v)).
Proof.
  induction v as [|c r [IH1 IH2]]; [split; [done|discriminate]|].
  cbn [contains escape_quotes].
  destruct (Ascii.eqb c char_quote); cbn [String.length orb].
  - split; [lia|intros _; lia].
  - split; [lia|]. intros H. specialize (IH2 H). lia.
Qed.

(** What [parseLine] adds for a line, when it adds anything. *)
Lemma parseLine_cases vars line :
  parseLine vars line = vars \/
  exists k0 v0 v',
    match_assignment (trim line) = Some (k0, v0) /\
    startsWithChar char_hash (trim line) = false /\
    parseLine vars line = vars ++ [mkVar (trim k0) v' true].
Proof.
  unfold parseLine.
  destruct (is_empty (trim line) || startsWithChar char_hash (trim line))
    eqn:E; [by left|].
  apply orb_false_elim in E as [_ Hhash].
  destruct (match_assignment (trim line)) as [[k0 v0]|]; [|by left].
  right. by eexists k0, v0, _.
Qed.

Lemma imported_key_ok line k0 v0 :
  match_assignment (trim line) = Some (k0, v0) ->
  startsWithChar char_hash (trim line) = false ->
  key_ok (trim k0) = true.
Proof.
  unfold match_assignment. intros Hm Hhash.
  destruct (cut_at_eq (trim line)) as [[k1 v1]|] eqn:Hcut; [|discriminate].
  destruct (is_empty k1 || has_line_terminator v1) eqn:E; [discriminate|].
  injection Hm as -> ->. apply orb_false_elim in E as [Hne _].
  destruct (cut_at_eq_Some _ _ _ Hcut) as [Hline Hk].
  destruct k0 as [|c r]; [discriminate|].
  assert (is_white_space c = false) as Hc.
  { apply (trim_head line c (r +:+ String char_eq v0)). by rewrite Hline. }
  assert (trim (String c r) = String c (trimEnd r)) as Htrim.
  { unfold trim. cbn [trimStart]. rewrite Hc. by apply trimEnd_head. }
  unfold key_ok. rewrite trim_idemp, String.eqb_refl, Htrim. simpl.
  rewrite Hline in Hhash. simpl in Hhash. rewrite Hhash.
  cbn [contains] in Hk. apply orb_false_elim in Hk as [Hk1 Hk2].
  by rewrite Hk1, (contains_trimEnd _ _ Hk2).
Qed.

(** X14.  Every variable an import reads is enabled and has a key the file
    dialect can carry: not empty, trimmed, without [=] and not starting
    with [#]. *)
Theorem imported_variables_are_well_formed :
  forall text (x : EnvVariable),
    In x (importVariables text) ->
    enabled x = true /\ key_ok (key x) = true.
Proof.
  intros text. unfold importVariables.
  assert (forall lines vars,
             (forall x : EnvVariable,
                 In x vars -> enabled x = true /\ key_ok (key x) = true) ->
             forall x : EnvVariable,
               In x (fold_left parseLine lines vars) ->
               enabled x = true /\ key_ok (key x) = true) as H.
  { induction lines as [|l t IH]; intros vars Hvars; [exact Hvars|].
    cbn [fold_left]. apply IH.
    destruct (parseLine_cases vars l) as [->|(k0 & v0 & v' & Hm & Hh & ->)];
      [exact Hvars|].
    intros x Hx. apply in_app_or in Hx as [Hx|[<-|[]]]; [by apply Hvars|].
    split; [reflexivity|]. by apply (imported_key_ok l k0 v0). }
  apply H. intros x [].
Qed.

(** X15.  Export then import of one line.  For a key the dialect can carry
    and a value without line terminators, the line [writeEnvFile] writes
    for the pair is read back by the import as one enabled variable of the
    same key whose value is the escaped value: the value itself when it has
    no double quote, a longer text otherwise, since the import strips the
    enclosing quotes but does not undo the escaping. *)
Theorem exported_line_is_imported :
  forall k v vars,
    key_ok k = true ->
    has_line_terminator v = false ->
    parseLine vars (assignment_line k v) =
      vars ++ [mkVar k (escape_quotes v) true] /\
    (contains char_quote v = false -> escape_quotes v = v) /\
    (contains char_quote v = true -> escape_quotes v <> v).
Proof.
  intros k v vars Hk Hv. split; [|split].
  - unfold key_ok in Hk.
    apply andb_prop in Hk as [Hk Hhash]. apply andb_prop in Hk as [Hk Heq].
    apply andb_prop in Hk as [Hne Htrim].
    apply negb_true_iff in Hhash, Heq. apply String.eqb_eq in Htrim.
    destruct k as [|c r]; [discriminate|].
    assert (is_white_space c = false) as Hc
      by (by apply (trim_head (String c r) c r)).
    set (rest := str1 char_quote +:+ escape_quotes v +:+ str1 char_quote).
    assert (lastChar rest = Some char_quote) as Hlast.
    { unfold rest.
      change (str1 char_quote +:+ escape_quotes v +:+ str1 char_quote)
        with (String char_quote (escape_quotes v) +:+ str1 char_quote).
      unfold str1. by rewrite lastChar_append. }
    assert (trim rest = rest) as Hrest
      by (by apply (trim_fixed rest char_quote
                      (escape_quotes v +:+ str1 char_quote) char_quote)).
    assert (assignment_line (String c r) v =
            String c r +:+ String char_eq rest) as Hline by reflexivity.
    assert (trim (assignment_line (String c r) v) =
            assignment_line (String c r) v) as Htl.
    { apply (trim_fixed _ c (r +:+ String char_eq rest) char_quote);
        [by rewrite Hline|exact Hc| |reflexivity].
      rewrite Hline, lastChar_append, <- Hlast. unfold rest.
      reflexivity. }
    assert (has_line_terminator rest = false) as Hterm.
    { unfold rest. rewrite !has_line_terminator_append.
      by rewrite has_line_terminator_escape, Hv. }
    assert (match_assignment (assignment_line (String c r) v) =
            Some (String c r, rest)) as Hmatch.
    { unfold match_assignment. rewrite Hline, (cut_at_eq_append _ _ Heq).
      by rewrite Hterm. }
    assert (quotedWith char_quote rest = true) as Hquoted.
    { unfold quotedWith, endsWithChar. by rewrite Hlast. }
    assert (stripEnds rest = escape_quotes v) as Hstrip.
    { unfold rest.
      change (str1 char_quote +:+ escape_quotes v +:+ str1 char_quote)
        with (String char_quote (escape_quotes v +:+ str1 char_quote)).
      unfold stripEnds.
      destruct (escape_quotes v +:+ str1 char_quote) eqn:E.
      - destruct (escape_quotes v); discriminate E.
      - rewrite <- E. apply removeLast_append. }
    unfold parseLine. rewrite Htl, Hmatch.
    assert (is_empty (assignment_line (String c r) v) = false) as ->
      by reflexivity.
    assert (startsWithChar char_hash (assignment_line (String c r) v) = false)
      as -> by exact Hhash.
    cbv beta iota zeta. cbn [orb]. rewrite Htrim, Hrest, Hquoted.
    cbn [orb]. by rewrite Hstrip.
  - apply escape_quotes_plain.
  - intros Hq E. destruct (escape_quotes_length v) as [_ H].
    specialize (H Hq). rewrite E in H. lia.
Qed.

End Dialect.

(** ** Projects, environments and variables *)

Section StoreOperations.

Implicit Types (st : State) (ps : list Project) (p : Project)
  (e : Environment).

Lemma update_first_twice {A : Type} (f : A -> bool) (g1 g2 : A -> A)
    (l : list A) :
  (forall x, f (g1 x) = f x) ->
  update_first f g2 (update_first f g1 l) =
  update_first f (fun x => g2 (g1 x)) l.
Proof.
  intros H. induction l as [|x t IH]; [reflexivity|]. simpl.
  destruct (f x) eqn:E; simpl; [by rewrite H, E|by rewrite E, IH].
Qed.

Lemma find_changed projectId envId h ps p e :
  (forall x, env_id (h x) = env_id x) ->
  findProject projectId ps = Some p ->
  findEnvironment envId p = Some e ->
  findProject projectId (changeProject projectId (changeEnvironment envId h) ps)
    = Some (changeEnvironment envId h p) /\
  findEnvironment envId (changeEnvironment envId h p) = Some (h e).
Proof.
  intros Hh Hp He. unfold findProject, changeProject, findEnvironment in *.
  rewrite find_update_first by reflexivity. rewrite Hp. split; [reflexivity|].
  simpl. rewrite find_update_first by (intros x; by rewrite Hh).
  by rewrite He.
Qed.

Lemma filter_app_fresh (f : EnvVariable -> bool) vars x :
  find f vars = None -> f x = true ->
  filter (fun y => negb (f y)) (vars ++ [x]) = vars.
Proof.
  intros Hnone Hx. rewrite filter_app, (filter_none_found _ _ Hnone).
  rewrite filter_cons_False by (rewrite Hx; simpl; by intros []).
  rewrite filter_nil. apply app_nil_r.
Qed.

(** X16.  [addProject] with a path no project has appends one project and
    saves; the projects that were there keep their place.  When a file is
    given and can be read, the new project has one environment called
    Check-in, holding the imported variables, and points at it.  When the
    file cannot be read the project is added all the same, without
    environment, after the error is shown. *)
Theorem addProject_appends_a_project :
  forall now now' projectName projectPath envFilePath st,
    find (fun q => String.eqb (path q) projectPath) (getProjects st) = None ->
    let st' := addProject now now' projectName projectPath envFilePath st in
    exists new,
      getProjects st' = getProjects st ++ [new] /\
      secretProjects st' = Some (getProjects st ++ [new]) /\
      id new = now /\ name new = projectName /\ path new = projectPath /\
      ((exists f text,
           envFilePath = Some f /\ is_empty f = false /\
           files st !! f = Some text /\
           environments new =
             [mkEnv now' "Check-in" (importVariables text)] /\
           activeEnvId new = Some now') \/
       (environments new = [] /\ activeEnvId new = None /\
        ((truthy envFilePath = false /\ messages st' = messages st) \/
         (exists f,
             envFilePath = Some f /\ files st !! f = None /\
             messages st' =
               messages st ++
               [ErrorMessage ("Failed to read .env file: " +:+
                              error_text f)])))).
Proof.
  intros now now' projectName projectPath envFilePath st Hfresh st'.
  unfold st', addProject. rewrite Hfresh.
  destruct envFilePath as [f|].
  - destruct (is_empty f) eqn:Hf.
    + eexists. rewrite getProjects_saveProjects.
      destruct (saveProjects_fields
                  (getProjects st ++
                   [mkProject now projectName projectPath [] None]) st)
        as (_ & -> & _ & _ & _ & _ & ->).
      repeat split. right. repeat split. left. simpl. by rewrite Hf.
    + change (Fs.readFile f (files st)) with (files st !! f).
      destruct (files st !! f) as [text|] eqn:Hr.
      * eexists. rewrite getProjects_saveProjects.
        rewrite (proj1 (proj2 (saveProjects_fields _ _))).
        repeat split. left. by exists f, text.
      * eexists. rewrite getProjects_saveProjects.
        rewrite (proj1 (proj2 (saveProjects_fields _ _))).
        rewrite (proj2 (proj2 (proj2 (proj2 (proj2 (proj2
                   (saveProjects_fields _ _))))))).
        repeat split. right. repeat split. right. by exists f.
  - eexists. rewrite getProjects_saveProjects.
    destruct (saveProjects_fields
                (getProjects st ++
                 [mkProject now projectName projectPath [] None]) st)
      as (_ & -> & _ & _ & _ & _ & ->).
    repeat split. right. repeat split. by left.
Qed.

(** X17.  [deleteProject] removes every project of the given identifier and
    no other, and doing it again changes no project.  It deletes no file
    and restores nothing: a backup that exists holds the same content
    afterwards, in either mode. *)
Theorem deleteProject_removes_the_project_only :
  forall projectId st,
    let st' := deleteProject projectId st in
    findProject projectId (getProjects st') = None /\
    (forall q, id q <> projectId ->
               (In q (getProjects st') <-> In q (getProjects st))) /\
    getProjects (deleteProject projectId st') = getProjects st' /\
    (forall k, is_Some (files st !! k) -> is_Some (files st' !! k)) /\
    (forall p c, files st !! bakPath p = Some c ->
                 files st' !! bakPath p = Some c).
Proof.
  intros projectId st st'. unfold st', deleteProject.
  rewrite !getProjects_saveProjects.
  assert (forall q,
             In q (filter (fun r => negb (String.eqb (id r) projectId))
                          (getProjects st)) <->
             (id q <> projectId /\ In q (getProjects st))) as Hin.
  { intros q. rewrite <- !list_elem_of_In, list_elem_of_filter.
    destruct (String.eqb_spec (id q) projectId); simpl; split;
      intros [? ?]; split; done. }
  split; [|split; [|split; [|split]]].
  - unfold findProject.
    match goal with |- ?x = None => destruct x as [q|] eqn:E end;
      [|reflexivity].
    apply find_some in E as [Hq Hid]. apply Hin in Hq as [Hne _].
    apply String.eqb_eq in Hid. contradiction.
  - intros q Hne. rewrite Hin. split; [by intros [_ ?]|by split].
  - clear Hin. induction (getProjects st) as [|q t IH]; [reflexivity|].
    rewrite filter_cons. case_decide as Hk; [|exact IH].
    rewrite filter_cons_True by exact Hk. by rewrite IH.
  - intros k Hk. rewrite saveProjects_files.
    destruct (syncMode st); [exact Hk|]. by apply writeAll_keeps_file.
  - intros p c Hb. rewrite saveProjects_files.
    destruct (syncMode st); [exact Hb|]. by apply writeAll_keeps_backup.
Qed.

(** X18.  [deleteVariable] removes every variable of the given key from
    the environment, and keeps the others in their order; it undoes an
    [addVariable] of a key the environment did not have. *)
Theorem deleteVariable_removes_the_key :
  forall projectId envId k st p e,
    findProject projectId (getProjects st) = Some p ->
    findEnvironment envId p = Some e ->
    (exists p' e',
        findProject projectId
          (getProjects (deleteVariable projectId envId k st)) = Some p' /\
        findEnvironment envId p' = Some e' /\
        variables e' =
          filter (fun x => negb (String.eqb (key x) k)) (variables e) /\
        findVar k (variables e') = None) /\
    (forall v,
        findVar k (variables e) = None ->
        getProjects
          (deleteVariable projectId envId k
             (addVariable projectId envId k v st)) = getProjects st).
Proof.
  intros projectId envId k st p e Hp He. split.
  - unfold deleteVariable. rewrite Hp, He, getProjects_saveProjects.
    destruct (find_changed projectId envId
                (fun x => mkEnv (env_id x) (env_name x)
                            (filter (fun y => negb (String.eqb (key y) k))
                                    (variables x)))
                (getProjects st) p e) as [Hp' He']; try done.
    eexists _, _. split; [exact Hp'|]. split; [exact He'|]. simpl.
    split; [reflexivity|]. unfold findVar.
    destruct (find _ (filter _ (variables e))) as [x|] eqn:E; [|reflexivity].
    apply find_some in E as [Hx Hk].
    apply list_elem_of_In, list_elem_of_filter in Hx as [Hx _].
    rewrite Hk in Hx. destruct Hx.
  - intros v Hfresh. unfold addVariable. rewrite Hp, He.
    set (add := fun x => mkEnv (env_id x) (env_name x)
                           (variables x ++ [mkVar k v true])).
    destruct (find_changed projectId envId add (getProjects st) p e)
      as [Hp' He']; try done.
    unfold deleteVariable. rewrite getProjects_saveProjects, Hp', He'.
    rewrite getProjects_saveProjects. unfold changeProject.
    rewrite update_first_twice by reflexivity.
    apply (update_first_same _ _ _ p Hp).
    unfold changeEnvironment. simpl.
    rewrite update_first_twice by reflexivity.
    unfold findEnvironment in He. rewrite (update_first_same _ _ _ e He).
    + by destruct p.
    + unfold add. simpl. unfold findVar in Hfresh.
      rewrite (filter_app_fresh _ _ _ Hfresh) by apply String.eqb_refl.
      by destruct e.
Qed.

End StoreOperations.

Section Renames.

Implicit Types (st : State) (ps : list Project) (p a b : Project)
  (c : gmap string string).

Lemma map_update_first {A B : Type} (h : A -> B) (f : A -> bool) (g : A -> A)
    (l : list A) :
  (forall x, h (g x) = h x) -> map h (update_first f g l) = map h l.
Proof.
  intros H. induction l as [|x t IH]; [reflexivity|]. simpl.
  destruct (f x); simpl; [by rewrite H|by rewrite IH].
Qed.

Lemma find_update_first_proj {A B : Type} (f f2 : A -> bool) (g : A -> A)
    (proj : A -> B) (l : list A) :
  (forall x, f (g x) = f x) ->
  (forall x, proj (g x) = proj x) ->
  option_map proj (find f (update_first f2 g l)) = option_map proj (find f l).
Proof.
  intros Hf Hp. induction l as [|x t IH]; [reflexivity|]. simpl.
  destruct (f2 x); simpl.
  - rewrite Hf. destruct (f x); simpl; [by rewrite Hp|reflexivity].
  - destruct (f x); [reflexivity|exact IH].
Qed.

Lemma same_projection_update_first (f : Project -> bool) g ps :
  (forall x, same_projection (g x) x) ->
  Forall2 same_projection (update_first f g ps) ps.
Proof.
  intros H. induction ps as [|x t IH]; [constructor|]. simpl.
  destruct (f x).
  - constructor; [apply H|]. clear. induction t; by repeat constructor.
  - constructor; [by repeat split|exact IH].
Qed.

Lemma same_projection_matchProject ps' ps w :
  Forall2 same_projection ps' ps ->
  match matchProject ps' w, matchProject ps w with
  | Some a, Some b => same_projection a b
  | None, None => True
  | _, _ => False
  end.
Proof.
  unfold matchProject. induction 1 as [|a b t' t Hab _ IH]; [exact I|].
  simpl. destruct Hab as (Hpath & Hrest). rewrite Hpath.
  destruct (String.eqb _ _); [by split|exact IH].
Qed.

Lemma same_projection_injectFolder ps' ps c w :
  Forall2 same_projection ps' ps ->
  injectFolder ps' c w = injectFolder ps c w.
Proof.
  intros H. pose proof (same_projection_matchProject ps' ps w H) as Hm.
  unfold injectFolder.
  destruct (matchProject ps' w) as [a|], (matchProject ps w) as [b|];
    try done.
  destruct Hm as (_ & _ & Hv).
  destruct (activeEnvironment a), (activeEnvironment b); try done.
  simpl in Hv. by injection Hv as ->.
Qed.

Lemma same_projection_collection ps' ps st :
  Forall2 same_projection ps' ps ->
  collection (updateEnvironmentVariables (set_projects ps' st)) =
  collection (updateEnvironmentVariables (set_projects ps st)).
Proof.
  intros H. unfold updateEnvironmentVariables. simpl.
  destruct (syncMode st); [|reflexivity].
  destruct (workspaceFolders st) as [folders|]; [|reflexivity]. simpl.
  f_equal. change (getProjects (set_projects ps' st)) with ps'.
  change (getProjects (set_projects ps st)) with ps.
  generalize (∅ : gmap string string).
  induction folders as [|w t IH]; intros c; [reflexivity|].
  cbn [fold_left]. by rewrite (same_projection_injectFolder ps' ps c w H), IH.
Qed.

Lemma same_projection_writeEnvFile a b st st' :
  same_projection a b -> files st = files st' ->
  files (writeEnvFile a st) = files (writeEnvFile b st').
Proof.
  intros (Hpath & _ & Hv) Hf. rewrite !writeEnvFile_files, Hf.
  unfold envPath, bakPath. rewrite Hpath.
  destruct (activeEnvironment a), (activeEnvironment b); try done.
  simpl in Hv. by injection Hv as ->.
Qed.

Lemma same_projection_writeAll ps' ps st st' :
  Forall2 same_projection ps' ps -> files st = files st' ->
  files (writeAll ps' st) = files (writeAll ps st').
Proof.
  intros H. revert st st'.
  induction H as [|a b t' t Hab _ IH]; intros st st' Hf; [exact Hf|].
  unfold writeAll. cbn [fold_left]. fold (writeAll t') (writeAll t).
  rewrite (proj1 (proj2 Hab)).
  destruct (truthy (activeEnvId b)); apply IH; [|exact Hf].
  by apply same_projection_writeEnvFile.
Qed.

Lemma same_projection_saveProjects ps' st :
  Forall2 same_projection ps' (getProjects st) ->
  collection (saveProjects ps' st) =
    collection (saveProjects (getProjects st) st) /\
  files (saveProjects ps' st) = files (saveProjects (getProjects st) st).
Proof.
  intros H. split.
  - unfold saveProjects. simpl. destruct (syncMode st).
    + by apply same_projection_collection.
    + reflexivity.
  - rewrite !saveProjects_files. destruct (syncMode st); [reflexivity|].
    by apply same_projection_writeAll.
Qed.

Lemma same_projection_changeEnvironment envId h p :
  (forall e, env_id (h e) = env_id e) ->
  (forall e, variables (h e) = variables e) ->
  same_projection (changeEnvironment envId h p) p.
Proof.
  intros Hid Hv. repeat split. unfold activeEnvironment. simpl.
  destruct (activeEnvId p) as [a|]; [|reflexivity].
  destruct (is_empty a); [reflexivity|].
  apply find_update_first_proj; [|exact Hv]. intros e. by rewrite Hid.
Qed.

(** X19.  Renaming changes names only.  [renameProject] on a project of
    the store gives the first project of that identifier the new name and
    keeps every identifier, path, environment list and active pointer;
    [renameEnvironment] on an environment the project has keeps every
    identifier, path, pointer and the identifiers and variables of all
    environments.  Either one leaves the collection and the files exactly
    as a save of the unchanged projects would. *)
Theorem renames_change_names_only :
  (forall projectId newName st,
      is_Some (findProject projectId (getProjects st)) ->
      let st' := renameProject projectId newName st in
      (exists p', findProject projectId (getProjects st') = Some p' /\
                  name p' = newName) /\
      map id (getProjects st') = map id (getProjects st) /\
      map path (getProjects st') = map path (getProjects st) /\
      map environments (getProjects st') = map environments (getProjects st) /\
      map activeEnvId (getProjects st') = map activeEnvId (getProjects st) /\
      collection st' = collection (saveProjects (getProjects st) st) /\
      files st' = files (saveProjects (getProjects st) st)) /\
  (forall projectId envId newName st p,
      findProject projectId (getProjects st) = Some p ->
      is_Some (findEnvironment envId p) ->
      let st' := renameEnvironment projectId envId newName st in
      map id (getProjects st') = map id (getProjects st) /\
      map path (getProjects st') = map path (getProjects st) /\
      map activeEnvId (getProjects st') = map activeEnvId (getProjects st) /\
      map (fun q => map env_id (environments q)) (getProjects st') =
        map (fun q => map env_id (environments q)) (getProjects st) /\
      map (fun q => map variables (environments q)) (getProjects st') =
        map (fun q => map variables (environments q)) (getProjects st) /\
      collection st' = collection (saveProjects (getProjects st) st) /\
      files st' = files (saveProjects (getProjects st) st)).
Proof.
  split.
  - intros projectId newName st [p Hp] st'. unfold st', renameProject.
    rewrite Hp, getProjects_saveProjects. unfold changeProject.
    split; [|split; [|split; [|split; [|split]]]].
    + unfold findProject in *. rewrite find_update_first by reflexivity.
      rewrite Hp. by eexists.
    + by apply map_update_first.
    + by apply map_update_first.
    + by apply map_update_first.
    + by apply map_update_first.
    + apply same_projection_saveProjects, same_projection_update_first.
      by intros x.
  - intros projectId envId newName st p Hp [e He] st'.
    unfold st', renameEnvironment.
    rewrite Hp, He, getProjects_saveProjects. unfold changeProject.
    split; [|split; [|split; [|split; [|split]]]].
    + by apply map_update_first.
    + by apply map_update_first.
    + by apply map_update_first.
    + apply map_update_first. intros x. simpl.
      by apply map_update_first.
    + apply map_update_first. intros x. simpl.
      by apply map_update_first.
    + apply same_projection_saveProjects, same_projection_update_first.
      intros x. by apply same_projection_changeEnvironment.
Qed.

End Renames.

(** ** Saving twice in file mode *)

Section SaveTwice.

Implicit Types (s k v line : string) (c : ascii) (vars envVars : list EnvVariable)
  (x : EnvVariable) (lines : list string).

Lemma contains_append c a b :
  contains c (a +:+ b) = contains c a || contains c b.
Proof.
  induction a as [|d r IH]; [reflexivity|].
  change (String d r +:+ b) with (String d (r +:+ b)).
  cbn [contains]. by rewrite IH, orb_assoc.
Qed.

Lemma has_line_terminator_contains s :
  has_line_terminator s = contains char_nl s || contains char_cr s.
Proof.
  induction s as [|d r IH]; [reflexivity|].
  cbn [has_line_terminator contains]. rewrite IH. unfold is_line_terminator.
  destruct (Ascii.eqb d char_nl), (Ascii.eqb d char_cr),
    (contains char_nl r), (contains char_cr r); reflexivity.
Qed.

(** A text without line feed and carriage return. *)
Lemma clean_iff s :
  has_line_terminator s = false <->
  contains char_nl s = false /\ contains char_cr s = false.
Proof.
  rewrite has_line_terminator_contains. split.
  - intros H. by apply orb_false_elim in H.
  - intros [-> ->]. reflexivity.
Qed.

Lemma split_lines_clean_line s :
  has_line_terminator s = false -> split_lines s = [s].
Proof.
  induction s as [|d r IH]; [reflexivity|].
  cbn [has_line_terminator split_lines]. intros H.
  apply orb_false_elim in H as [Hd Hr]. unfold is_line_terminator in Hd.
  apply orb_false_elim in Hd as [-> ->]. simpl. by rewrite IH.
Qed.

Lemma split_lines_cons s rest :
  has_line_terminator s = false ->
  split_lines (s +:+ String char_nl rest) = s :: split_lines rest.
Proof.
  induction s as [|d r IH]; [reflexivity|].
  cbn [has_line_terminator]. intros H.
  apply orb_false_elim in H as [Hd Hr]. unfold is_line_terminator in Hd.
  apply orb_false_elim in Hd as [Hd1 Hd2].
  change (String d r +:+ String char_nl rest)
    with (String d (r +:+ String char_nl rest)).
  cbn [split_lines]. rewrite Hd1, Hd2, IH by exact Hr. reflexivity.
Qed.

Lemma split_lines_join lines :
  lines <> [] ->
  (forall l, In l lines -> has_line_terminator l = false) ->
  split_lines (join (str1 char_nl) lines) = lines.
Proof.
  induction lines as [|a t IH]; [done|]. intros _ H.
  destruct t as [|b t'].
  - apply split_lines_clean_line, H. by left.
  - change (join (str1 char_nl) (a :: b :: t'))
      with (a +:+ String char_nl (join (str1 char_nl) (b :: t'))).
    rewrite split_lines_cons by (apply H; by left).
    rewrite IH; [reflexivity|done|]. intros l Hl. apply H. by right.
Qed.

Lemma split_lines_lines_clean s l :
  contains char_cr s = false -> In l (split_lines s) ->
  has_line_terminator l = false.
Proof.
  revert l. induction s as [|d r IH]; intros l Hcr.
  - intros [<-|[]]. reflexivity.
  - cbn [contains] in Hcr. apply orb_false_elim in Hcr as [Hd Hr].
    cbn [split_lines]. rewrite Hd. simpl.
    destruct (Ascii.eqb d char_nl) eqn:Hn.
    + intros [<-|Hl]; [reflexivity|by apply IH].
    + destruct (split_lines r) as [|h t] eqn:E.
      * intros [<-|[]]. cbn. unfold is_line_terminator. by rewrite Hn, Hd.
      * intros [<-|Hl].
        -- cbn [has_line_terminator]. unfold is_line_terminator.
           rewrite Hn, Hd. simpl. apply IH; [exact Hr|by left].
        -- apply IH; [exact Hr|by right].
Qed.

Lemma split_lines_nonempty s : split_lines s <> [].
Proof.
  induction s as [|d r IH]; [done|]. cbn [split_lines].
  destruct (Ascii.eqb d char_nl); [done|].
  destruct (Ascii.eqb d char_cr && startsWithChar char_nl r); [exact IH|].
  by destruct (split_lines r).
Qed.

Lemma assignment_line_clean k v :
  has_line_terminator k = false -> has_line_terminator v = false ->
  has_line_terminator (assignment_line k v) = false.
Proof.
  intros Hk Hv. unfold assignment_line.
  rewrite !has_line_terminator_append, Hk, has_line_terminator_escape, Hv.
  reflexivity.
Qed.

(** The line written for a variable is read by the merge as an assignment
    to its key. *)
Lemma assignment_line_read k v :
  key_ok k = true -> has_line_terminator v = false ->
  trim (assignment_line k v) = assignment_line k v /\
  startsWithChar char_hash (assignment_line k v) = false /\
  exists rest, match_assignment (assignment_line k v) = Some (k, rest).
Proof.
  intros Hk Hv. unfold key_ok in Hk.
  apply andb_prop in Hk as [Hk Hhash]. apply andb_prop in Hk as [Hk Heq].
  apply andb_prop in Hk as [Hne Htrim].
  apply negb_true_iff in Hhash, Heq. apply String.eqb_eq in Htrim.
  destruct k as [|c r]; [discriminate|].
  assert (is_white_space c = false) as Hc
    by (by apply (trim_head (String c r) c r)).
  set (rest := str1 char_quote +:+ escape_quotes v +:+ str1 char_quote).
  assert (lastChar rest = Some char_quote) as Hlast.
  { unfold rest.
    change (str1 char_quote +:+ escape_quotes v +:+ str1 char_quote)
      with (String char_quote (escape_quotes v) +:+ str1 char_quote).
    unfold str1. by rewrite lastChar_append. }
  assert (assignment_line (String c r) v =
          String c r +:+ String char_eq rest) as Hline by reflexivity.
  split; [|split; [exact Hhash|]].
  - apply (trim_fixed _ c (r +:+ String char_eq rest) char_quote);
      [by rewrite Hline|exact Hc| |reflexivity].
    rewrite Hline, lastChar_append, <- Hlast. reflexivity.
  - exists rest. unfold match_assignment.
    rewrite Hline, (cut_at_eq_append _ _ Heq).
    assert (has_line_terminator rest = false) as ->; [|reflexivity].
    unfold rest. rewrite !has_line_terminator_append.
    by rewrite has_line_terminator_escape, Hv.
Qed.

Lemma mergeLine_assignment_line envVars x :
  findVar (key x) envVars = Some x ->
  key_ok (key x) = true -> has_line_terminator (value x) = false ->
  mergeLine envVars (assignment_line (key x) (value x)) =
    (assignment_line (key x) (value x), Some (key x)).
Proof.
  intros Hfind Hk Hv.
  destruct (assignment_line_read _ _ Hk Hv) as (Htrim & Hhash & rest & Hm).
  unfold mergeLine. rewrite Htrim, Hm, Hhash. cbv beta iota zeta. simpl negb.
  cbv iota.
  assert (trim (key x) = key x) as ->.
  { unfold key_ok in Hk. apply andb_prop in Hk as [Hk _].
    apply andb_prop in Hk as [Hk _]. apply andb_prop in Hk as [_ Hk].
    by apply String.eqb_eq. }
  by rewrite Hfind.
Qed.

Lemma findVar_key envVars k x :
  findVar k envVars = Some x -> key x = k /\ findVar (key x) envVars = Some x.
Proof.
  intros H. pose proof (find_some _ _ H) as [_ Hk].
  apply String.eqb_eq in Hk. by rewrite Hk.
Qed.

Lemma findVar_unique envVars x :
  NoDup (map key envVars) -> In x envVars ->
  findVar (key x) envVars = Some x.
Proof.
  induction envVars as [|y t IH]; [intros _ []|].
  cbn [map]. rewrite NoDup_cons. intros [Hnot Hnd] [->|Hin].
  - unfold findVar. simpl. by rewrite String.eqb_refl.
  - unfold findVar. simpl. destruct (String.eqb_spec (key y) (key x)) as [E|_].
    + exfalso. apply Hnot. rewrite E. apply list_elem_of_In. by apply in_map.
    + by apply IH.
Qed.

Lemma mergeLine_shape envVars line :
  mergeLine envVars line = (line, None) \/
  exists x, findVar (key x) envVars = Some x /\
    mergeLine envVars line = (assignment_line (key x) (value x), Some (key x)).
Proof.
  unfold mergeLine. destruct (match_assignment (trim line)) as [[k0 v0]|];
    [|by left].
  destruct (negb _); [|by left].
  destruct (findVar (trim k0) envVars) as [x|] eqn:E; [|by left].
  right. exists x. destruct (findVar_key _ _ _ E) as [<- Hx]. by split.
Qed.

Lemma processedOf_spec envVars lines (pk : gset string) k :
  k ∈ processedOf envVars lines pk <->
  k ∈ pk \/ exists l, In l lines /\ snd (mergeLine envVars l) = Some k.
Proof.
  revert pk. induction lines as [|l t IH]; intros pk.
  - simpl. split; [by left|]. by intros [?|(? & [] & _)].
  - change (processedOf envVars (l :: t) pk)
      with (processedOf envVars t
              (match snd (mergeLine envVars l) with
               | Some k' => {[ k' ]} ∪ pk
               | None => pk
               end)).
    rewrite IH. destruct (snd (mergeLine envVars l)) as [k'|] eqn:E.
    + rewrite elem_of_union, elem_of_singleton. split.
      * intros [[->|?]|(l' & ? & ?)]; [right; exists l; by split; [left|]
                                      |by left
                                      |right; exists l'; by split; [right|]].
      * intros [?|(l' & [<-|?] & Hl')].
        -- left. by right.
        -- left. left. rewrite E in Hl'. by injection Hl'.
        -- right. by exists l'.
    + split.
      * intros [?|(l' & ? & ?)]; [by left|right; exists l'; by split; [right|]].
      * intros [?|(l' & [<-|?] & Hl')]; [by left| |right; by exists l'].
        rewrite E in Hl'. discriminate.
Qed.

Lemma fold_appendStep_extra (pk : gset string) envVars acc :
  exists extra,
    fold_left (appendStep pk) envVars acc = acc ++ extra /\
    (forall l, In l extra ->
       exists x, In x envVars /\ l = assignment_line (key x) (value x)) /\
    (forall x, In x envVars -> key x ∉ pk ->
       In (assignment_line (key x) (value x)) extra).
Proof.
  revert acc. induction envVars as [|y t IH]; intros acc.
  - exists []. simpl. rewrite app_nil_r. repeat split; by intros ? [].
  - cbn [fold_left]. unfold appendStep at 2. case_bool_decide as Hin.
    + destruct (IH acc) as (extra & -> & H1 & H2). exists extra.
      split; [reflexivity|]. split.
      * intros l Hl. destruct (H1 l Hl) as (x & ? & ?). exists x.
        split; [by right|done].
      * intros x [<-|Hx] Hnot; [contradiction|by apply H2].
    + destruct (IH (acc ++ [assignment_line (key y) (value y)]))
        as (extra & -> & H1 & H2).
      exists (assignment_line (key y) (value y) :: extra).
      split; [by rewrite <- app_assoc|]. split.
      * intros l [<-|Hl]; [exists y; by split; [left|]|].
        destruct (H1 l Hl) as (x & ? & ?). exists x. split; [by right|done].
      * intros x [<-|Hx] Hnot; [by left|right; by apply H2].
Qed.

Lemma fold_appendStep_none (pk : gset string) envVars acc :
  (forall x, In x envVars -> key x ∈ pk) ->
  fold_left (appendStep pk) envVars acc = acc.
Proof.
  revert acc. induction envVars as [|y t IH]; intros acc H; [reflexivity|].
  cbn [fold_left]. unfold appendStep at 2.
  rewrite bool_decide_eq_true_2 by (apply H; by left).
  apply IH. intros x Hx. apply H. by right.
Qed.

Lemma mergeContent_idemp vars content :
  (forall x, In x vars -> enabled x = true ->
     key_ok (key x) = true /\ has_line_terminator (key x) = false /\
     has_line_terminator (value x) = false) ->
  NoDup (map key (enabledOnly vars)) ->
  contains char_cr content = false ->
  mergeContent vars (mergeContent vars content) = mergeContent vars content.
Proof.
  intros Hok Hnd Hcr. unfold mergeContent. f_equal.
  set (ev := enabledOnly vars).
  assert (forall x, In x ev ->
            key_ok (key x) = true /\ has_line_terminator (key x) = false /\
            has_line_terminator (value x) = false) as Hev.
  { intros x Hx. apply In_enabledOnly in Hx as [? ?]. by apply Hok. }
  assert (forall content',
            mergeLines vars content' =
            let lines := split_lines content' in
            fold_left (appendStep (processedOf ev lines ∅)) ev
              (map (fun l => fst (mergeLine ev l)) lines)) as Hunfold.
  { intros content'. unfold mergeLines. fold (enabledOnly vars). fold ev.
    by rewrite fold_mergeStep. }
  rewrite (Hunfold content). cbv zeta.
  set (lines0 := split_lines content).
  set (pk1 := processedOf ev lines0 ∅).
  destruct (fold_appendStep_extra pk1 ev
              (map (fun l => fst (mergeLine ev l)) lines0))
    as (extra & Hout & Hextra1 & Hextra2).
  rewrite Hout.
  set (out := map (fun l => fst (mergeLine ev l)) lines0 ++ extra).
  assert (forall x, In x ev ->
            mergeLine ev (assignment_line (key x) (value x)) =
            (assignment_line (key x) (value x), Some (key x))) as Hown.
  { intros x Hx. destruct (Hev x Hx) as (? & _ & ?).
    apply mergeLine_assignment_line; try done. by apply findVar_unique. }
  assert (forall l, In l out ->
            has_line_terminator l = false /\ fst (mergeLine ev l) = l)
    as Hlines.
  { intros l Hl. apply in_app_or in Hl as [Hl|Hl].
    - apply in_map_iff in Hl as (l0 & <- & Hl0).
      destruct (mergeLine_shape ev l0) as [E|(x & Hx & E)]; rewrite E; simpl.
      + split; [by apply (split_lines_lines_clean content)|by rewrite E].
      + pose proof (find_some _ _ Hx) as [Hin _].
        destruct (Hev x Hin) as (? & ? & ?).
        split; [by apply assignment_line_clean|by rewrite (Hown x Hin)].
    - destruct (Hextra1 l Hl) as (x & Hx & ->).
      destruct (Hev x Hx) as (? & ? & ?).
      split; [by apply assignment_line_clean|by rewrite (Hown x Hx)]. }
  assert (forall x, In x ev ->
            exists l, In l out /\ snd (mergeLine ev l) = Some (key x))
    as Hcover.
  { intros x Hx. destruct (decide (key x ∈ pk1)) as [Hin|Hnot].
    - apply processedOf_spec in Hin as [Hin|(l0 & Hl0 & Hk)];
        [by apply not_elem_of_empty in Hin|].
      destruct (mergeLine_shape ev l0) as [E|(y & Hy & E)];
        rewrite E in Hk; [discriminate|]. simpl in Hk. injection Hk as Hk.
      pose proof (find_some _ _ Hy) as [Hyin _].
      exists (assignment_line (key y) (value y)). split.
      + apply in_or_app. left. apply in_map_iff. exists l0.
        split; [by rewrite E|exact Hl0].
      + by rewrite (Hown y Hyin), <- Hk.
    - exists (assignment_line (key x) (value x)). split.
      + apply in_or_app. right. by apply Hextra2.
      + by rewrite (Hown x Hx). }
  rewrite Hunfold. cbv zeta.
  rewrite split_lines_join.
  - rewrite fold_appendStep_none.
    + rewrite <- (map_id out) at 2. apply map_ext_in.
      intros l Hl. by apply Hlines.
    + intros x Hx. apply processedOf_spec. right. by apply Hcover.
  - unfold out. destruct lines0 eqn:E; [|done].
    by destruct (split_lines_nonempty content).
  - intros l Hl. by apply Hlines.
Qed.

(** X20.  Saving again in file mode keeps the target.  When the enabled
    variables of the active environment have distinct keys that the dialect
    can carry, and keys and values without line terminators, and the target
    holds no carriage return, a second [writeEnvFile] writes the very
    content the first one wrote. *)
Theorem saving_again_keeps_the_target :
  forall (p : Project) (env : Environment) (st : State),
    activeEnvironment p = Some env ->
    (forall x, In x (variables env) -> enabled x = true ->
       key_ok (key x) = true /\ has_line_terminator (key x) = false /\
       has_line_terminator (value x) = false) ->
    NoDup (map key (enabledOnly (variables env))) ->
    (forall content, files st !! envPath p = Some content ->
                     contains char_cr content = false) ->
    files (writeEnvFile p (writeEnvFile p st)) !! envPath p =
    files (writeEnvFile p st) !! envPath p.
Proof.
  intros p env st Hactive Hok Hnd Hcr.
  rewrite (writeEnvFile_lookup_env p (writeEnvFile p st)), Hactive.
  rewrite (writeEnvFile_lookup_env p st), Hactive.
  f_equal. apply mergeContent_idemp; try done.
  destruct (files st !! envPath p) as [content|]; [by apply Hcr|reflexivity].
Qed.

End SaveTwice.

Section TreeFacts.

Implicit Types (st : State) (p : Project) (e : Environment)
  (n el : EnvNode).

Lemma getChildren_projectNode p st :
  getChildren (Some (projectNode p)) st =
  map (environmentNode p) (environments p).
Proof. reflexivity. Qed.

Lemma environmentNode_fields p e :
  nodeType (environmentNode p e) = EnvironmentNode /\
  parentId (environmentNode p e) = Some (id p) /\
  contextValue (environmentNode p e) = "environment" /\
  label (environmentNode p e) = env_name e /\
  data (environmentNode p e) =
    Some (EnvironmentData e
            (match activeEnvId p with
             | Some a => String.eqb a (env_id e)
             | None => false
             end)).
Proof.
  unfold environmentNode, newEnvNode. cbn [dataIsActive].
  by destruct (match activeEnvId p with Some a => _ | None => _ end).
Qed.

Lemma shownActive_environmentNode p e :
  shownActive (environmentNode p e) =
  match activeEnvId p with
  | Some a => String.eqb a (env_id e)
  | None => false
  end.
Proof.
  unfold environmentNode, newEnvNode. cbn [dataIsActive].
  by destruct (match activeEnvId p with Some a => _ | None => _ end).
Qed.

Lemma getChildren_environmentNode p e st :
  getChildren (Some (environmentNode p e)) st =
  map (variableNode (Some (id p)) (Some (env_id e))) (variables e).
Proof.
  destruct (environmentNode_fields p e) as (Ht & Hp & Hc & _ & Hd).
  unfold getChildren. rewrite Hc. cbn [String.eqb Ascii.eqb Bool.eqb].
  by rewrite Ht, Hd, Hp.
Qed.

Lemma filter_unique_id {A} (f : A -> string) (a : string) (l : list A) :
  NoDup (map f l) ->
  List.filter (fun x => String.eqb a (f x)) l =
  match find (fun x => String.eqb (f x) a) l with
  | Some x => [x]
  | None => []
  end.
Proof.
  induction l as [|x l IH]; [reflexivity|].
  cbn [map List.filter find]. intros Hnd.
  apply NoDup_cons in Hnd as [Hx Hnd]. rewrite (String.eqb_sym a (f x)).
  destruct (String.eqb_spec (f x) a) as [<-|Hne]; [|by apply IH].
  f_equal. clear IH Hnd. induction l as [|y l IH]; [reflexivity|].
  cbn [map] in Hx. apply not_elem_of_cons in Hx as [Hy Hx].
  cbn [List.filter]. apply String.eqb_neq in Hy. rewrite Hy. by apply IH.
Qed.

Lemma filter_map_pred {A B} (g : A -> B) (h : B -> bool) (l : list A) :
  List.filter h (map g l) = map g (List.filter (fun x => h (g x)) l).
Proof.
  induction l as [|x l IH]; [reflexivity|]. cbn [map List.filter].
  destruct (h (g x)); cbn [map]; by rewrite IH.
Qed.

(** X22.  The tree shows as active what the projections take as active:
    in a project whose environments have distinct, non-empty identifiers,
    the children of the project node marked [(Active)] are the node of
    [activeEnvironment], and no node when there is none. *)
Theorem tree_marks_the_active_environment :
  forall p st,
    NoDup (map env_id (environments p)) ->
    (forall e, In e (environments p) -> is_empty (env_id e) = false) ->
    List.filter shownActive (getChildren (Some (projectNode p)) st) =
    match activeEnvironment p with
    | Some e => [environmentNode p e]
    | None => []
    end.
Proof.
  intros p st Hnd Hids. rewrite getChildren_projectNode, filter_map_pred.
  rewrite (List.filter_ext _
             (fun e => match activeEnvId p with
                       | Some a => String.eqb a (env_id e)
                       | None => false
                       end)) by (intros e; apply shownActive_environmentNode).
  unfold activeEnvironment. destruct (activeEnvId p) as [a|].
  - rewrite (filter_unique_id env_id a _ Hnd).
    destruct (is_empty a) eqn:Ha.
    + destruct (find _ (environments p)) as [e|] eqn:He; [|reflexivity].
      apply find_some in He as [He Hid]. apply String.eqb_eq in Hid.
      rewrite <- Hid, (Hids e He) in Ha. discriminate.
    + by destruct (find _ (environments p)).
  - clear. by induction (environments p).
Qed.

(** X23.  The commands of the tree reach the variable they are run on: a
    variable node below the environment node of [e] below the project node
    of [p] carries the identifiers of both, so that editing and deleting
    through it are [editVariable] and [deleteVariable] on [p], [e] and the
    key of the variable, followed by a new projection. *)
Theorem tree_commands_reach_their_variable :
  forall p st en vn,
    is_empty (id p) = false ->
    In en (getChildren (Some (projectNode p)) st) ->
    In vn (getChildren (Some en) st) ->
    exists e x,
      In e (environments p) /\ In x (variables e) /\
      (forall k v, is_empty k = false ->
         editVarCommand (Some vn) (Some k) (Some v) st =
         updateEnvironmentVariables
           (editVariable (id p) (env_id e) (key x) k v st)) /\
      deleteVarCommand (Some vn) (Some "Delete") st =
      updateEnvironmentVariables
        (deleteVariable (id p) (env_id e) (key x) st) /\
      setActiveCommand (Some en) st =
      updateEnvironmentVariables
        (setActiveEnvironment (id p) (env_id e) st).
Proof.
  intros p st en vn Hid Hen Hvn. rewrite getChildren_projectNode in Hen.
  apply in_map_iff in Hen as (e & <- & He).
  rewrite getChildren_environmentNode in Hvn.
  apply in_map_iff in Hvn as (x & <- & Hx).
  exists e, x. split; [exact He|]. split; [exact Hx|].
  destruct (environmentNode_fields p e) as (Ht & Hp & _ & _ & Hd).
  split; [|split].
  - intros k v Hk. unfold editVarCommand, commandTarget, variableNode,
      newEnvNode. cbn. by rewrite Hid, Hk.
  - unfold deleteVarCommand, commandTarget, variableNode, newEnvNode. cbn.
    by rewrite Hid.
  - unfold setActiveCommand, commandTarget. by rewrite Ht, Hp, Hid, Hd.
Qed.

(** X24.  Activating through the tree keeps the active pointers valid:
    the environment node comes from the project it is activated in, so
    [setActiveEnvironment] is given an environment that project has. *)
Theorem tree_activation_keeps_pointers_valid :
  forall p st en,
    pointers_valid st ->
    findProject (id p) (getProjects st) = Some p ->
    In en (getChildren (Some (projectNode p)) st) ->
    pointers_valid (setActiveCommand (Some en) st).
Proof.
  intros p st en Hvalid Hfind Hen. rewrite getChildren_projectNode in Hen.
  apply in_map_iff in Hen as (e & <- & He).
  destruct (environmentNode_fields p e) as (Ht & Hp & _ & _ & Hd).
  unfold setActiveCommand, commandTarget. rewrite Ht, Hp.
  destruct (is_empty (id p)); [exact Hvalid|]. rewrite Hd.
  unfold pointers_valid. rewrite updateEnvironmentVariables_fields.
  change (getProjects (set_collection ?c ?s)) with (getProjects s).
  unfold setActiveEnvironment. rewrite Hfind.
  change (getProjects (showMessage ?m ?s)) with (getProjects s).
  rewrite getProjects_saveProjects.
  apply changeProject_valid; [exact Hvalid|]. intros r Hr _.
  rewrite Hfind in Hr. injection Hr as <-.
  unfold activeEnvId_valid. simpl. by exists e.
Qed.

(** X25.  The nodes of workspace overrides are read-only in the tree: a
    child of the workspace root carries no environment, so editing or
    deleting through it changes no store; at most the projection is
    run again. *)
Theorem workspace_override_nodes_are_read_only :
  forall st root n newKey newValue answer,
    contextValue root = "workspace-root" ->
    In n (getChildren (Some root) st) ->
    (editVarCommand (Some n) newKey newValue st = st \/
     editVarCommand (Some n) newKey newValue st =
       updateEnvironmentVariables st) /\
    (deleteVarCommand (Some n) answer st = st \/
     deleteVarCommand (Some n) answer st = updateEnvironmentVariables st).
Proof.
  intros st root n newKey newValue answer Hroot Hn.
  unfold getChildren in Hn. rewrite Hroot in Hn. cbn in Hn.
  apply in_map_iff in Hn as (x & <- & _). split.
  - unfold editVarCommand, commandTarget, variableNode, newEnvNode. cbn.
    destruct newKey as [k|]; [|by left].
    destruct newValue as [v|]; [|by left].
    destruct (is_empty k); [by left|by right].
  - unfold deleteVarCommand, commandTarget, variableNode, newEnvNode. cbn.
    destruct answer as [button|]; [|by left].
    destruct (String.eqb button "Delete"); [by right|by left].
Qed.

(** X26.  The fallback of [getChildren] is for variable nodes only: the
    data of every node of the root fits its type, and so does the data of
    every child of a node whose data fits, so below the root [getChildren]
    never meets a project or environment node it cannot read. *)
Theorem tree_nodes_fit_their_type :
  forall st,
    (forall n, In n (getChildren None st) -> fits n) /\
    (forall el n, fits el -> In n (getChildren (Some el) st) -> fits n).
Proof.
  intros st. split.
  - intros n Hn. cbn [getChildren] in Hn.
    apply in_app_or in Hn as [Hn|[<-|[]]]; [|reflexivity].
    by apply in_map_iff in Hn as (p & <- & _).
  - intros el n Hel Hn. unfold getChildren in Hn.
    destruct (String.eqb (contextValue el) "workspace-root").
    { by apply in_map_iff in Hn as (x & <- & _). }
    unfold fits in Hel.
    destruct (nodeType el), (data el) as [[q| |e b|x o]|];
      try (by destruct Hel); try (by destruct Hn).
    + apply in_map_iff in Hn as (e & <- & _).
      destruct (environmentNode_fields q e) as (Ht & _ & Hc & _ & Hd).
      unfold fits. by rewrite Ht, Hd.
    + by apply in_map_iff in Hn as (x & <- & _).
Qed.

End TreeFacts.

Section MoreEdges.

Implicit Types (op : Operation) (ops : list Operation) (st : State)
  (p : Project).

(** X21.  A second save backs up generated content.  For a project whose
    target file and backup are both absent, the first write takes no
    backup, and the next write backs up the file the first one
    generated. *)
Theorem second_save_backs_up_generated_content :
  forall p env st,
    activeEnvironment p = Some env ->
    files st !! envPath p = None ->
    files st !! bakPath p = None ->
    files (writeEnvFile p st) !! bakPath p = None /\
    files (writeEnvFile p (writeEnvFile p st)) !! bakPath p =
      Some (mergeContent (variables env) EmptyString).
Proof.
  intros p env st Hactive Henv Hbak.
  assert (files (writeEnvFile p st) !! bakPath p = None) as H1.
  { by rewrite writeEnvFile_lookup_bak, Hactive, Hbak, Henv. }
  split; [exact H1|].
  by rewrite writeEnvFile_lookup_bak, Hactive, H1, writeEnvFile_lookup_env,
    Hactive, Henv.
Qed.

Lemma run_override_keys op st :
  exists extra,
    map key (workspaceVars (run op st)) =
    map key (workspaceVars st) ++ extra.
Proof.
  pose proof (run_workspaceVars op st) as H.
  destruct op; try (exists []; by rewrite H, app_nil_r).
  cbn [run]. rewrite workspaceVars_addWorkspaceVariable.
  destruct (findVar k (workspaceVars st)).
  - exists []. by rewrite map_key_update_first, app_nil_r.
  - exists [k]. by rewrite map_app.
Qed.

(** X27.  No call removes or reorders a workspace override: after any
    sequence of calls the keys of the overrides are the keys there were,
    in their order, followed by the keys added since. *)
Theorem override_keys_only_grow :
  forall ops st,
    exists extra,
      map key (workspaceVars (runAll ops st)) =
      map key (workspaceVars st) ++ extra.
Proof.
  induction ops as [|op t IH]; intros st.
  - exists []. by rewrite app_nil_r.
  - unfold runAll. cbn [fold_left].
    destruct (IH (run op st)) as [extra2 H2].
    destruct (run_override_keys op st) as [extra1 H1].
    exists (extra1 ++ extra2). unfold runAll in H2.
    by rewrite H2, H1, app_assoc.
Qed.

End MoreEdges.

Section DuplicatePaths.

Implicit Types (st : State) (p q : Project) (ps : list Project).

(** A project added behind one with the same path in lower case is never
    the one a workspace folder resolves to. *)
Lemma matchProject_app_shadowed ps p new workspacePath :
  In p ps ->
  toLowerCase (path p) = toLowerCase (path new) ->
  matchProject (ps ++ [new]) workspacePath = matchProject ps workspacePath.
Proof.
  intros Hin Hlow. unfold matchProject.
  destruct (String.eqb (toLowerCase (path new)) (toLowerCase workspacePath))
    eqn:Hnew; [|by apply find_app_miss].
  destruct (find (fun r => String.eqb (toLowerCase (path r))
                                      (toLowerCase workspacePath)) ps)
    as [r|] eqn:Hfind.
  - clear Hin. induction ps as [|y t IH]; [discriminate|].
    simpl in Hfind |- *.
    destruct (String.eqb (toLowerCase (path y)) (toLowerCase workspacePath));
      [exact Hfind|by apply IH].
  - exfalso. pose proof (find_none _ _ Hfind p Hin) as Hp. simpl in Hp.
    rewrite Hlow, Hnew in Hp. discriminate.
Qed.

(** C6.  [addProject] compares paths exactly, where the lookup of
    [updateEnvironmentVariables] compares them in lower case.  So a path
    that equals the path of a stored project in lower case, and is not
    itself the path of a stored project, is not refused: a project with
    that path is appended and saved.  The lookup by workspace folder then
    gives what it gave before for every folder, so the added project is
    never the one resolved. *)
Theorem addProject_accepts_case_variant :
  forall now now' projectName projectPath envFilePath st p,
    In p (getProjects st) ->
    toLowerCase (path p) = toLowerCase projectPath ->
    (forall q, In q (getProjects st) -> path q <> projectPath) ->
    let st' := addProject now now' projectName projectPath envFilePath st in
    (exists new,
        getProjects st' = getProjects st ++ [new] /\
        secretProjects st' = Some (getProjects st ++ [new]) /\
        id new = now /\ name new = projectName /\ path new = projectPath) /\
    (forall workspacePath,
        matchProject (getProjects st') workspacePath =
        matchProject (getProjects st) workspacePath).
Proof.
  intros now now' projectName projectPath envFilePath st p Hin Hlow Hfresh st'.
  destruct (addProject_cases now now' projectName projectPath envFilePath st)
    as [[[q Hq] _]|(_ & new & pre & Hadd & Hid & Hname & Hpath & _)].
  { exfalso. apply find_some in Hq as [Hq Heq].
    apply String.eqb_eq in Heq. exact (Hfresh q Hq Heq). }
  assert (getProjects st' = getProjects st ++ [new]) as Hps.
  { unfold st'. by rewrite Hadd, getProjects_saveProjects. }
  split.
  - exists new. split; [exact Hps|].
    split; [|by repeat split].
    unfold st'. rewrite Hadd.
    by destruct (saveProjects_fields (getProjects st ++ [new])
                   (showMessages pre st)) as (_ & -> & _).
  - intros workspacePath. rewrite Hps.
    apply (matchProject_app_shadowed _ p); [exact Hin|]. by rewrite Hpath.
Qed.

End DuplicatePaths.

End EnvManager.

(** ** The properties on the sample store *)

(** C1 on the sample: the override of [FOO] hides the value of the active
    environment. *)
Lemma workspace_override_wins_sample :
  In (mkVar "FOO" "baz" true) (variables Sample.env) /\
  In (mkVar "FOO" "override" true) (workspaceVars Sample.state_with_target) /\
  collection (updateEnvironmentVariables Sample.state_with_target) !! "FOO"
    = Some "override".
Proof.
  split; [by left|]. split; [by left|].
  apply (workspace_override_wins Sample.state_with_target ["/work/app"]
           "/work/app" Sample.project Sample.env "FOO" "baz" "override");
    try reflexivity; try (by left).
  apply NoDup_singleton.
Defined.


(** C3 on the sample: two writes, then a restore. *)
Lemma backup_first_write_wins_sample :
  let st2 := writeEnvFile Sample.dir_prefix Sample.project
               (writeEnvFile Sample.dir_prefix Sample.project
                  Sample.state_with_target) in
  files Sample.state_with_target !! "/Work/App/.env" = Some Sample.target_text /\
  files Sample.state_with_target !! "/Work/App/.env.bak" = None /\
  files st2 !! "/Work/App/.env" <> Some Sample.target_text /\
  files st2 !! "/Work/App/.env.bak" = Some Sample.target_text /\
  files (restoreEnvFile Sample.dir_prefix Sample.error_text Sample.project st2)
    !! "/Work/App/.env" = Some Sample.target_text.
Proof.
  destruct (proj1 (proj2 (backup_first_write_wins Sample.dir_prefix
                            Sample.error_text))
              Sample.project Sample.project Sample.state_with_target
              Sample.target_text eq_refl eq_refl eq_refl)
    as (Hbak & Henv & _).
  split; [reflexivity|]. split; [reflexivity|]. split; [discriminate|].
  split; [|exact Henv]. apply Hbak. by exists Sample.env.
Defined.

(** C3 as stated does not hold: with a backup already next to the target,
    the two writes keep that backup, and the restore puts its content in
    the target, not the content the target had before the first write. *)
Lemma backup_first_write_wins_restores_stale_backup :
  let st := Sample.state_with_stale_backup in
  let st2 := writeEnvFile Sample.dir_prefix Sample.project
               (writeEnvFile Sample.dir_prefix Sample.project st) in
  let st3 := restoreEnvFile Sample.dir_prefix Sample.error_text
               Sample.project st2 in
  files st !! "/Work/App/.env" = Some Sample.target_text /\
  files st !! "/Work/App/.env.bak" = Some Sample.stale_text /\
  files st2 !! "/Work/App/.env.bak" = Some Sample.stale_text /\
  files st3 !! "/Work/App/.env" = Some Sample.stale_text /\
  files st3 !! "/Work/App/.env" <> files st !! "/Work/App/.env".
Proof.
  split; [reflexivity|]. split; [reflexivity|]. split; [reflexivity|].
  split; [reflexivity|discriminate].
Defined.

(** C4 on the sample: to file mode and back. *)
Lemma toggle_round_trip_sample :
  files Sample.state_with_target !! "/Work/App/.env" = Some Sample.target_text /\
  files (toggleSyncMode Sample.dir_prefix Sample.error_text
           Sample.state_with_target) !! "/Work/App/.env"
    <> Some Sample.target_text /\
  files (toggleSyncMode Sample.dir_prefix Sample.error_text
           (toggleSyncMode Sample.dir_prefix Sample.error_text
              Sample.state_with_target)) !! "/Work/App/.env"
    = Some Sample.target_text.
Proof.
  split; [reflexivity|]. split; [discriminate|].
  apply (toggle_round_trip_restores_target Sample.dir_prefix Sample.error_text
           Sample.state_with_target Sample.project Sample.target_text);
    try reflexivity. by left.
Defined.


(** C5 on the sample: the content written for the absent target starts with
    a line feed. *)
Lemma writeEnvFile_empty_target_sample :
  files (writeEnvFile Sample.dir_prefix Sample.project_ab
           Sample.state_without_target) !! "/work/fresh/.env"
    = Some (Sample.nl +:+ "A=" +:+ Sample.quoted "1" +:+ Sample.nl +:+ "B=" +:+ Sample.quoted "2") /\
  files (writeEnvFile Sample.dir_prefix Sample.project_ab
           Sample.state_without_target) !! "/work/fresh/.env"
    <> Some ("A=" +:+ Sample.quoted "1" +:+ Sample.nl +:+ "B=" +:+ Sample.quoted "2").
Proof.
  apply (writeEnvFile_empty_target_leading_blank_line Sample.dir_prefix
           Sample.project_ab Sample.env_ab Sample.state_without_target);
    [reflexivity|reflexivity|by left].
Defined.

(** C7 on the sample: deleting the active environment of the project. *)
Lemma deleteEnvironment_sample :
  exists p',
    findProject "p1"
      (getProjects (deleteEnvironment Sample.dir_prefix "p1" "e1"
                      Sample.state_with_target)) = Some p' /\
    activeEnvId p' = None /\
    activeEnvId_valid p'.
Proof.
  destruct (proj1 (deleteEnvironment_leaves_no_dangling_pointer
                     Sample.dir_prefix)
              Sample.state_with_target "p1" "e1" Sample.project
              eq_refl eq_refl) as (p' & Hfind & Hnone & _).
  exists p'. split; [exact Hfind|]. split; [exact Hnone|].
  apply (proj2 (deleteEnvironment_leaves_no_dangling_pointer
                  Sample.dir_prefix) Sample.state_with_target "p1" "e1").
  - intros q [<-|[]]. exists Sample.env. split; [by left|reflexivity].
  - apply find_some in Hfind. apply Hfind.
Defined.

(** C8 on the sample: the disabled [OLD] is in neither projection. *)
Lemma disabled_variables_sample :
  collection (updateEnvironmentVariables Sample.state_with_target) !! "OLD"
    = None /\
  (forall x,
      collection (updateEnvironmentVariables Sample.state_with_target) !! "FOO"
        = Some x ->
      x = "override" \/ x = "baz").
Proof.
  split; [reflexivity|]. intros x Hx.
  destruct (proj1 (proj2 (disabled_variables_not_projected Sample.dir_prefix))
              Sample.state_with_target "FOO" x Hx)
    as (v & _ & _ & Hv & [Hin|(p & e & Hp & He & Hin)]).
  - left. destruct Hin as [<-|[]]. by rewrite <- Hv.
  - right. destruct Hp as [<-|[]].
    change (Some Sample.env = Some e) in He. injection He as <-.
    simpl in Hin. destruct Hin as [Hin|[Hin|[]]]; subst v; simpl in Hv;
      subst x; [reflexivity|].
    exfalso. revert Hx. discriminate.
Defined.

(** On the sample, the very path of the project is refused. *)
Lemma addProject_rejects_same_path_sample :
  messages (addProject Sample.dir_prefix Sample.error_text "1700000000000"
              "1700000000001" "again" "/Work/App" None Sample.state_with_target)
    = [ErrorMessage "Project already exists for this path."] /\
  getProjects (addProject Sample.dir_prefix Sample.error_text "1700000000000"
                 "1700000000001" "again" "/Work/App" None
                 Sample.state_with_target)
    = [Sample.project].
Proof.
  destruct (addProject_rejects_same_path Sample.dir_prefix Sample.error_text
              "1700000000000" "1700000000001" "again" "/Work/App" None
              Sample.state_with_target Sample.project)
    as (Hst & Hps & _); [by left|reflexivity|].
  split; [by rewrite Hst|exact Hps].
Defined.

(** C6 on the sample: the path of the project in lower case is accepted,
    the project is added and saved without a message, and the one
    workspace folder still resolves to the project that was there. *)
Lemma addProject_accepts_case_variant_sample :
  let added := mkProject "1700000000000" "again" "/work/app" [] None in
  let st' := addProject Sample.dir_prefix Sample.error_text "1700000000000"
               "1700000000001" "again" "/work/app" None
               Sample.state_with_target in
  toLowerCase "/work/app" = toLowerCase (path Sample.project) /\
  getProjects Sample.state_with_target = [Sample.project] /\
  getProjects st' = [Sample.project; added] /\
  secretProjects st' = Some [Sample.project; added] /\
  messages st' = [] /\
  (forall workspacePath,
      matchProject (getProjects st') workspacePath =
      matchProject [Sample.project] workspacePath) /\
  matchProject (getProjects st') "/work/app" = Some Sample.project.
Proof.
  destruct (addProject_accepts_case_variant Sample.dir_prefix
              Sample.error_text "1700000000000" "1700000000001" "again"
              "/work/app" None Sample.state_with_target Sample.project)
    as [_ Hsame].
  - by left.
  - reflexivity.
  - intros q Hq. simpl in Hq. destruct Hq as [<-|[]]. discriminate.
  - repeat (split; [reflexivity|]). split; [exact Hsame|reflexivity].
Defined.

(** C9 on the sample: an identifier that no environment of the project has
    becomes its active pointer. *)
Lemma setActiveEnvironment_missing_environment_sample :
  findEnvironment "ghost" Sample.project = None /\
  getProjects (setActiveEnvironment Sample.dir_prefix "p1" "ghost"
                 Sample.state_with_target)
    = [mkProject "p1" "app" "/Work/App" [Sample.env] (Some "ghost")] /\
  messages (setActiveEnvironment Sample.dir_prefix "p1" "ghost"
              Sample.state_with_target)
    = [InformationMessage
         "Active environment set to ghost. (Updated Terminal Environment)"] /\
  exists p',
    findProject "p1"
      (getProjects (setActiveEnvironment Sample.dir_prefix "p1" "ghost"
                      Sample.state_with_target)) = Some p' /\
    ~ activeEnvId_valid p'.
Proof.
  split; [reflexivity|]. split; [reflexivity|]. split; [reflexivity|].
  destruct (setActiveEnvironment_takes_missing_environment Sample.dir_prefix
              Sample.state_with_target "p1" "ghost" Sample.project
              eq_refl eq_refl) as [(p' & Hfind & _ & _ & Hbad) _].
  exists p'. by split.
Defined.

(** C4 as stated does not hold: with a backup already next to the target,
    the write keeps that backup, and toggling back puts its content in the
    target instead of the content the target had. *)
Lemma toggle_round_trip_restores_stale_backup :
  let st := Sample.state_with_stale_backup in
  let st2 := toggleSyncMode Sample.dir_prefix Sample.error_text
               (toggleSyncMode Sample.dir_prefix Sample.error_text st) in
  syncMode st = terminal /\
  In Sample.project (getProjects st) /\
  files st !! "/Work/App/.env" = Some Sample.target_text /\
  files st2 !! "/Work/App/.env" = Some Sample.stale_text /\
  files st2 !! "/Work/App/.env" <> files st !! "/Work/App/.env".
Proof.
  split; [reflexivity|]. split; [by left|]. split; [reflexivity|].
  split; [reflexivity|discriminate].
Defined.


(** ** The further properties on the sample store *)

(** X1 on the sample: a variable is added, the mode is switched and the
    project is deleted; the cache and the storage still agree. *)
Lemma cache_and_storage_agree_sample :
  persisted Sample.state_with_target /\
  persisted
    (runAll Sample.dir_prefix Sample.error_text
       [AddVariable "p1" "e1" "K" "v"; ToggleSyncMode; DeleteProject "p1"]
       Sample.state_with_target).
Proof.
  split; [reflexivity|].
  apply (cache_and_storage_agree Sample.dir_prefix Sample.error_text).
  reflexivity.
Defined.

(** X2 on the sample: three calls in terminal mode. *)
Lemma terminal_mode_leaves_files_alone_sample :
  let ops := [AddVariable "p1" "e1" "K" "v"; SetActiveEnvironment "p1" "e1";
              AddWorkspaceVariable "K" "w"] in
  let st' := runAll Sample.dir_prefix Sample.error_text ops
               Sample.state_with_target in
  syncMode Sample.state_with_target = terminal /\
  syncMode st' = terminal /\
  files st' = files Sample.state_with_target.
Proof.
  split; [reflexivity|].
  apply (terminal_mode_leaves_files_alone Sample.dir_prefix
           Sample.error_text); reflexivity.
Defined.

(** X3 on the sample: the target outlives two toggles and the deletion of
    its project. *)
Lemma only_backups_are_deleted_sample :
  is_Some (files Sample.state_with_target !! "/Work/App/.env") /\
  is_Some
    (files (runAll Sample.dir_prefix Sample.error_text
              [ToggleSyncMode; ToggleSyncMode; DeleteProject "p1"]
              Sample.state_with_target) !! "/Work/App/.env").
Proof.
  assert (is_Some (files Sample.state_with_target !! "/Work/App/.env")) as H
    by (by exists Sample.target_text).
  split; [exact H|].
  apply (only_backups_are_deleted Sample.dir_prefix Sample.error_text);
    [|exact H].
  intros q. apply (envPath_bakPath_ne Sample.dir_prefix Sample.project q).
Defined.

(** X4 on the sample: saves in file mode next to a backup. *)
Lemma saves_never_touch_a_backup_sample :
  let st := set_syncMode file Sample.state_with_stale_backup in
  files st !! "/Work/App/.env.bak" = Some Sample.stale_text /\
  files (runAll Sample.dir_prefix Sample.error_text
           [AddVariable "p1" "e1" "K" "v"; RenameProject "p1" "other"]
           st) !! "/Work/App/.env.bak" = Some Sample.stale_text.
Proof.
  split; [reflexivity|].
  apply (saves_never_touch_a_backup Sample.dir_prefix Sample.error_text
           _ _ Sample.project); reflexivity.
Defined.

(** X5 on the sample: after a toggle to file mode and a new override the
    collection is empty. *)
Lemma file_mode_injects_nothing_sample :
  let st' := runAll Sample.dir_prefix Sample.error_text
               [ToggleSyncMode; AddWorkspaceVariable "K" "v"]
               Sample.state_with_target in
  syncMode st' = file /\ collection st' = ∅.
Proof.
  split; [reflexivity|].
  apply (file_mode_injects_nothing Sample.dir_prefix Sample.error_text);
    [intros _|]; reflexivity.
Defined.

(** X6 on the sample: [FOO] resolves to its override. *)
Lemma terminal_projection_resolves_sample :
  collection (updateEnvironmentVariables Sample.state_with_target) !! "FOO" =
  resolve Sample.state_with_target ["/work/app"] "FOO" /\
  resolve Sample.state_with_target ["/work/app"] "FOO" = Some "override".
Proof.
  split; [|reflexivity].
  apply terminal_projection_resolves; reflexivity.
Defined.

(** X7 on the sample: without a workspace nothing is injected; with an
    empty one, the overrides alone. *)
Lemma overrides_need_a_workspace_sample :
  let closed := mkState terminal (Some [Sample.project])
                  (Some [Sample.project]) None Sample.overrides None
                  ∅ ∅ [] in
  let empty := mkState terminal (Some [Sample.project])
                 (Some [Sample.project]) None Sample.overrides (Some [])
                 ∅ ∅ [] in
  collection (updateEnvironmentVariables closed) !! "FOO" = None /\
  collection (updateEnvironmentVariables empty) !! "FOO" =
    lastEnabled "FOO" (workspaceVars empty).
Proof.
  split.
  - apply (proj1 (overrides_need_a_workspace _ "FOO")). reflexivity.
  - apply (proj2 (overrides_need_a_workspace _ "FOO")); reflexivity.
Defined.

(** X8 on the sample: the override of [FOO] is given a new value. *)
Lemma addWorkspaceVariable_upserts_sample :
  collection (addWorkspaceVariable "FOO" "new" Sample.state_with_target)
    !! "FOO" = Some "new".
Proof.
  apply (proj2 (proj2 (proj2
           (addWorkspaceVariable_upserts "FOO" "new"
              Sample.state_with_target)))).
  - apply NoDup_singleton.
  - reflexivity.
  - by eexists.
Defined.

(** X9 on the sample: one override updated, one added and updated. *)
Lemma override_keys_stay_unique_sample :
  NoDup (map key (workspaceVars Sample.state_with_target)) /\
  NoDup (map key
           (workspaceVars
              (runAll Sample.dir_prefix Sample.error_text
                 [AddWorkspaceVariable "FOO" "x";
                  AddWorkspaceVariable "BAR" "y";
                  AddWorkspaceVariable "BAR" "z"]
                 Sample.state_with_target))).
Proof.
  assert (NoDup (map key (workspaceVars Sample.state_with_target))) as H
    by apply NoDup_singleton.
  split; [exact H|].
  by apply (override_keys_stay_unique Sample.dir_prefix Sample.error_text).
Defined.

(** X10 on the sample: the active environment is deleted and another one
    is added. *)
Lemma valid_pointers_are_kept_sample :
  pointers_valid Sample.state_with_target /\
  pointers_valid
    (runAll Sample.dir_prefix Sample.error_text
       [DeleteEnvironment "p1" "e1"; AddEnvironment "e9" "p1" "prod"]
       Sample.state_with_target).
Proof.
  assert (pointers_valid Sample.state_with_target) as H.
  { intros p Hp. simpl in Hp. destruct Hp as [<-|[]].
    exists Sample.env. split; [by left|reflexivity]. }
  split; [exact H|].
  apply (proj2 (valid_pointers_are_kept Sample.dir_prefix Sample.error_text));
    [reflexivity|exact H].
Defined.

(** X13 on the sample: after a toggle back to terminal mode no backup is
    left and a second revert changes nothing. *)
Lemma restore_is_idempotent_sample :
  let st := set_syncMode file Sample.state_with_stale_backup in
  let st' := toggleSyncMode Sample.dir_prefix Sample.error_text st in
  syncMode st = file /\
  files st' !! "/Work/App/.env.bak" = None /\
  revertAllActiveProjectsFromFile Sample.dir_prefix Sample.error_text st'
    = st'.
Proof.
  split; [reflexivity|].
  destruct (proj2 (restore_is_idempotent Sample.dir_prefix Sample.error_text)
              (set_syncMode file Sample.state_with_stale_backup) eq_refl)
    as [Hbak Hsame].
  split; [|exact Hsame]. apply (Hbak Sample.project). by left.
Defined.

(** X14 on the sample: a text of three lines, one of them a comment. *)
Lemma imported_variables_are_well_formed_sample :
  let text := "A=1" +:+ Sample.nl +:+ "# c" +:+ Sample.nl +:+ " B = two " in
  In (mkVar "B" "two" true) (importVariables text) /\
  key_ok "B" = true.
Proof.
  assert (In (mkVar "B" "two" true)
            (importVariables
               ("A=1" +:+ Sample.nl +:+ "# c" +:+ Sample.nl +:+ " B = two ")))
    as H by (right; left; reflexivity).
  split; [exact H|].
  exact (proj2 (imported_variables_are_well_formed _ _ H)).
Defined.

(** X15 on the sample: a value with a quote comes back escaped. *)
Lemma exported_line_is_imported_sample :
  let v := "say " +:+ Sample.quoted "hi" in
  parseLine [] (assignment_line "API_URL" v) =
    [mkVar "API_URL" (escape_quotes v) true] /\
  escape_quotes v <> v.
Proof.
  destruct (exported_line_is_imported "API_URL"
              ("say " +:+ Sample.quoted "hi") [] eq_refl eq_refl)
    as (Hline & _ & Hquote).
  split; [exact Hline|]. by apply Hquote.
Defined.

(** X16 on the sample: a project is added from the target of the first
    one. *)
Lemma addProject_appends_a_project_sample :
  exists new,
    getProjects
      (addProject Sample.dir_prefix Sample.error_text "n1" "n2" "second"
         "/work/second" (Some "/Work/App/.env") Sample.state_with_target)
      = [Sample.project; new] /\
    id new = "n1" /\ path new = "/work/second".
Proof.
  destruct (addProject_appends_a_project Sample.dir_prefix Sample.error_text
              "n1" "n2" "second" "/work/second" (Some "/Work/App/.env")
              Sample.state_with_target eq_refl)
    as (new & Hprojects & _ & Hid & _ & Hpath & _).
  exists new. split; [exact Hprojects|]. split; [exact Hid|exact Hpath].
Defined.

(** X18 on the sample: [FOO] is deleted from the active environment. *)
Lemma deleteVariable_removes_the_key_sample :
  exists p' e',
    findProject "p1"
      (getProjects (deleteVariable Sample.dir_prefix "p1" "e1" "FOO"
                      Sample.state_with_target)) = Some p' /\
    findEnvironment "e1" p' = Some e' /\
    findVar "FOO" (variables e') = None.
Proof.
  destruct (proj1 (deleteVariable_removes_the_key Sample.dir_prefix
                     "p1" "e1" "FOO" Sample.state_with_target
                     Sample.project Sample.env eq_refl eq_refl))
    as (p' & e' & Hp & He & _ & Hgone).
  exists p', e'. split; [exact Hp|]. split; [exact He|exact Hgone].
Defined.

(** X19 on the sample: the project is renamed. *)
Lemma renames_change_names_only_sample :
  let st' := renameProject Sample.dir_prefix "p1" "renamed"
               Sample.state_with_target in
  (exists p', findProject "p1" (getProjects st') = Some p' /\
              name p' = "renamed") /\
  map path (getProjects st') = map path (getProjects Sample.state_with_target).
Proof.
  destruct (proj1 (renames_change_names_only Sample.dir_prefix)
              "p1" "renamed" Sample.state_with_target)
    as (Hname & _ & Hpath & _).
  - by exists Sample.project.
  - split; [exact Hname|exact Hpath].
Defined.

(** X20 on the sample: the target with a comment, a managed and an
    unmanaged line is saved twice. *)
Lemma saving_again_keeps_the_target_sample :
  files (writeEnvFile Sample.dir_prefix Sample.project
           (writeEnvFile Sample.dir_prefix Sample.project
              Sample.state_with_target)) !! "/Work/App/.env" =
  files (writeEnvFile Sample.dir_prefix Sample.project
           Sample.state_with_target) !! "/Work/App/.env".
Proof.
  apply (saving_again_keeps_the_target Sample.dir_prefix Sample.project
           Sample.env Sample.state_with_target).
  - reflexivity.
  - intros x Hx. simpl in Hx. destruct Hx as [<-|[<-|[]]].
    + intros _. repeat split; reflexivity.
    + intros Hon. discriminate Hon.
  - apply NoDup_singleton.
  - intros content Hc.
    change (Some Sample.target_text = Some content) in Hc.
    injection Hc as <-. reflexivity.
Defined.

(** X21 on the sample: two saves of the project without target. *)
Lemma second_save_backs_up_generated_content_sample :
  files (writeEnvFile Sample.dir_prefix Sample.project_ab
           Sample.state_without_target) !! "/work/fresh/.env.bak" = None /\
  files (writeEnvFile Sample.dir_prefix Sample.project_ab
           (writeEnvFile Sample.dir_prefix Sample.project_ab
              Sample.state_without_target)) !! "/work/fresh/.env.bak" =
    Some (mergeContent (variables Sample.env_ab) EmptyString).
Proof.
  apply (second_save_backs_up_generated_content Sample.dir_prefix
           Sample.project_ab Sample.env_ab Sample.state_without_target);
    reflexivity.
Defined.

(** X22 on the sample: the one environment of the project is shown as
    active. *)
Lemma tree_marks_the_active_environment_sample :
  List.filter shownActive
    (getChildren (Some (projectNode Sample.project))
       Sample.state_with_target) =
  [environmentNode Sample.project Sample.env].
Proof.
  apply (tree_marks_the_active_environment Sample.project
           Sample.state_with_target).
  - apply NoDup_singleton.
  - intros e He. simpl in He. destruct He as [<-|[]]. reflexivity.
Defined.

(** X23 on the sample: the node of [FOO] below the environment of the
    project. *)
Lemma tree_commands_reach_their_variable_sample :
  let st := Sample.state_with_target in
  let en := environmentNode Sample.project Sample.env in
  let vn := variableNode (Some "p1") (Some "e1") (mkVar "FOO" "baz" true) in
  In en (getChildren (Some (projectNode Sample.project)) st) /\
  In vn (getChildren (Some en) st) /\
  exists e x,
    In e (environments Sample.project) /\ In x (variables e) /\
    (forall k v, is_empty k = false ->
       editVarCommand Sample.dir_prefix (Some vn) (Some k) (Some v) st =
       updateEnvironmentVariables
         (editVariable Sample.dir_prefix "p1" (env_id e) (key x) k v st)) /\
    deleteVarCommand Sample.dir_prefix (Some vn) (Some "Delete") st =
    updateEnvironmentVariables
      (deleteVariable Sample.dir_prefix "p1" (env_id e) (key x) st) /\
    setActiveCommand Sample.dir_prefix (Some en) st =
    updateEnvironmentVariables
      (setActiveEnvironment Sample.dir_prefix "p1" (env_id e) st).
Proof.
  assert (In (environmentNode Sample.project Sample.env)
            (getChildren (Some (projectNode Sample.project))
               Sample.state_with_target)) as Hen by (by left).
  assert (In (variableNode (Some "p1") (Some "e1") (mkVar "FOO" "baz" true))
            (getChildren (Some (environmentNode Sample.project Sample.env))
               Sample.state_with_target)) as Hvn by (by left).
  split; [exact Hen|]. split; [exact Hvn|].
  exact (tree_commands_reach_their_variable Sample.dir_prefix Sample.project
           Sample.state_with_target _ _ eq_refl Hen Hvn).
Defined.

(** X24 on the sample: the environment of the project is activated from
    its node. *)
Lemma tree_activation_keeps_pointers_valid_sample :
  pointers_valid
    (setActiveCommand Sample.dir_prefix
       (Some (environmentNode Sample.project Sample.env))
       Sample.state_with_target).
Proof.
  apply (tree_activation_keeps_pointers_valid Sample.dir_prefix
           Sample.project).
  - intros p Hp. simpl in Hp. destruct Hp as [<-|[]].
    exists Sample.env. split; [by left|reflexivity].
  - reflexivity.
  - by left.
Defined.

(** X25 on the sample: editing and deleting on the node of the override
    of [FOO]. *)
Lemma workspace_override_nodes_are_read_only_sample :
  let st := Sample.state_with_target in
  let n := variableNode (Some "workspace-root") None
             (mkVar "FOO" "override" true) in
  workspaceVars (editVarCommand Sample.dir_prefix (Some n) (Some "BAR")
                   (Some "y") st) = Sample.overrides /\
  workspaceVars (deleteVarCommand Sample.dir_prefix (Some n)
                   (Some "Delete") st) = Sample.overrides.
Proof.
  destruct (workspace_override_nodes_are_read_only Sample.dir_prefix
              Sample.state_with_target
              (workspaceNode Sample.overrides)
              (variableNode (Some "workspace-root") None
                 (mkVar "FOO" "override" true))
              (Some "BAR") (Some "y") (Some "Delete") eq_refl)
    as [[He|He] [Hd|Hd]]; try (by left);
    cbv zeta; rewrite He, Hd; split; reflexivity.
Defined.
